(** * The virtual CPU of the cpu-simulation repository

    A shallow embedding of [SimulationEngine] (simulationEngine.ts), of the
    program generators and the encoder of instructionSet.ts and of the types
    of types/cpu.ts, with the properties of the specification stated over
    it.

    Numbers.  A JavaScript [number] is an IEEE-754 double.  Every number
    that carries data (register, memory and cache contents, operands, bus
    values, and the program counter, which is copied into the PC register)
    is a primitive float here, so [+ - * /] are the operations of the
    source.  Numbers that only count upwards from 0 by one (the clock
    cycle, the last-accessed stamps taken from it, hit and miss counters,
    the instruction and phase cursors) are [nat]; addresses, which are never
    computed with, are [Z].

    Objects.  The engine mutates the objects it finds with [Array.find];
    the embedding rewrites the first element that satisfies the same
    predicate ([updateFirst]) or the element at the index the source
    selected ([updateAt]).

    Exceptions.  [Array.reduce] on an empty array and a field write on
    [undefined] throw a TypeError; the methods that can reach one of them
    return [option], with [None] for the throw.

    Host.  [Date.now()] and [Math.random()] are read by [addBusTransfer];
    what they return is an input of every call ([HostDraw]).  The callbacks
    handed to [setTimeout] run outside [step]; they are the separate
    transitions [cacheTimeout] and [busTimeout]. *)

From Stdlib Require Import ZArith List String Bool Lia PeanoNat.
From Stdlib Require Import Floats.PrimFloat.
From Stdlib Require Floats.FloatOps.
From Stdlib Require HexadecimalString.
Import ListNotations.

Local Open Scope string_scope.
Local Open Scope list_scope.
Local Open Scope nat_scope.

(** ** Numbers and template strings *)

Definition number := float.

(** [ToBoolean] on a number: false for [0], [-0] and [NaN]. *)
Definition truthy (x : number) : bool :=
  negb (PrimFloat.eqb x 0%float || PrimFloat.is_nan x).

(** [x || d] on numbers. *)
Definition orElse (x d : number) : number := if truthy x then x else d.

(** [x !== 0]. *)
Definition nonZero (x : number) : bool := negb (PrimFloat.eqb x 0%float).

(** A template literal, kept as its pieces: the text between the holes and
    the values put in them. *)
Inductive Fragment :=
| Text (s : string)
| Hole (x : number)
| HoleInt (z : Z).

Definition Template := list Fragment.

Definition Fragment_eqb (a b : Fragment) : bool :=
  match a, b with
  | Text s, Text t => String.eqb s t
  | Hole x, Hole y => PrimFloat.Leibniz.eqb x y
  | HoleInt x, HoleInt y => Z.eqb x y
  | _, _ => false
  end.

Fixpoint Template_eqb (a b : Template) : bool :=
  match a, b with
  | [], [] => true
  | x :: a', y :: b' => Fragment_eqb x y && Template_eqb a' b'
  | _, _ => false
  end.

(** An address put on a bus is the address itself, as a data number: the
    double of that integer value (the nearest double, for an integer
    beyond 2^53 that is not one). *)
Definition numberOfZ (z : Z) : number :=
  FloatOps.SF2Prim
    (SpecFloat.binary_normalize FloatOps.prec FloatOps.emax z 0 false).

(** ** types/cpu.ts *)

Module Opcode.
Inductive t := LOAD | STORE | ADD | SUB | MUL | DIV | JMP | JZ | JNZ | HALT | MOV.
End Opcode.

(** [number | string]: a literal or a register name. *)
Inductive Operand :=
| Num (x : number)
| Name (s : string).

Record Instruction := {
  instr_id : string;
  opcode : Opcode.t;
  operand1 : option Operand;
  operand2 : option Operand;
  destination : option string;
  address : option Z;
  description : Template
}.

Record Register := {
  reg_name : string;
  reg_value : number;
  reg_active : bool;
  reg_description : string
}.

Record MemoryLocation := {
  mem_address : Z;
  mem_value : number;
  mem_active : bool;
  mem_used : bool
}.

Module CacheLevel.
Inductive t := L1 | L2 | L3.
Definition eqb (a b : t) : bool :=
  match a, b with
  | L1, L1 | L2, L2 | L3, L3 => true
  | _, _ => false
  end.
End CacheLevel.

Record CacheLine := {
  line_address : Z;
  line_value : number;
  valid : bool;
  dirty : bool;
  lastAccessed : nat
}.

Record CacheState := {
  level : CacheLevel.t;
  lines : list CacheLine;
  hits : nat;
  misses : nat;
  size : nat;
  activeAddress : option Z;
  isHit : option bool
}.

Module BusType.
Inductive t := DATA | ADDRESS | CONTROL.
End BusType.

Record BusTransfer := {
  bus_id : Template;
  bus_type : BusType.t;
  bus_from : string;
  bus_to : string;
  bus_value : number;
  bus_active : bool;
  bus_timestamp : Z
}.

Module InstructionPhase.
Inductive t := FETCH | DECODE | EXECUTE | STORE | IDLE.
End InstructionPhase.

Record CPUState := {
  registers : list Register;
  memory : list MemoryLocation;
  cache : list CacheState;
  programCounter : number;
  instructionRegister : option Instruction;
  currentPhase : InstructionPhase.t;
  clockCycle : nat;
  isRunning : bool;
  isPaused : bool
}.

Record RegisterChange := {
  rc_name : string;
  rc_oldValue : number;
  rc_newValue : number
}.

Record MemoryChange := {
  mc_address : Z;
  mc_oldValue : number;
  mc_newValue : number
}.

Record SimulationStep := {
  cycle : nat;
  phase : InstructionPhase.t;
  instruction : option Instruction;
  registerChanges : list RegisterChange;
  memoryChanges : list MemoryChange
}.

Module ExampleType.
Inductive t := CALCULATOR | TRAFFIC_LIGHT.
End ExampleType.

Inductive CodeViewMode := assembly | machine.

Record SimulationState := {
  cpu : CPUState;
  currentExample : ExampleType.t;
  speed : Z;
  showCodeView : bool;
  codeViewMode : CodeViewMode;
  busTransfers : list BusTransfer;
  history : list SimulationStep
}.

(** The operation of a calculator example: ['+' | '-' | '*' | '/']. *)
Inductive Operation := Plus | Minus | Times | Divide.

Record CalculatorExample := {
  input1 : number;
  input2 : number;
  operation : Operation;
  result : option number;
  calc_steps : list Instruction
}.

Inductive Light := RED | YELLOW | GREEN.

Record TrafficLightExample := {
  currentState : Light;
  timer : number;
  sensorInput : bool;
  traffic_steps : list Instruction
}.

(** ** The engine object

    The private fields of [SimulationEngine]; [phases] is the constant
    list below. *)

Record Engine := {
  state : SimulationState;
  instructionIndex : nat;
  currentInstructions : list Instruction;
  phaseIndex : nat
}.

Definition phases : list InstructionPhase.t :=
  [InstructionPhase.FETCH; InstructionPhase.DECODE;
   InstructionPhase.EXECUTE; InstructionPhase.STORE].

(** *** Field assignments *)

Definition set_registers (v : list Register) (c : CPUState) : CPUState :=
  {| registers := v; memory := memory c; cache := cache c;
     programCounter := programCounter c;
     instructionRegister := instructionRegister c;
     currentPhase := currentPhase c; clockCycle := clockCycle c;
     isRunning := isRunning c; isPaused := isPaused c |}.

Definition set_memory (v : list MemoryLocation) (c : CPUState) : CPUState :=
  {| registers := registers c; memory := v; cache := cache c;
     programCounter := programCounter c;
     instructionRegister := instructionRegister c;
     currentPhase := currentPhase c; clockCycle := clockCycle c;
     isRunning := isRunning c; isPaused := isPaused c |}.

Definition set_cache (v : list CacheState) (c : CPUState) : CPUState :=
  {| registers := registers c; memory := memory c; cache := v;
     programCounter := programCounter c;
     instructionRegister := instructionRegister c;
     currentPhase := currentPhase c; clockCycle := clockCycle c;
     isRunning := isRunning c; isPaused := isPaused c |}.

Definition set_programCounter (v : number) (c : CPUState) : CPUState :=
  {| registers := registers c; memory := memory c; cache := cache c;
     programCounter := v;
     instructionRegister := instructionRegister c;
     currentPhase := currentPhase c; clockCycle := clockCycle c;
     isRunning := isRunning c; isPaused := isPaused c |}.

Definition set_instructionRegister (v : option Instruction) (c : CPUState)
  : CPUState :=
  {| registers := registers c; memory := memory c; cache := cache c;
     programCounter := programCounter c;
     instructionRegister := v;
     currentPhase := currentPhase c; clockCycle := clockCycle c;
     isRunning := isRunning c; isPaused := isPaused c |}.

Definition set_currentPhase (v : InstructionPhase.t) (c : CPUState)
  : CPUState :=
  {| registers := registers c; memory := memory c; cache := cache c;
     programCounter := programCounter c;
     instructionRegister := instructionRegister c;
     currentPhase := v; clockCycle := clockCycle c;
     isRunning := isRunning c; isPaused := isPaused c |}.

Definition set_clockCycle (v : nat) (c : CPUState) : CPUState :=
  {| registers := registers c; memory := memory c; cache := cache c;
     programCounter := programCounter c;
     instructionRegister := instructionRegister c;
     currentPhase := currentPhase c; clockCycle := v;
     isRunning := isRunning c; isPaused := isPaused c |}.

Definition set_cpu (v : CPUState) (s : SimulationState) : SimulationState :=
  {| cpu := v; currentExample := currentExample s; speed := speed s;
     showCodeView := showCodeView s; codeViewMode := codeViewMode s;
     busTransfers := busTransfers s; history := history s |}.

Definition set_currentExample (v : ExampleType.t) (s : SimulationState)
  : SimulationState :=
  {| cpu := cpu s; currentExample := v; speed := speed s;
     showCodeView := showCodeView s; codeViewMode := codeViewMode s;
     busTransfers := busTransfers s; history := history s |}.

Definition set_busTransfers (v : list BusTransfer) (s : SimulationState)
  : SimulationState :=
  {| cpu := cpu s; currentExample := currentExample s; speed := speed s;
     showCodeView := showCodeView s; codeViewMode := codeViewMode s;
     busTransfers := v; history := history s |}.

Definition set_history (v : list SimulationStep) (s : SimulationState)
  : SimulationState :=
  {| cpu := cpu s; currentExample := currentExample s; speed := speed s;
     showCodeView := showCodeView s; codeViewMode := codeViewMode s;
     busTransfers := busTransfers s; history := v |}.

Definition set_state (v : SimulationState) (e : Engine) : Engine :=
  {| state := v; instructionIndex := instructionIndex e;
     currentInstructions := currentInstructions e;
     phaseIndex := phaseIndex e |}.

Definition set_instructionIndex (v : nat) (e : Engine) : Engine :=
  {| state := state e; instructionIndex := v;
     currentInstructions := currentInstructions e;
     phaseIndex := phaseIndex e |}.

Definition set_currentInstructions (v : list Instruction) (e : Engine)
  : Engine :=
  {| state := state e; instructionIndex := instructionIndex e;
     currentInstructions := v; phaseIndex := phaseIndex e |}.

Definition set_phaseIndex (v : nat) (e : Engine) : Engine :=
  {| state := state e; instructionIndex := instructionIndex e;
     currentInstructions := currentInstructions e; phaseIndex := v |}.

(** [this.state.cpu.f = ...] and [this.state.f = ...]. *)
Definition onState (f : SimulationState -> SimulationState) (e : Engine)
  : Engine := set_state (f (state e)) e.

Definition onCpu (f : CPUState -> CPUState) (e : Engine) : Engine :=
  onState (fun s => set_cpu (f (cpu s)) s) e.

Definition cpuOf (e : Engine) : CPUState := cpu (state e).

(** *** Arrays of objects *)

(** The object [Array.find] returns, rewritten in place: the first element
    satisfying [p]. *)
Fixpoint updateFirst {A} (p : A -> bool) (f : A -> A) (l : list A) : list A :=
  match l with
  | [] => []
  | x :: l' => if p x then f x :: l' else x :: updateFirst p f l'
  end.

(** The object at index [i], rewritten in place. *)
Fixpoint updateAt {A} (i : nat) (f : A -> A) (l : list A) : list A :=
  match l, i with
  | [], _ => []
  | x :: l', O => f x :: l'
  | x :: l', S i' => x :: updateAt i' f l'
  end.

(** The elements of an array with their indices. *)
Fixpoint indexedFrom {A} (i : nat) (l : list A) : list (nat * A) :=
  match l with
  | [] => []
  | x :: l' => (i, x) :: indexedFrom (S i) l'
  end.

Definition indexed {A} (l : list A) : list (nat * A) := indexedFrom 0 l.

Definition named (n : string) (r : Register) : bool := String.eqb (reg_name r) n.

Definition at_address (a : Z) (m : MemoryLocation) : bool :=
  Z.eqb (mem_address m) a.

Definition of_level (lv : CacheLevel.t) (c : CacheState) : bool :=
  CacheLevel.eqb (level c) lv.

(** [l.valid && l.address === address]. *)
Definition holds (a : Z) (l : CacheLine) : bool :=
  valid l && Z.eqb (line_address l) a.

(** *** Object field writes *)

Definition set_reg_value (v : number) (r : Register) : Register :=
  {| reg_name := reg_name r; reg_value := v; reg_active := reg_active r;
     reg_description := reg_description r |}.

Definition set_reg_active (v : bool) (r : Register) : Register :=
  {| reg_name := reg_name r; reg_value := reg_value r; reg_active := v;
     reg_description := reg_description r |}.

Definition set_mem_value (v : number) (m : MemoryLocation) : MemoryLocation :=
  {| mem_address := mem_address m; mem_value := v;
     mem_active := mem_active m; mem_used := mem_used m |}.

Definition set_mem_active (v : bool) (m : MemoryLocation) : MemoryLocation :=
  {| mem_address := mem_address m; mem_value := mem_value m;
     mem_active := v; mem_used := mem_used m |}.

Definition set_mem_used (v : bool) (m : MemoryLocation) : MemoryLocation :=
  {| mem_address := mem_address m; mem_value := mem_value m;
     mem_active := mem_active m; mem_used := v |}.

Definition set_lastAccessed (v : nat) (l : CacheLine) : CacheLine :=
  {| line_address := line_address l; line_value := line_value l;
     valid := valid l; dirty := dirty l; lastAccessed := v |}.

Definition set_lines (v : list CacheLine) (c : CacheState) : CacheState :=
  {| level := level c; lines := v; hits := hits c; misses := misses c;
     size := size c; activeAddress := activeAddress c; isHit := isHit c |}.

(** [cache.activeAddress = undefined; cache.isHit = undefined]. *)
Definition clearActive (c : CacheState) : CacheState :=
  {| level := level c; lines := lines c; hits := hits c; misses := misses c;
     size := size c; activeAddress := None; isHit := None |}.

(** [cache.hits++; cache.activeAddress = address; cache.isHit = true]. *)
Definition recordHit (a : Z) (c : CacheState) : CacheState :=
  {| level := level c; lines := lines c; hits := S (hits c);
     misses := misses c; size := size c;
     activeAddress := Some a; isHit := Some true |}.

(** [l1Cache.misses++; l1Cache.activeAddress = address;
    l1Cache.isHit = false]. *)
Definition recordMiss (a : Z) (c : CacheState) : CacheState :=
  {| level := level c; lines := lines c; hits := hits c;
     misses := S (misses c); size := size c;
     activeAddress := Some a; isHit := Some false |}.

Definition push_registerChange (d : RegisterChange) (s : SimulationStep)
  : SimulationStep :=
  {| cycle := cycle s; phase := phase s; instruction := instruction s;
     registerChanges := registerChanges s ++ [d];
     memoryChanges := memoryChanges s |}.

Definition push_memoryChange (d : MemoryChange) (s : SimulationStep)
  : SimulationStep :=
  {| cycle := cycle s; phase := phase s; instruction := instruction s;
     registerChanges := registerChanges s;
     memoryChanges := memoryChanges s ++ [d] |}.

(** ** createInitialState *)

Definition emptyLine : CacheLine :=
  {| line_address := 0; line_value := 0%float; valid := false;
     dirty := false; lastAccessed := 0 |}.

Definition emptyCache (lv : CacheLevel.t) (n : nat) : CacheState :=
  {| level := lv; lines := map (fun _ => emptyLine) (seq 0 n);
     hits := 0; misses := 0; size := n;
     activeAddress := None; isHit := None |}.

Definition createInitialState : SimulationState :=
  let registers :=
    [ {| reg_name := "R1"; reg_value := 0%float; reg_active := false;
         reg_description := "General purpose register 1" |};
      {| reg_name := "R2"; reg_value := 0%float; reg_active := false;
         reg_description := "General purpose register 2" |};
      {| reg_name := "R3"; reg_value := 0%float; reg_active := false;
         reg_description := "General purpose register 3 (accumulator)" |};
      {| reg_name := "PC"; reg_value := 0%float; reg_active := false;
         reg_description := "Program counter" |};
      {| reg_name := "IR"; reg_value := 0%float; reg_active := false;
         reg_description := "Instruction register" |} ] in
  let memory :=
    map (fun i => {| mem_address := Z.of_nat i; mem_value := 0%float;
                     mem_active := false; mem_used := false |})
        (seq 0 256) in
  let cache :=
    [ emptyCache CacheLevel.L1 8; emptyCache CacheLevel.L2 16;
      emptyCache CacheLevel.L3 32 ] in
  {| cpu := {| registers := registers; memory := memory; cache := cache;
               programCounter := 0%float; instructionRegister := None;
               currentPhase := InstructionPhase.IDLE; clockCycle := 0;
               isRunning := false; isPaused := false |};
     currentExample := ExampleType.CALCULATOR;
     speed := 1000;
     showCodeView := true;
     codeViewMode := assembly;
     busTransfers := [];
     history := [] |}.

(** [new SimulationEngine()]. *)
Definition newEngine : Engine :=
  {| state := createInitialState; instructionIndex := 0;
     currentInstructions := []; phaseIndex := 0 |}.

Definition reset (e : Engine) : Engine :=
  set_currentInstructions []
    (set_phaseIndex 0 (set_instructionIndex 0 (set_state createInitialState e))).

(** ** instructionSet.ts: the program generators *)

Definition operationSign (o : Operation) : string :=
  match o with Plus => "+" | Minus => "-" | Times => "*" | Divide => "/" end.

Definition generateCalculatorInstructions
  (operand1 operand2 : number) (operation : Operation) : list Instruction :=
  let opcode :=
    match operation with
    | Plus => Opcode.ADD
    | Minus => Opcode.SUB
    | Times => Opcode.MUL
    | Divide => Opcode.DIV
    end in
  [ {| instr_id := "load1"; opcode := Opcode.LOAD;
       operand1 := Some (Num operand1); operand2 := None;
       destination := Some "R1"; address := None;
       description := [Text "Load "; Hole operand1; Text " into register R1"] |};
    {| instr_id := "load2"; opcode := Opcode.LOAD;
       operand1 := Some (Num operand2); operand2 := None;
       destination := Some "R2"; address := None;
       description := [Text "Load "; Hole operand2; Text " into register R2"] |};
    {| instr_id := "compute"; opcode := opcode;
       operand1 := Some (Name "R1"); operand2 := Some (Name "R2");
       destination := Some "R3"; address := None;
       description := [Text "Compute "; Hole operand1; Text " ";
                       Text (operationSign operation); Text " ";
                       Hole operand2] |};
    {| instr_id := "store"; opcode := Opcode.STORE;
       operand1 := None; operand2 := None;
       destination := Some "R3"; address := Some 256%Z;
       description := [Text "Store result to memory"] |} ].

Definition lightName (l : Light) : string :=
  match l with RED => "RED" | YELLOW => "YELLOW" | GREEN => "GREEN" end.

Definition generateTrafficLightInstructions
  (currentState : Light) (sensorInput : bool) : list Instruction :=
  let stateValue :=
    match currentState with
    | RED => 0%float | YELLOW => 1%float | GREEN => 2%float
    end in
  let mov (id : string) (v : number) (text : string) : Instruction :=
    {| instr_id := id; opcode := Opcode.MOV;
       operand1 := Some (Num v); operand2 := None;
       destination := Some "R3"; address := None;
       description := [Text text] |} in
  [ {| instr_id := "load_sensor"; opcode := Opcode.LOAD;
       operand1 := Some (Num (if sensorInput then 1%float else 0%float));
       operand2 := None; destination := Some "R1"; address := None;
       description := [Text "Load sensor input: ";
                       Text (if sensorInput then "Car detected" else "No car")] |};
    {| instr_id := "load_state"; opcode := Opcode.LOAD;
       operand1 := Some (Num stateValue);
       operand2 := None; destination := Some "R2"; address := None;
       description := [Text "Load current state: ";
                       Text (lightName currentState)] |} ]
  ++ match currentState, sensorInput with
     | RED, true => [mov "set_green" 2%float "Set output to GREEN"]
     | GREEN, _ => [mov "set_yellow" 1%float "Set output to YELLOW"]
     | YELLOW, _ => [mov "set_red" 0%float "Set output to RED"]
     | RED, false => []
     end
  ++ [ {| instr_id := "store_output"; opcode := Opcode.STORE;
          operand1 := None; operand2 := None;
          destination := Some "R3"; address := Some 512%Z;
          description := [Text "Store output signal"] |} ].

(** ** setExample *)

(** The two arguments of [setExample]: the example type with the data of
    that example, when data is passed.  (The source casts [exampleData] to
    the type [exampleType] names.) *)
Inductive ExampleArg :=
| calculator (exampleData : option CalculatorExample)
| trafficLight (exampleData : option TrafficLightExample).

Definition exampleTypeOf (a : ExampleArg) : ExampleType.t :=
  match a with
  | calculator _ => ExampleType.CALCULATOR
  | trafficLight _ => ExampleType.TRAFFIC_LIGHT
  end.

(** The second half of [setExample]: "Reset CPU state" and "Reset memory
    used flags". *)
Definition resetCounters (e : Engine) : Engine :=
  let e := onCpu (set_programCounter 0%float) e in
  let e := onCpu (set_instructionRegister None) e in
  let e := onCpu (set_currentPhase InstructionPhase.IDLE) e in
  let e := onCpu (set_clockCycle 0) e in
  let e := onState (set_busTransfers []) e in
  let e := onState (set_history []) e in
  onCpu (fun c =>
           set_memory
             (map (fun mem => set_mem_active false (set_mem_used false mem))
                  (memory c)) c) e.

Definition setExample (a : ExampleArg) (e : Engine) : Engine :=
  let e := onState (set_currentExample (exampleTypeOf a)) e in
  let e := set_instructionIndex 0 e in
  let e := set_phaseIndex 0 e in
  let e :=
    match a with
    | calculator (Some calcData) =>
        set_currentInstructions
          (generateCalculatorInstructions
             (input1 calcData) (input2 calcData) (operation calcData)) e
    | trafficLight (Some trafficData) =>
        set_currentInstructions
          (generateTrafficLightInstructions
             (currentState trafficData) (sensorInput trafficData)) e
    | _ => e
    end in
  resetCounters e.

(** The [loadProgram] of the specification's interface: the body of
    [setExample] with the pending list handed in by the caller instead of
    generated from example data. *)
Definition loadProgram (instructions : list Instruction) (e : Engine)
  : Engine :=
  let e := set_instructionIndex 0 e in
  let e := set_phaseIndex 0 e in
  let e := set_currentInstructions instructions e in
  resetCounters e.

(** ** addBusTransfer *)

(** What the host returns to one call of [addBusTransfer]: [Date.now()]
    for the id, [Math.random()], and [Date.now()] for the timestamp. *)
Record HostDraw := {
  nowForId : Z;
  random : number;
  nowForTimestamp : Z
}.

(** The draws of the successive [addBusTransfer] calls made within one
    call of a method. *)
Definition Draws := nat -> HostDraw.

Definition addBusTransfer (h : HostDraw) (type : BusType.t)
  (from to : string) (value : number) (e : Engine) : Engine :=
  let transfer :=
    {| bus_id := [Text "transfer-"; HoleInt (nowForId h); Text "-";
                  Hole (random h)];
       bus_type := type; bus_from := from; bus_to := to;
       bus_value := value; bus_active := true;
       bus_timestamp := nowForTimestamp h |} in
  onState (fun s => set_busTransfers (busTransfers s ++ [transfer]) s) e.

(** The callback [addBusTransfer] hands to [setTimeout]. *)
Definition busTimeout (id : Template) (e : Engine) : Engine :=
  onState
    (fun s =>
       set_busTransfers
         (updateFirst (fun t => Template_eqb (bus_id t) id)
            (fun t => {| bus_id := bus_id t; bus_type := bus_type t;
                         bus_from := bus_from t; bus_to := bus_to t;
                         bus_value := bus_value t; bus_active := false;
                         bus_timestamp := bus_timestamp t |})
            (busTransfers s)) s) e.

(** The callback [executeStore] hands to [setTimeout]. *)
Definition cacheTimeout (e : Engine) : Engine :=
  onCpu (fun c => set_cache (map clearActive (cache c)) c) e.

(** ** checkCache and updateCache *)

Record CacheResult := {
  cr_level : CacheLevel.t;
  cr_isHit : bool
}.

Definition levelName (lv : CacheLevel.t) : string :=
  match lv with
  | CacheLevel.L1 => "L1" | CacheLevel.L2 => "L2" | CacheLevel.L3 => "L3"
  end.

(** [(oldest, current) => current.lastAccessed < oldest.lastAccessed
      ? current : oldest], on lines paired with their index in
    [l1Cache.lines]. *)
Definition older (oldest current : nat * CacheLine) : nat * CacheLine :=
  if lastAccessed (snd current) <? lastAccessed (snd oldest)
  then current else oldest.

(** [Array.reduce] without an initial value; [None] is its TypeError on
    an empty array. *)
Definition reduceOldest (l : list (nat * CacheLine)) : option (nat * CacheLine) :=
  match l with
  | [] => None
  | first :: rest => Some (fold_left older rest first)
  end.

(** The line [checkCache] overwrites on a miss, as an index of
    [l1Cache.lines]; [None] when the source writes a field of
    [l1Cache.lines[0]] and there is no such line. *)
Definition readVictim (ls : list CacheLine) : option nat :=
  let validLines := filter (fun il => valid (snd il)) (indexed ls) in
  if 0 <? List.length validLines
  then option_map fst (reduceOldest validLines)
  else match ls with [] => None | _ :: _ => Some 0 end.

(** The line [updateCache] overwrites on a miss. *)
Definition writeVictim (ls : list CacheLine) : option nat :=
  option_map fst (reduceOldest (indexed ls)).

(** The loop of [checkCache] over [L1, L2, L3]; [None] when it falls
    through. *)
Fixpoint readScan (cacheLevels : list CacheLevel.t) (address : Z) (e : Engine)
  : option (CacheResult * Engine) :=
  match cacheLevels with
  | [] => None
  | lv :: rest =>
      match find (of_level lv) (cache (cpuOf e)) with
      | None => readScan rest address e
      | Some cache0 =>
          if existsb (holds address) (lines cache0)
          then
            let now := clockCycle (cpuOf e) in
            let touch (c : CacheState) :=
              set_lines (updateFirst (holds address) (set_lastAccessed now)
                           (lines c))
                        (recordHit address c) in
            Some ({| cr_level := level cache0; cr_isHit := true |},
                  onCpu (fun c =>
                           set_cache (updateFirst (of_level lv) touch (cache c))
                                     c) e)
          else readScan rest address e
      end
  end.

Definition checkCache (address : Z) (e : Engine)
  : option (CacheResult * Engine) :=
  let e := onCpu (fun c => set_cache (map clearActive (cache c)) c) e in
  match readScan [CacheLevel.L1; CacheLevel.L2; CacheLevel.L3] address e with
  | Some r => Some r
  | None =>
      let miss := {| cr_level := CacheLevel.L1; cr_isHit := false |} in
      match find (of_level CacheLevel.L1) (cache (cpuOf e)) with
      | None => Some (miss, e)
      | Some l1Cache =>
          match readVictim (lines l1Cache) with
          | None => None
          | Some lru =>
              let fetched :=
                match find (at_address address) (memory (cpuOf e)) with
                | Some m => orElse (mem_value m) 0%float
                | None => 0%float
                end in
              let line :=
                {| line_address := address; line_value := fetched;
                   valid := true; dirty := false;
                   lastAccessed := clockCycle (cpuOf e) |} in
              let fill (c : CacheState) :=
                set_lines (updateAt lru (fun _ => line) (lines c))
                          (recordMiss address c) in
              Some (miss,
                    onCpu (fun c =>
                             set_cache
                               (updateFirst (of_level CacheLevel.L1) fill
                                            (cache c)) c) e)
          end
      end
  end.

(** The loop of [updateCache] over [this.state.cpu.cache]; [None] when it
    falls through. *)
Fixpoint writeScan (address : Z) (value : number) (now : nat)
  (caches : list CacheState) : option (CacheLevel.t * list CacheState) :=
  match caches with
  | [] => None
  | cache0 :: rest =>
      if existsb (holds address) (lines cache0)
      then
        let rewrite (l : CacheLine) :=
          {| line_address := line_address l; line_value := value;
             valid := valid l; dirty := true; lastAccessed := now |} in
        Some (level cache0,
              set_lines (updateFirst (holds address) rewrite (lines cache0))
                        (recordHit address cache0) :: rest)
      else
        match writeScan address value now rest with
        | Some (lv, rest') => Some (lv, cache0 :: rest')
        | None => None
        end
  end.

Definition updateCache (address : Z) (value : number) (e : Engine)
  : option (CacheResult * Engine) :=
  let e := onCpu (fun c => set_cache (map clearActive (cache c)) c) e in
  match writeScan address value (clockCycle (cpuOf e)) (cache (cpuOf e)) with
  | Some (lv, caches) =>
      Some ({| cr_level := lv; cr_isHit := true |},
            onCpu (set_cache caches) e)
  | None =>
      let miss := {| cr_level := CacheLevel.L1; cr_isHit := false |} in
      match find (of_level CacheLevel.L1) (cache (cpuOf e)) with
      | None => Some (miss, e)
      | Some l1Cache =>
          match writeVictim (lines l1Cache) with
          | None => None
          | Some lru =>
              let line :=
                {| line_address := address; line_value := value;
                   valid := true; dirty := true;
                   lastAccessed := clockCycle (cpuOf e) |} in
              let fill (c : CacheState) :=
                set_lines (updateAt lru (fun _ => line) (lines c))
                          (recordMiss address c) in
              Some (miss,
                    onCpu (fun c =>
                             set_cache
                               (updateFirst (of_level CacheLevel.L1) fill
                                            (cache c)) c) e)
          end
      end
  end.

(** ** The four phases *)

Definition touchRegister (n : string) (v : number) (e : Engine) : Engine :=
  onCpu (fun c =>
           set_registers
             (updateFirst (named n)
                (fun r => set_reg_active true (set_reg_value v r))
                (registers c)) c) e.

Definition activateRegister (n : string) (e : Engine) : Engine :=
  onCpu (fun c =>
           set_registers
             (updateFirst (named n) (set_reg_active true) (registers c)) c) e.

Definition executeFetch (h : Draws) (instruction : Instruction)
  (step : SimulationStep) (e : Engine) : SimulationStep * Engine :=
  let e := onCpu (set_instructionRegister (Some instruction)) e in
  let e := onCpu (fun c => set_programCounter (programCounter c + 1)%float c) e in
  let pc := programCounter (cpuOf e) in
  let '(step, e) :=
    match find (named "PC") (registers (cpuOf e)) with
    | Some pcReg =>
        (push_registerChange
           {| rc_name := "PC"; rc_oldValue := reg_value pcReg;
              rc_newValue := pc |} step,
         touchRegister "PC" pc e)
    | None => (step, e)
    end in
  let e := addBusTransfer (h 0) BusType.ADDRESS "PC" "Memory" pc e in
  let e := addBusTransfer (h 1) BusType.DATA "Memory" "IR" 0%float e in
  (step, e).

Definition executeDecode (instruction : Instruction) (step : SimulationStep)
  (e : Engine) : SimulationStep * Engine :=
  (step, activateRegister "IR" e).

(** A string used as a condition: [undefined] and [''] are false. *)
Definition truthyString (s : option string) : bool :=
  match s with
  | Some s => negb (String.eqb s "")
  | None => false
  end.

(** An operand used as a condition. *)
Definition truthyOperand (o : option Operand) : bool :=
  match o with
  | Some (Num x) => truthy x
  | Some (Name s) => negb (String.eqb s "")
  | None => false
  end.

(** [typeof operand === 'string' ? operand : fallback]. *)
Definition registerOf (o : option Operand) (fallback : string) : string :=
  match o with
  | Some (Name s) => s
  | _ => fallback
  end.

(** [typeof operand === 'number' ? operand : reg.value]. *)
Definition valueOf (o : option Operand) (reg : Register) : number :=
  match o with
  | Some (Num x) => x
  | _ => reg_value reg
  end.

(** The inner [switch] of the ADD/SUB/MUL/DIV case. *)
Definition compute (op : Opcode.t) (val1 val2 : number) : number :=
  match op with
  | Opcode.ADD => (val1 + val2)%float
  | Opcode.SUB => (val1 - val2)%float
  | Opcode.MUL => (val1 * val2)%float
  | Opcode.DIV => if nonZero val2 then (val1 / val2)%float else 0%float
  | _ => 0%float
  end.

Definition executeLOAD (h : Draws) (instruction : Instruction)
  (step : SimulationStep) (e : Engine) : option (SimulationStep * Engine) :=
  match operand1 instruction, destination instruction with
  | Some (Num operand1), Some destination =>
      if truthyString (Some destination) then
        match find (named destination) (registers (cpuOf e)) with
        | Some reg =>
            match address instruction with
            | Some address =>
                match checkCache address e with
                | None => None
                | Some (cacheResult, e) =>
                    let memLoc := find (at_address address) (memory (cpuOf e)) in
                    let memValue :=
                      match memLoc with
                      | Some m => orElse (mem_value m) operand1
                      | None => operand1
                      end in
                    let e :=
                      onCpu (fun c =>
                               set_memory
                                 (updateFirst (at_address address)
                                    (set_mem_used true) (memory c)) c) e in
                    let step :=
                      push_registerChange
                        {| rc_name := destination; rc_oldValue := reg_value reg;
                           rc_newValue := memValue |} step in
                    let e := touchRegister destination memValue e in
                    let lv := levelName (cr_level cacheResult) in
                    let e :=
                      if cr_isHit cacheResult
                      then addBusTransfer (h 0) BusType.DATA lv destination
                             memValue e
                      else
                        addBusTransfer (h 1) BusType.DATA lv destination
                          memValue
                          (addBusTransfer (h 0) BusType.DATA "Memory" lv
                             memValue e) in
                    Some (step, e)
                end
            | None =>
                let step :=
                  push_registerChange
                    {| rc_name := destination; rc_oldValue := reg_value reg;
                       rc_newValue := operand1 |} step in
                let e := touchRegister destination operand1 e in
                Some (step,
                      addBusTransfer (h 0) BusType.DATA "CPU" destination
                        operand1 e)
            end
        | None => Some (step, e)
        end
      else Some (step, e)
  | _, _ => Some (step, e)
  end.

Definition executeSTORE (h : Draws) (instruction : Instruction)
  (step : SimulationStep) (e : Engine) : option (SimulationStep * Engine) :=
  match destination instruction with
  | Some destination =>
      if truthyString (Some destination) then
        match find (named destination) (registers (cpuOf e)),
              address instruction with
        | Some reg, Some address =>
            match find (at_address address) (memory (cpuOf e)) with
            | Some memLoc =>
                let step :=
                  push_memoryChange
                    {| mc_address := mem_address memLoc;
                       mc_oldValue := mem_value memLoc;
                       mc_newValue := reg_value reg |} step in
                let e :=
                  onCpu (fun c =>
                           set_memory
                             (updateFirst (at_address address)
                                (fun m =>
                                   set_mem_used true
                                     (set_mem_active true
                                        (set_mem_value (reg_value reg) m)))
                                (memory c)) c) e in
                match updateCache address (reg_value reg) e with
                | None => None
                | Some (cacheResult, e) =>
                    let lv := levelName (cr_level cacheResult) in
                    let e :=
                      addBusTransfer (h 0) BusType.ADDRESS "CPU" "Memory"
                        (numberOfZ address) e in
                    let e :=
                      addBusTransfer (h 1) BusType.DATA destination lv
                        (reg_value reg) e in
                    let e :=
                      if cr_isHit cacheResult then e
                      else addBusTransfer (h 2) BusType.DATA lv "Memory"
                             (reg_value reg) e in
                    Some (step, e)
                end
            | None => Some (step, e)
            end
        | _, _ => Some (step, e)
        end
      else Some (step, e)
  | None => Some (step, e)
  end.

Definition executeALU (h : Draws) (instruction : Instruction)
  (step : SimulationStep) (e : Engine) : SimulationStep * Engine :=
  let operand1 := operand1 instruction in
  let operand2 := operand2 instruction in
  if truthyOperand operand1 && truthyOperand operand2
     && truthyString (destination instruction)
  then
    let destination :=
      match destination instruction with Some d => d | None => "" end in
    let reg1Name := registerOf operand1 "R1" in
    let reg2Name := registerOf operand2 "R2" in
    match find (named reg1Name) (registers (cpuOf e)),
          find (named reg2Name) (registers (cpuOf e)),
          find (named destination) (registers (cpuOf e)) with
    | Some reg1, Some reg2, Some destReg =>
        let val1 := valueOf operand1 reg1 in
        let val2 := valueOf operand2 reg2 in
        let result := compute (opcode instruction) val1 val2 in
        let step :=
          push_registerChange
            {| rc_name := destination; rc_oldValue := reg_value destReg;
               rc_newValue := result |} step in
        let e := touchRegister destination result e in
        let e := activateRegister reg1Name e in
        let e := activateRegister reg2Name e in
        let e := addBusTransfer (h 0) BusType.DATA reg1Name "ALU" val1 e in
        let e := addBusTransfer (h 1) BusType.DATA reg2Name "ALU" val2 e in
        let e := addBusTransfer (h 2) BusType.CONTROL "ControlUnit" "ALU"
                   0%float e in
        let e := addBusTransfer (h 3) BusType.DATA "ALU" destination result e in
        (step, e)
    | _, _, _ => (step, e)
    end
  else (step, e).

Definition executeMOV (instruction : Instruction) (step : SimulationStep)
  (e : Engine) : SimulationStep * Engine :=
  match operand1 instruction, destination instruction with
  | Some (Num operand1), Some destination =>
      if truthyString (Some destination) then
        match find (named destination) (registers (cpuOf e)) with
        | Some reg =>
            (push_registerChange
               {| rc_name := destination; rc_oldValue := reg_value reg;
                  rc_newValue := operand1 |} step,
             touchRegister destination operand1 e)
        | None => (step, e)
        end
      else (step, e)
  | _, _ => (step, e)
  end.

(** The [switch (opcode)] of [executeExecute], one definition per case
    above; JMP, JZ, JNZ and HALT have no case. *)
Definition executeExecute (h : Draws) (instruction : Instruction)
  (step : SimulationStep) (e : Engine) : option (SimulationStep * Engine) :=
  match opcode instruction with
  | Opcode.LOAD => executeLOAD h instruction step e
  | Opcode.STORE => executeSTORE h instruction step e
  | Opcode.ADD | Opcode.SUB | Opcode.MUL | Opcode.DIV =>
      Some (executeALU h instruction step e)
  | Opcode.MOV => Some (executeMOV instruction step e)
  | _ => Some (step, e)
  end.

(** The [setTimeout] of the source is not part of the call; see
    [cacheTimeout]. *)
Definition executeStore (instruction : Instruction) (step : SimulationStep)
  (e : Engine) : SimulationStep * Engine :=
  let e :=
    onCpu (fun c =>
             set_registers
               (map (fun reg =>
                       if negb (String.eqb (reg_name reg) "PC")
                          && negb (String.eqb (reg_name reg) "IR")
                       then set_reg_active false reg else reg)
                    (registers c)) c) e in
  let e :=
    onCpu (fun c => set_memory (map (set_mem_active false) (memory c)) c) e in
  (step, e).

(** The [switch (phase)] of [step]. *)
Definition runPhase (h : Draws) (phase : InstructionPhase.t)
  (instruction : Instruction) (step : SimulationStep) (e : Engine)
  : option (SimulationStep * Engine) :=
  match phase with
  | InstructionPhase.FETCH => Some (executeFetch h instruction step e)
  | InstructionPhase.DECODE => Some (executeDecode instruction step e)
  | InstructionPhase.EXECUTE => executeExecute h instruction step e
  | InstructionPhase.STORE => Some (executeStore instruction step e)
  | InstructionPhase.IDLE => Some (step, e)
  end.

(** ** step

    [phaseIndex] stays below 4 (it is set to 0 as soon as it reaches
    [phases.length]); [nth] gives IDLE, a phase without a case in the
    [switch], where the source would read [undefined]. *)
Definition step (h : Draws) (e : Engine) : option (bool * Engine) :=
  if List.length (currentInstructions e) =? 0 then Some (false, e)
  else if List.length (currentInstructions e) <=? instructionIndex e
  then Some (false, e)
  else
    match nth_error (currentInstructions e) (instructionIndex e) with
    | None => Some (false, e)
    | Some instruction =>
        let phase := nth (phaseIndex e) phases InstructionPhase.IDLE in
        let e := onCpu (set_currentPhase phase) e in
        let e := onCpu (fun c => set_clockCycle (S (clockCycle c)) c) e in
        let step :=
          {| cycle := clockCycle (cpuOf e); phase := phase;
             instruction := Some instruction;
             registerChanges := []; memoryChanges := [] |} in
        match runPhase h phase instruction step e with
        | None => None
        | Some (step, e) =>
            let e := onState (fun s => set_history (history s ++ [step]) s) e in
            let e := set_phaseIndex (S (phaseIndex e)) e in
            let e :=
              if List.length phases <=? phaseIndex e
              then set_instructionIndex (S (instructionIndex e))
                     (set_phaseIndex 0 e)
              else e in
            Some (instructionIndex e <? List.length (currentInstructions e), e)
        end
    end.

(** [n] successive calls of [step], the [i]-th with the host draws [hs i];
    the values returned, in order, and the engine afterwards. *)
Fixpoint steps (hs : nat -> Draws) (n : nat) (e : Engine)
  : option (list bool * Engine) :=
  match n with
  | O => Some ([], e)
  | S n' =>
      match step (hs 0) e with
      | None => None
      | Some (b, e') =>
          match steps (fun i => hs (S i)) n' e' with
          | None => None
          | Some (bs, e'') => Some (b :: bs, e'')
          end
      end
  end.

(** ** Observations *)

Definition registerValue (n : string) (e : Engine) : option number :=
  option_map reg_value (find (named n) (registers (cpuOf e))).

Definition memoryValue (a : Z) (e : Engine) : option number :=
  option_map mem_value (find (at_address a) (memory (cpuOf e))).

Definition noDraws : Draws :=
  fun _ => {| nowForId := 0; random := 0%float; nowForTimestamp := 0 |}.

(** ** Reachable engines

    What a host can bring an engine to: construction and the public
    methods, the two cache methods called on their own, and the timer
    callbacks. *)
Inductive reachable : Engine -> Prop :=
| reach_new : reachable newEngine
| reach_reset e : reachable e -> reachable (reset e)
| reach_setExample a e : reachable e -> reachable (setExample a e)
| reach_loadProgram p e : reachable e -> reachable (loadProgram p e)
| reach_step h e b e' :
    reachable e -> step h e = Some (b, e') -> reachable e'
| reach_checkCache a e r e' :
    reachable e -> checkCache a e = Some (r, e') -> reachable e'
| reach_updateCache a v e r e' :
    reachable e -> updateCache a v e = Some (r, e') -> reachable e'
| reach_cacheTimeout e : reachable e -> reachable (cacheTimeout e)
| reach_busTimeout id e : reachable e -> reachable (busTimeout id e).

(** No two distinct valid lines of a level hold the same address. *)
Definition atMostOnePerAddress (ls : list CacheLine) : Prop :=
  forall i j li lj,
    nth_error ls i = Some li -> nth_error ls j = Some lj ->
    valid li = true -> valid lj = true ->
    line_address li = line_address lj -> i = j.

(** The shape the cache array keeps: L1 with its 8 lines, and L2 and L3
    as [createInitialState] made them. *)
Definition cacheInv (e : Engine) : Prop :=
  exists l1,
    cache (cpuOf e)
    = [l1; emptyCache CacheLevel.L2 16; emptyCache CacheLevel.L3 32]
    /\ level l1 = CacheLevel.L1
    /\ List.length (lines l1) = 8
    /\ atMostOnePerAddress (lines l1).

(** The private cursor and program of two engines agree. *)
Definition sameCursor (e e' : Engine) : Prop :=
  instructionIndex e' = instructionIndex e
  /\ phaseIndex e' = phaseIndex e
  /\ currentInstructions e' = currentInstructions e.

(** ** What a replay can be compared on

    A bus-transfer record without what the host clock and random source
    put in it. *)
Definition eraseHost (t : BusTransfer) : BusTransfer :=
  {| bus_id := []; bus_type := bus_type t; bus_from := bus_from t;
     bus_to := bus_to t; bus_value := bus_value t;
     bus_active := bus_active t; bus_timestamp := 0 |}.

Definition observe (e : Engine) : Engine :=
  onState (fun s => set_busTransfers (map eraseHost (busTransfers s)) s) e.

(** ** Engines and instructions used in the examples *)

Definition calc53 : Engine :=
  setExample
    (calculator
       (Some {| input1 := 5%float; input2 := 3%float; operation := Plus;
                result := None; calc_steps := [] |}))
    newEngine.

Definition afterSteps (hs : nat -> Draws) (n : nat) (e : Engine) : Engine :=
  match steps hs n e with
  | Some (_, e') => e'
  | None => e
  end.

Definition loadFrom (a : Z) (fallback : number) (dest : string) : Instruction :=
  {| instr_id := "load"; opcode := Opcode.LOAD;
     operand1 := Some (Num fallback); operand2 := None;
     destination := Some dest; address := Some a; description := [] |}.

Definition storeTo (a : Z) (src : string) : Instruction :=
  {| instr_id := "store"; opcode := Opcode.STORE;
     operand1 := None; operand2 := None;
     destination := Some src; address := Some a; description := [] |}.

Definition alu (op : Opcode.t) (o1 o2 : Operand) (dest : string) : Instruction :=
  {| instr_id := "compute"; opcode := op;
     operand1 := Some o1; operand2 := Some o2;
     destination := Some dest; address := None; description := [] |}.

Definition blankStep : SimulationStep :=
  {| cycle := 0; phase := InstructionPhase.EXECUTE; instruction := None;
     registerChanges := []; memoryChanges := [] |}.

Definition isALU (op : Opcode.t) : bool :=
  match op with
  | Opcode.ADD | Opcode.SUB | Opcode.MUL | Opcode.DIV => true
  | _ => false
  end.

(** The host of a replay in which every draw is the same, and one in
    which the clock has moved on. *)
Definition stillHost : nat -> Draws := fun _ => noDraws.

Definition laterHost : nat -> Draws :=
  fun _ _ => {| nowForId := 1; random := 0.5%float; nowForTimestamp := 1 |}.

(** An engine in which the memory cell 5 has been written: a one-STORE
    program run up to its EXECUTE phase.  (The two generated programs
    store to 0x100 and 0x200, outside the memory bank, so the program is
    given through [loadProgram].) *)
Definition usedEngine : Engine :=
  afterSteps stillHost 3 (loadProgram [storeTo 5 "R1"] newEngine).

Definition memoryUsed (a : Z) (e : Engine) : option bool :=
  option_map mem_used (find (at_address a) (memory (cpuOf e))).

(** What [setExample] does to everything but the pending list: the cursor
    and the CPU-level counters are back at their initial values, the bus
    log and the history are empty, registers and cache are untouched, the
    memory cells keep address and value and lose both flags. *)
Definition countersReset (e e' : Engine) : Prop :=
  instructionIndex e' = 0
  /\ phaseIndex e' = 0
  /\ programCounter (cpuOf e') = 0%float
  /\ instructionRegister (cpuOf e') = None
  /\ currentPhase (cpuOf e') = InstructionPhase.IDLE
  /\ clockCycle (cpuOf e') = 0
  /\ busTransfers (state e') = []
  /\ history (state e') = []
  /\ registers (cpuOf e') = registers (cpuOf e)
  /\ cache (cpuOf e') = cache (cpuOf e)
  /\ map mem_address (memory (cpuOf e')) = map mem_address (memory (cpuOf e))
  /\ map mem_value (memory (cpuOf e')) = map mem_value (memory (cpuOf e))
  /\ Forall (fun m => mem_used m = false /\ mem_active m = false)
       (memory (cpuOf e')).

(** ** The L1 level after an access

    The three ways [checkCache] and [updateCache] leave the level they
    act on, named for the statements below. *)
Definition outerLevels : list CacheState :=
  [emptyCache CacheLevel.L2 16; emptyCache CacheLevel.L3 32].

Definition afterReadHit (a : Z) (now : nat) (c : CacheState) : CacheState :=
  set_lines (updateFirst (holds a) (set_lastAccessed now) (lines c))
            (recordHit a (clearActive c)).

Definition afterWriteHit (a : Z) (v : number) (now : nat) (c : CacheState)
  : CacheState :=
  set_lines
    (updateFirst (holds a)
       (fun l => {| line_address := line_address l; line_value := v;
                    valid := valid l; dirty := true; lastAccessed := now |})
       (lines c))
    (recordHit a (clearActive c)).

Definition afterMiss (a : Z) (lru : nat) (line : CacheLine) (c : CacheState)
  : CacheState :=
  set_lines (updateAt lru (fun _ => line) (lines c))
            (recordMiss a (clearActive c)).

(** The line [checkCache] allocates for [a]. *)
Definition fetchedLine (a : Z) (e : Engine) : CacheLine :=
  {| line_address := a;
     line_value :=
       match find (at_address a) (memory (cpuOf e)) with
       | Some m => orElse (mem_value m) 0%float
       | None => 0%float
       end;
     valid := true; dirty := false;
     lastAccessed := clockCycle (cpuOf e) |}.

(** The line [updateCache] allocates for [a]. *)
Definition writtenLine (a : Z) (v : number) (e : Engine) : CacheLine :=
  {| line_address := a; line_value := v; valid := true; dirty := true;
     lastAccessed := clockCycle (cpuOf e) |}.

(** The cursor one call of [step] later. *)
Definition nextCursor (idx ph : nat) : nat * nat :=
  if 4 <=? S ph then (S idx, 0) else (idx, S ph).

(** The first level named L1, [cache.find((c) => c.level === CacheLevel.L1)],
    the object whose counters and flags both cache methods write on a
    miss. *)
Definition l1Level (e : Engine) : option CacheState :=
  find (of_level CacheLevel.L1) (cache (cpuOf e)).

(** The lines of the first level named L1, the level both cache methods
    allocate into. *)
Definition l1Lines (e : Engine) : list CacheLine :=
  match find (of_level CacheLevel.L1) (cache (cpuOf e)) with
  | Some l1Cache => lines l1Cache
  | None => []
  end.

(** An engine whose L1 has one valid line: the calculator example
    stepped three times, then a read of address 5, which misses at
    cycle 3. *)
Definition oneLineEngine : Engine :=
  match checkCache 5 (afterSteps stillHost 3 calc53) with
  | Some (_, e) => e
  | None => newEngine
  end.

Definition lineAddresses (e : Engine) : list (bool * Z) :=
  map (fun l => (valid l, line_address l)) (l1Lines e).

Definition afterAccess (r : option (CacheResult * Engine)) : list (bool * Z) :=
  match r with
  | Some (_, e) => lineAddresses e
  | None => []
  end.

(** Two results of a method, one per replay: the same value returned and
    engines equal up to what the host put in the bus log, or a throw in
    both. *)
Definition agree {A} (r1 r2 : option (A * Engine)) : Prop :=
  match r1, r2 with
  | Some (x1, e1), Some (x2, e2) => x1 = x2 /\ observe e1 = observe e2
  | None, None => True
  | _, _ => False
  end.

(** ** Parts of step, named

    What [step] does before the [switch] (the phase and the clock), and
    after it (the history and the cursor). *)
Definition tick (e : Engine) : Engine :=
  onCpu (fun c => set_clockCycle (S (clockCycle c)) c)
    (onCpu (set_currentPhase (nth (phaseIndex e) phases InstructionPhase.IDLE)) e).

Definition freshStep (instruction : Instruction) (e : Engine) : SimulationStep :=
  {| cycle := S (clockCycle (cpuOf e));
     phase := nth (phaseIndex e) phases InstructionPhase.IDLE;
     instruction := Some instruction;
     registerChanges := []; memoryChanges := [] |}.

Definition finish (s : SimulationStep) (e : Engine) : Engine :=
  let e := onState (fun st => set_history (history st ++ [s]) st) e in
  let e := set_phaseIndex (S (phaseIndex e)) e in
  if List.length phases <=? phaseIndex e
  then set_instructionIndex (S (instructionIndex e)) (set_phaseIndex 0 e)
  else e.

(** The names of the register bank and the addresses of the memory bank,
    as [createInitialState] lays them out. *)
Definition registerNames (e : Engine) : list string :=
  map reg_name (registers (cpuOf e)).

Definition memoryAddresses (e : Engine) : list Z :=
  map mem_address (memory (cpuOf e)).

Definition banks (e : Engine) : Prop :=
  registerNames e = ["R1"; "R2"; "R3"; "PC"; "IR"]
  /\ memoryAddresses e = map Z.of_nat (seq 0 256).

(** What no phase changes, between the engine a phase is given and the
    engine it leaves: the cursor and the program, the history, the clock
    and the phase, the names of the registers and the addresses of the
    memory cells; and the bus log only grows, by at most four active
    transfers. *)
Definition framed (e e' : Engine) : Prop :=
  sameCursor e e'
  /\ history (state e') = history (state e)
  /\ clockCycle (cpuOf e') = clockCycle (cpuOf e)
  /\ currentPhase (cpuOf e') = currentPhase (cpuOf e)
  /\ registerNames e' = registerNames e
  /\ memoryAddresses e' = memoryAddresses e
  /\ exists added,
       busTransfers (state e') = busTransfers (state e) ++ added
       /\ List.length added <= 4
       /\ Forall (fun t => bus_active t = true) added.

(** The history as a record of the cycle: as long as the clock, the clock
    being the number of phases run since the program was loaded, and the
    [k]-th record stamped with cycle [k+1], phase [k mod 4] of the
    instruction [k / 4]. *)
Definition chronicle (e : Engine) : Prop :=
  List.length (history (state e)) = clockCycle (cpuOf e)
  /\ clockCycle (cpuOf e) = 4 * instructionIndex e + phaseIndex e
  /\ forall k r,
       nth_error (history (state e)) k = Some r ->
       cycle r = S k
       /\ phase r = nth (k mod 4) phases InstructionPhase.IDLE
       /\ instruction r = nth_error (currentInstructions e) (k / 4).

(** L1 holds a valid line for [a] with the value [v]. *)
Definition cached (a : Z) (v : number) (e : Engine) : Prop :=
  exists l,
    In l (l1Lines e)
    /\ valid l = true /\ line_address l = a /\ line_value l = v.

Definition memoryCell (a : Z) (e : Engine) : option MemoryLocation :=
  find (at_address a) (memory (cpuOf e)).

(** The number of valid lines of L1. *)
Definition validLines (e : Engine) : nat :=
  List.length (filter valid (l1Lines e)).

(** Accesses of L1 so far: its hits and its misses. *)
Definition l1Accesses (e : Engine) : nat :=
  match find (of_level CacheLevel.L1) (cache (cpuOf e)) with
  | Some l1Cache => hits l1Cache + misses l1Cache
  | None => 0
  end.

(** An EXECUTE phase that puts [v] in register [d] and leaves the other
    registers, the memory and the cache as they are. *)
Definition registersOnly (d : string) (v : number) (x x' : Engine) : Prop :=
  registerValue d x' = Some v
  /\ (forall n, n <> d -> registerValue n x' = registerValue n x)
  /\ memory (cpuOf x') = memory (cpuOf x)
  /\ cache (cpuOf x') = cache (cpuOf x).

(** Engines a host can bring about through the public methods and the
    timer callbacks alone: [checkCache] and [updateCache] are private and
    run only inside [step]. *)
Inductive driven : Engine -> Prop :=
| driven_new : driven newEngine
| driven_reset e : driven e -> driven (reset e)
| driven_setExample a e : driven e -> driven (setExample a e)
| driven_loadProgram p e : driven e -> driven (loadProgram p e)
| driven_step h e b e' :
    driven e -> step h e = Some (b, e') -> driven e'
| driven_cacheTimeout e : driven e -> driven (cacheTimeout e)
| driven_busTimeout id e : driven e -> driven (busTimeout id e).

(** A cache line that agrees with the memory cell of its address: it holds
    the value of the cell, or 0 where [checkCache] read a falsy value or
    found no cell ([memLoc?.value || 0]). *)
Definition fresh (l : CacheLine) (e : Engine) : Prop :=
  match memoryValue (line_address l) e with
  | Some m => line_value l = m \/ (truthy m = false /\ line_value l = 0%float)
  | None => line_value l = 0%float
  end.

Definition coherent (e : Engine) : Prop :=
  forall l, In l (l1Lines e) -> valid l = true -> fresh l e.

(** ** instructionSet.ts: encodeInstruction *)

(** [INSTRUCTIONS[opcode].encoding]. *)
Definition encoding (o : Opcode.t) : Z :=
  match o with
  | Opcode.LOAD => 1 | Opcode.STORE => 2 | Opcode.ADD => 3 | Opcode.SUB => 4
  | Opcode.MUL => 5 | Opcode.DIV => 6 | Opcode.JMP => 7 | Opcode.JZ => 8
  | Opcode.JNZ => 9 | Opcode.HALT => 10 | Opcode.MOV => 11
  end%Z.

(** [n.toString(16)] on an integer: lower-case digits, a minus sign in
    front of a negative number. *)
Definition toString16Z (z : Z) : string :=
  match z with
  | Z0 => "0"
  | Zpos p => HexadecimalString.NilZero.string_of_uint (N.to_hex_uint (Npos p))
  | Zneg p =>
      ("-" ++ HexadecimalString.NilZero.string_of_uint
                (N.to_hex_uint (Npos p)))%string
  end.

Definition upperChar (c : Ascii.ascii) : Ascii.ascii :=
  let n := Ascii.nat_of_ascii c in
  if (97 <=? n) && (n <=? 122) then Ascii.ascii_of_nat (n - 32) else c.

(** [s.toUpperCase()], on the ASCII strings the encoder builds. *)
Fixpoint toUpperCase (s : string) : string :=
  match s with
  | EmptyString => EmptyString
  | String c s' => String (upperChar c) (toUpperCase s')
  end.

Fixpoint zeros (n : nat) : string :=
  match n with
  | O => EmptyString
  | S n' => ("0" ++ zeros n')%string
  end.

(** [s.padStart(targetLength, '0')]. *)
Definition padStart (targetLength : nat) (s : string) : string :=
  (zeros (targetLength - String.length s) ++ s)%string.

(** [encodeInstruction].  Operands are numbers of any value;
    [toString16] stands for the host's [Number.prototype.toString(16)] on
    them.  Opcode encodings and addresses are integers and use
    [toString16Z]. *)
Definition encodeInstruction (toString16 : number -> string)
  (instruction : Instruction) : string :=
  let opcodeEncoding := encoding (opcode instruction) in
  let opcodeHex := toUpperCase (padStart 2 (toString16Z opcodeEncoding)) in
  match address instruction with
  | Some address =>
      (opcodeHex ++ " " ++ toUpperCase (padStart 4 (toString16Z address)))%string
  | None =>
      match operand1 instruction, operand2 instruction with
      | Some operand1, Some operand2 =>
          let op1 :=
            match operand1 with
            | Num x => toUpperCase (padStart 2 (toString16 x))
            | Name _ => "00"
            end in
          let op2 :=
            match operand2 with
            | Num x => toUpperCase (padStart 2 (toString16 x))
            | Name _ => "00"
            end in
          (opcodeHex ++ " " ++ op1 ++ " " ++ op2)%string
      | _, _ => opcodeHex
      end
  end.

(** A jump, as a program may hold one ([INSTRUCTIONS] lists JMP, JZ, JNZ
    and HALT). *)
Definition jumpTo (a : Z) : Instruction :=
  {| instr_id := "jump"; opcode := Opcode.JMP;
     operand1 := None; operand2 := None;
     destination := None; address := Some a; description := [] |}.

(** The FETCH phases run since the program was loaded. *)
Definition fetched (e : Engine) : nat :=
  instructionIndex e + (if phaseIndex e =? 0 then 0 else 1).

(** [programCounter++], [k] times from 0. *)
Definition counted (k : nat) : number :=
  Nat.iter k (fun x => (x + 1)%float) 0%float.

(** * Properties *)

(** ** Arrays *)

Lemma updateFirst_length {A} (p : A -> bool) f (l : list A) :
  List.length (updateFirst p f l) = List.length l.
Proof.
  induction l as [|x l IH]; simpl; [reflexivity|].
  destruct (p x); simpl; congruence.
Qed.

Lemma updateAt_length {A} i (f : A -> A) (l : list A) :
  List.length (updateAt i f l) = List.length l.
Proof.
  revert i; induction l as [|x l IH]; intros [|i]; simpl; auto.
Qed.

Lemma updateFirst_map {A B} (g : A -> B) (p : A -> bool) f (l : list A) :
  (forall x, g (f x) = g x) -> map g (updateFirst p f l) = map g l.
Proof.
  intros Hg; induction l as [|x l IH]; simpl; [reflexivity|].
  destruct (p x); simpl; [rewrite Hg|rewrite IH]; reflexivity.
Qed.

Lemma nth_error_updateAt {A} i (f : A -> A) (l : list A) j :
  nth_error (updateAt i f l) j
  = if j =? i then option_map f (nth_error l j) else nth_error l j.
Proof.
  revert i j; induction l as [|x l IH]; intros i j.
  - destruct i, j; simpl; try reflexivity.
    destruct (j =? i); reflexivity.
  - destruct i, j; simpl; try reflexivity. apply IH.
Qed.

Lemma existsb_false_nth {A} (p : A -> bool) (l : list A) i x :
  existsb p l = false -> nth_error l i = Some x -> p x = false.
Proof.
  intros H Hn. apply nth_error_In in Hn.
  destruct (p x) eqn:Hp; [|reflexivity].
  assert (existsb p l = true) by (apply existsb_exists; eauto).
  congruence.
Qed.

Lemma find_updateFirst_same {A} (p : A -> bool) f (l : list A) :
  (forall x, p (f x) = p x) ->
  find p (updateFirst p f l) = option_map f (find p l).
Proof.
  intros Hp; induction l as [|x l IH]; simpl; [reflexivity|].
  destruct (p x) eqn:E; simpl.
  - rewrite Hp, E. reflexivity.
  - rewrite E. exact IH.
Qed.

(** ** Numbers *)

Lemma number_neq (x y : number) :
  PrimFloat.eqb x y = false -> PrimFloat.eqb y y = true -> x <> y.
Proof.
  intros Hxy Hyy E. rewrite E in Hxy. congruence.
Qed.

(** ** The sample program *)

(** C1, what the code does.  From a fresh engine, the calculator program
    for 5 + 3 stepped 16 times leaves 8 in R3, but the memory bank has the
    addresses 0..255 only: it has no cell 0x100, the STORE finds none,
    records no memory delta, and every cell still holds 0. *)
Theorem calculator_5_plus_3_leaves_memory_untouched (hs : nat -> Draws) :
  exists bs e,
    steps hs 16 calc53 = Some (bs, e)
    /\ registerValue "R3" e = Some 8%float
    /\ map mem_address (memory (cpuOf e)) = map Z.of_nat (seq 0 256)
    /\ memoryValue 256 e = None
    /\ forallb (fun m => PrimFloat.Leibniz.eqb (mem_value m) 0%float)
         (memory (cpuOf e)) = true
    /\ forallb (fun s => match memoryChanges s with [] => true | _ => false end)
         (history (state e)) = true.
Proof.
  eexists. eexists. split.
  - vm_compute. reflexivity.
  - repeat split; vm_compute; reflexivity.
Qed.

(** C4, what the code does.  The calculator program for
    10 / 3 leaves the quotient of the two doubles in R3, not its floor. *)
Theorem DIV_10_3_is_not_floored (hs : nat -> Draws) :
  exists bs e,
    steps hs 16
      (setExample
         (calculator
            (Some {| input1 := 10%float; input2 := 3%float;
                     operation := Divide; result := None; calc_steps := [] |}))
         newEngine)
    = Some (bs, e)
    /\ registerValue "R3" e = Some (10 / 3)%float
    /\ (10 / 3)%float <> 3%float
    /\ compute Opcode.DIV 10%float 3%float = 0x1.aaaaaaaaaaaabp+1%float.
Proof.
  eexists. eexists. split.
  - vm_compute. reflexivity.
  - repeat split; try (vm_compute; reflexivity).
    apply number_neq; vm_compute; reflexivity.
Qed.

(** ** The ALU case with a literal 0 *)

Lemma executeALU_skips_literal_zero h i s e :
  operand1 i = Some (Num 0%float) \/ operand2 i = Some (Num 0%float) ->
  executeALU h i s e = (s, e).
Proof.
  intros [H | H]; unfold executeALU; rewrite H; simpl.
  - reflexivity.
  - rewrite andb_false_r. reflexivity.
Qed.

Lemma nth_error_in_range {A} (l : list A) i x :
  nth_error l i = Some x ->
  (List.length l =? 0) = false /\ (List.length l <=? i) = false.
Proof.
  intros H.
  assert (i < List.length l) by (apply nth_error_Some; congruence).
  split; [apply Nat.eqb_neq | apply Nat.leb_gt]; lia.
Qed.

(** C10.  An ADD, SUB, MUL or DIV whose first or second operand is the
    literal 0 does nothing in EXECUTE: [executeExecute] returns the engine
    and the history step it was given, and the call of [step] that runs
    the phase leaves the registers and the bus log as they were and
    appends a history step without register or memory deltas. *)
Theorem ALU_with_literal_zero_is_skipped h i :
  isALU (opcode i) = true ->
  operand1 i = Some (Num 0%float) \/ operand2 i = Some (Num 0%float) ->
  (forall s e, executeExecute h i s e = Some (s, e))
  /\ (forall e,
        nth_error (currentInstructions e) (instructionIndex e) = Some i ->
        phaseIndex e = 2 ->
        exists b e' s,
          step h e = Some (b, e')
          /\ registers (cpuOf e') = registers (cpuOf e)
          /\ busTransfers (state e') = busTransfers (state e)
          /\ history (state e') = history (state e) ++ [s]
          /\ registerChanges s = []
          /\ memoryChanges s = []).
Proof.
  intros Hop Hzero.
  assert (Hskip : forall s e, executeExecute h i s e = Some (s, e)).
  { intros s e. unfold executeExecute.
    destruct (opcode i); try discriminate Hop;
      rewrite executeALU_skips_literal_zero by exact Hzero; reflexivity. }
  split; [exact Hskip|].
  intros [st ii ci pi] Hnth Hph. simpl in Hnth, Hph. subst pi.
  destruct (nth_error_in_range _ _ _ Hnth) as [Hne Hlt].
  unfold step.
  cbn [currentInstructions instructionIndex phaseIndex].
  rewrite Hne, Hlt, Hnth. simpl nth. unfold runPhase.
  rewrite Hskip. simpl.
  eexists. eexists. eexists.
  split; [reflexivity|].
  repeat split; reflexivity.
Qed.

(** The DIV of the calculator example for 7 / 0 names its operands by
    register; with the literal written in the instruction it is skipped. *)
Lemma ALU_with_literal_zero_is_skipped_witness :
  executeExecute noDraws (alu Opcode.DIV (Name "R1") (Num 0%float) "R3")
    blankStep newEngine
  = Some (blankStep, newEngine).
Proof.
  apply (proj1 (ALU_with_literal_zero_is_skipped noDraws
                  (alu Opcode.DIV (Name "R1") (Num 0%float) "R3")
                  eq_refl (or_intror eq_refl))).
Defined.

(** ** setExample *)

Lemma resetCounters_spec x e :
  instructionIndex x = 0 -> phaseIndex x = 0 -> cpuOf x = cpuOf e ->
  countersReset e (resetCounters x)
  /\ currentInstructions (resetCounters x) = currentInstructions x.
Proof.
  intros Hi Hp Hc.
  unfold countersReset, resetCounters. rewrite <- Hc. unfold cpuOf. simpl.
  repeat split; try reflexivity; try assumption.
  - rewrite map_map. reflexivity.
  - rewrite map_map. reflexivity.
  - apply Forall_forall. intros m Hm.
    apply in_map_iff in Hm. destruct Hm as [m0 [<- _]]. split; reflexivity.
Qed.

(** C8, as the specification states it, fails on an engine whose cell 5 was written:
    loading the calculator example clears its "used" flag. *)
Lemma setExample_clears_used_flags :
  memoryUsed 5 usedEngine = Some true
  /\ memoryUsed 5
       (setExample
          (calculator
             (Some {| input1 := 5%float; input2 := 3%float;
                      operation := Plus; result := None; calc_steps := [] |}))
          usedEngine) = Some false
  /\ memoryUsed 5 (loadProgram [] usedEngine) = Some false.
Proof.
  repeat split; vm_compute; reflexivity.
Qed.

(** C8, amended.  [setExample] (and [loadProgram]) puts the cursor at
    instruction 0 and phase 0, the program counter, instruction register,
    phase and cycle counter at their initial values, empties the bus log
    and the history, and leaves registers and cache unchanged; of the
    memory it keeps every cell's address and value and clears every
    cell's "used" and "active" flag.  The pending list is replaced by the
    generated program when example data is passed and kept otherwise. *)
Theorem setExample_resets_counters_and_memory_flags :
  (forall a e,
      countersReset e (setExample a e)
      /\ currentInstructions (setExample a e)
         = match a with
           | calculator (Some d) =>
               generateCalculatorInstructions (input1 d) (input2 d) (operation d)
           | trafficLight (Some d) =>
               generateTrafficLightInstructions (currentState d) (sensorInput d)
           | _ => currentInstructions e
           end)
  /\ (forall p e,
         countersReset e (loadProgram p e)
         /\ currentInstructions (loadProgram p e) = p).
Proof.
  split.
  - intros a e. unfold setExample.
    destruct a as [[d|]|[d|]];
      match goal with
      | |- countersReset _ (resetCounters ?x) /\ _ =>
          destruct (resetCounters_spec x e eq_refl eq_refl eq_refl) as [H1 H2]
      end;
      (split; [exact H1 | rewrite H2; reflexivity]).
  - intros p e. unfold loadProgram.
    match goal with
    | |- countersReset _ (resetCounters ?x) /\ _ =>
        destruct (resetCounters_spec x e eq_refl eq_refl eq_refl) as [H1 H2]
    end.
    split; [exact H1 | rewrite H2; reflexivity].
Qed.

(** ** The cache array *)

Lemma checkCache_on_shape a e l1 :
  cache (cpuOf e) = l1 :: outerLevels ->
  level l1 = CacheLevel.L1 ->
  checkCache a e
  = if existsb (holds a) (lines l1)
    then
      Some ({| cr_level := CacheLevel.L1; cr_isHit := true |},
            onCpu (set_cache
                     (afterReadHit a (clockCycle (cpuOf e)) l1 :: outerLevels)) e)
    else
      match readVictim (lines l1) with
      | None => None
      | Some lru =>
          Some ({| cr_level := CacheLevel.L1; cr_isHit := false |},
                onCpu (set_cache
                         (afterMiss a lru (fetchedLine a e) l1 :: outerLevels)) e)
      end.
Proof.
  intros Hc Hl.
  destruct e as [[[rs ms cs pc ir cp cc run pau] ex sp scv cvm bt hi] ii ci pi].
  unfold cpuOf in *. simpl in Hc. subst cs.
  destruct l1 as [lv ls hts mss sz aa ih]. simpl in Hl. subst lv.
  unfold checkCache, cpuOf, onCpu, onState. simpl.
  destruct (existsb (holds a) ls) eqn:Hhit.
  - reflexivity.
  - destruct (readVictim ls); reflexivity.
Qed.

Lemma updateCache_on_shape a v e l1 :
  cache (cpuOf e) = l1 :: outerLevels ->
  level l1 = CacheLevel.L1 ->
  updateCache a v e
  = if existsb (holds a) (lines l1)
    then
      Some ({| cr_level := CacheLevel.L1; cr_isHit := true |},
            onCpu (set_cache
                     (afterWriteHit a v (clockCycle (cpuOf e)) l1
                        :: outerLevels)) e)
    else
      match writeVictim (lines l1) with
      | None => None
      | Some lru =>
          Some ({| cr_level := CacheLevel.L1; cr_isHit := false |},
                onCpu (set_cache
                         (afterMiss a lru (writtenLine a v e) l1
                            :: outerLevels)) e)
      end.
Proof.
  intros Hc Hl.
  destruct e as [[[rs ms cs pc ir cp cc run pau] ex sp scv cvm bt hi] ii ci pi].
  unfold cpuOf in *. simpl in Hc. subst cs.
  destruct l1 as [lv ls hts mss sz aa ih]. simpl in Hl. subst lv.
  unfold updateCache, cpuOf, onCpu, onState. simpl.
  destruct (existsb (holds a) ls) eqn:Hhit.
  - reflexivity.
  - destruct (writeVictim ls); reflexivity.
Qed.

Lemma indexedFrom_length {A} k (l : list A) :
  List.length (indexedFrom k l) = List.length l.
Proof.
  revert k; induction l as [|x l IH]; intros k; simpl; auto.
Qed.

Lemma readVictim_some ls :
  ls <> [] -> exists lru, readVictim ls = Some lru.
Proof.
  intros Hne. unfold readVictim.
  destruct (filter (fun il => valid (snd il)) (indexed ls)) as [|x vl] eqn:E.
  - simpl. destruct ls; [congruence|eauto].
  - simpl. eauto.
Qed.

Lemma writeVictim_some ls :
  ls <> [] -> exists lru, writeVictim ls = Some lru.
Proof.
  intros Hne. unfold writeVictim, indexed.
  destruct ls as [|x ls]; [congruence|]. simpl. eauto.
Qed.

Lemma allInvalid_atMostOne ls :
  Forall (fun l => valid l = false) ls -> atMostOnePerAddress ls.
Proof.
  intros Hall i j li lj Hi _ Hv _ _.
  apply nth_error_In in Hi.
  rewrite Forall_forall in Hall. specialize (Hall _ Hi). congruence.
Qed.

Lemma atMostOne_same_keys ls ls' :
  map (fun l => (valid l, line_address l)) ls'
  = map (fun l => (valid l, line_address l)) ls ->
  atMostOnePerAddress ls -> atMostOnePerAddress ls'.
Proof.
  intros Hk Hamo i j li lj Hi Hj Hvi Hvj Ha.
  assert (Hget : forall n l',
             nth_error ls' n = Some l' ->
             exists l, nth_error ls n = Some l
                       /\ valid l = valid l'
                       /\ line_address l = line_address l').
  { intros n l' Hn.
    apply (map_nth_error (fun l => (valid l, line_address l))) in Hn.
    rewrite Hk in Hn. rewrite nth_error_map in Hn.
    destruct (nth_error ls n) as [l|]; [|discriminate].
    simpl in Hn. inversion Hn. eauto. }
  destruct (Hget _ _ Hi) as (mi & Hmi & Hvmi & Hami).
  destruct (Hget _ _ Hj) as (mj & Hmj & Hvmj & Hamj).
  apply (Hamo i j mi mj); congruence.
Qed.

Lemma atMostOne_updateFirst p f ls :
  (forall l, valid (f l) = valid l /\ line_address (f l) = line_address l) ->
  atMostOnePerAddress ls -> atMostOnePerAddress (updateFirst p f ls).
Proof.
  intros Hf. apply atMostOne_same_keys.
  apply updateFirst_map. intros l. destruct (Hf l) as [-> ->]. reflexivity.
Qed.

Lemma atMostOne_updateAt a lru line ls :
  valid line = true -> line_address line = a ->
  existsb (holds a) ls = false ->
  atMostOnePerAddress ls ->
  atMostOnePerAddress (updateAt lru (fun _ => line) ls).
Proof.
  intros Hv Ha Hmiss Hamo i j li lj Hi Hj Hvi Hvj Heq.
  rewrite nth_error_updateAt in Hi, Hj.
  assert (Hfresh : forall n l, nth_error ls n = Some l -> valid l = true ->
                               line_address l <> a).
  { intros n l Hn Hvl Hal.
    pose proof (existsb_false_nth _ _ _ _ Hmiss Hn) as Hh.
    unfold holds in Hh. rewrite Hvl in Hh. simpl in Hh.
    apply Z.eqb_neq in Hh. contradiction. }
  destruct (i =? lru) eqn:Ei, (j =? lru) eqn:Ej.
  - apply Nat.eqb_eq in Ei, Ej. congruence.
  - destruct (nth_error ls i); [|discriminate]. simpl in Hi. inversion Hi; subst li.
    exfalso. apply (Hfresh _ _ Hj Hvj). congruence.
  - destruct (nth_error ls j); [|discriminate]. simpl in Hj. inversion Hj; subst lj.
    exfalso. apply (Hfresh _ _ Hi Hvi). congruence.
  - apply (Hamo i j li lj); assumption.
Qed.

Lemma cacheInv_ext e e' :
  cache (cpuOf e') = cache (cpuOf e) -> cacheInv e -> cacheInv e'.
Proof.
  intros Hc (l1 & H1 & H2 & H3 & H4). exists l1. rewrite Hc. auto.
Qed.

Lemma nonempty_of_length_8 {A} (l : list A) : List.length l = 8 -> l <> [].
Proof. destruct l; simpl; congruence. Qed.

(** On an engine of the invariant shape [checkCache] returns, reports L1,
    and changes the cache array only. *)
Lemma checkCache_inv a e :
  cacheInv e ->
  exists r cs,
    checkCache a e = Some (r, onCpu (set_cache cs) e)
    /\ cr_level r = CacheLevel.L1
    /\ cacheInv (onCpu (set_cache cs) e).
Proof.
  intros (l1 & Hc & Hl & Hlen & Hamo).
  rewrite (checkCache_on_shape a e l1 Hc Hl).
  destruct (existsb (holds a) (lines l1)) eqn:Hhit.
  - eexists. eexists. split; [reflexivity|]. split; [reflexivity|].
    eexists. split; [reflexivity|]. simpl.
    split; [exact Hl|]. split.
    + rewrite updateFirst_length. exact Hlen.
    + apply atMostOne_updateFirst; [|exact Hamo]. intros l. split; reflexivity.
  - destruct (readVictim_some (lines l1) (nonempty_of_length_8 _ Hlen))
      as [lru ->].
    eexists. eexists. split; [reflexivity|]. split; [reflexivity|].
    eexists. split; [reflexivity|]. simpl.
    split; [exact Hl|]. split.
    + rewrite updateAt_length. exact Hlen.
    + apply (atMostOne_updateAt a); auto.
Qed.

Lemma updateCache_inv a v e :
  cacheInv e ->
  exists r cs,
    updateCache a v e = Some (r, onCpu (set_cache cs) e)
    /\ cr_level r = CacheLevel.L1
    /\ cacheInv (onCpu (set_cache cs) e).
Proof.
  intros (l1 & Hc & Hl & Hlen & Hamo).
  rewrite (updateCache_on_shape a v e l1 Hc Hl).
  destruct (existsb (holds a) (lines l1)) eqn:Hhit.
  - eexists. eexists. split; [reflexivity|]. split; [reflexivity|].
    eexists. split; [reflexivity|]. simpl.
    split; [exact Hl|]. split.
    + rewrite updateFirst_length. exact Hlen.
    + apply atMostOne_updateFirst; [|exact Hamo]. intros l. split; reflexivity.
  - destruct (writeVictim_some (lines l1) (nonempty_of_length_8 _ Hlen))
      as [lru ->].
    eexists. eexists. split; [reflexivity|]. split; [reflexivity|].
    eexists. split; [reflexivity|]. simpl.
    split; [exact Hl|]. split.
    + rewrite updateAt_length. exact Hlen.
    + apply (atMostOne_updateAt a); auto.
Qed.

(** ** The phases keep the cache shape and the cursor *)

Ltac kept :=
  eexists; eexists; split; [reflexivity|];
  split; [first [assumption | eapply cacheInv_ext; [|eassumption]; reflexivity]
         | repeat split].

Ltac split_finds :=
  repeat match goal with
         | |- context [@find ?A ?p ?l] => destruct (@find A p l)
         end.

Lemma executeExecute_inv h i s e :
  cacheInv e ->
  exists s' e',
    executeExecute h i s e = Some (s', e')
    /\ cacheInv e' /\ sameCursor e e'.
Proof.
  intros Hinv. unfold executeExecute.
  destruct (opcode i); try (kept; fail).
  - unfold executeLOAD.
    destruct (operand1 i) as [[x|n]|]; try (kept; fail).
    destruct (destination i) as [d|]; try (kept; fail).
    destruct (truthyString (Some d)); try (kept; fail).
    destruct (find (named d) (registers (cpuOf e))) as [reg|]; try (kept; fail).
    destruct (address i) as [a|]; try (kept; fail).
    destruct (checkCache_inv a e Hinv) as (r & cs & -> & _ & Hinv').
    destruct (cr_isHit r); kept.
  - unfold executeSTORE.
    destruct (destination i) as [d|]; try (kept; fail).
    destruct (truthyString (Some d)); try (kept; fail).
    destruct (find (named d) (registers (cpuOf e))) as [reg|]; try (kept; fail).
    destruct (address i) as [a|]; try (kept; fail).
    destruct (find (at_address a) (memory (cpuOf e))) as [m|]; try (kept; fail).
    match goal with
    | |- context [updateCache a ?v ?em] =>
        assert (Hem : cacheInv em) by (eapply cacheInv_ext; [|exact Hinv]; reflexivity);
        destruct (updateCache_inv a v em Hem) as (r & cs & -> & _ & Hinv')
    end.
    destruct (cr_isHit r); kept.
  - unfold executeALU.
    destruct (truthyOperand (operand1 i) && truthyOperand (operand2 i)
              && truthyString (destination i)); try (kept; fail).
    split_finds; kept.
  - unfold executeALU.
    destruct (truthyOperand (operand1 i) && truthyOperand (operand2 i)
              && truthyString (destination i)); try (kept; fail).
    split_finds; kept.
  - unfold executeALU.
    destruct (truthyOperand (operand1 i) && truthyOperand (operand2 i)
              && truthyString (destination i)); try (kept; fail).
    split_finds; kept.
  - unfold executeALU.
    destruct (truthyOperand (operand1 i) && truthyOperand (operand2 i)
              && truthyString (destination i)); try (kept; fail).
    split_finds; kept.
  - unfold executeMOV.
    destruct (operand1 i) as [[x|n]|]; try (kept; fail).
    destruct (destination i) as [d|]; try (kept; fail).
    destruct (truthyString (Some d)); try (kept; fail).
    split_finds; kept.
Qed.

Lemma runPhase_inv h ph i s e :
  cacheInv e ->
  exists s' e',
    runPhase h ph i s e = Some (s', e')
    /\ cacheInv e' /\ sameCursor e e'.
Proof.
  intros Hinv. destruct ph; simpl.
  - unfold executeFetch.
    split_finds; kept.
  - kept.
  - apply executeExecute_inv. exact Hinv.
  - kept.
  - kept.
Qed.

(** ** One call of step *)

Lemma step_done h e :
  List.length (currentInstructions e) <= instructionIndex e ->
  step h e = Some (false, e).
Proof.
  intros H. unfold step.
  destruct (List.length (currentInstructions e) =? 0); [reflexivity|].
  apply Nat.leb_le in H. rewrite H. reflexivity.
Qed.

Lemma step_running h e :
  cacheInv e ->
  instructionIndex e < List.length (currentInstructions e) ->
  exists b e',
    step h e = Some (b, e')
    /\ cacheInv e'
    /\ currentInstructions e' = currentInstructions e
    /\ (instructionIndex e', phaseIndex e')
       = nextCursor (instructionIndex e) (phaseIndex e)
    /\ b = (instructionIndex e' <? List.length (currentInstructions e)).
Proof.
  intros Hinv Hlt. unfold step.
  destruct (nth_error (currentInstructions e) (instructionIndex e)) as [i|] eqn:Hn.
  2:{ apply nth_error_None in Hn. lia. }
  destruct (nth_error_in_range _ _ _ Hn) as [-> ->].
  match goal with
  | |- context [runPhase h ?ph i ?s ?e0] =>
      assert (Hinv0 : cacheInv e0)
        by (eapply cacheInv_ext; [|exact Hinv]; reflexivity);
      destruct (runPhase_inv h ph i s e0 Hinv0)
        as (s' & e1 & -> & Hinv1 & Hi1 & Hp1 & Hc1)
  end.
  simpl in Hi1, Hp1, Hc1. simpl.
  rewrite Hp1. unfold nextCursor.
  destruct (phaseIndex e) as [|[|[|ph]]]; simpl;
    (eexists; eexists; split; [reflexivity|];
     split; [eapply cacheInv_ext; [|exact Hinv1]; reflexivity|];
     simpl; rewrite ?Hc1, ?Hi1, ?Hp1; repeat split).
Qed.

(** ** Reachable engines keep the cache shape *)

Lemma cacheInv_new : cacheInv newEngine.
Proof.
  eexists. split; [reflexivity|]. split; [reflexivity|].
  split; [reflexivity|].
  apply allInvalid_atMostOne. repeat constructor.
Qed.

Lemma reachable_cacheInv e : reachable e -> cacheInv e.
Proof.
  induction 1 as [ | e _ _ | a e _ IH | p e _ IH | h e b e' _ IH Hs
                   | a e r e' _ IH Hc | a v e r e' _ IH Hu
                   | e _ IH | id e _ IH ].
  - exact cacheInv_new.
  - exact cacheInv_new.
  - eapply cacheInv_ext; [|exact IH]. destruct a as [[d|]|[d|]]; reflexivity.
  - eapply cacheInv_ext; [|exact IH]. reflexivity.
  - destruct (Nat.lt_ge_cases (instructionIndex e)
                (List.length (currentInstructions e))) as [Hlt|Hge].
    + destruct (step_running h e IH Hlt) as (b0 & e0 & Hs0 & Hinv0 & _).
      rewrite Hs in Hs0. inversion Hs0; subst. exact Hinv0.
    + rewrite (step_done h e Hge) in Hs. inversion Hs; subst. exact IH.
  - destruct (checkCache_inv a e IH) as (r0 & cs & Hc0 & _ & Hinv0).
    rewrite Hc in Hc0. inversion Hc0; subst. exact Hinv0.
  - destruct (updateCache_inv a v e IH) as (r0 & cs & Hu0 & _ & Hinv0).
    rewrite Hu in Hu0. inversion Hu0; subst. exact Hinv0.
  - destruct IH as (l1 & Hc & Hl & Hlen & Hamo).
    exists (clearActive l1). unfold cacheTimeout, cpuOf in *. simpl.
    rewrite Hc. simpl. repeat split; assumption.
  - eapply cacheInv_ext; [|exact IH]. reflexivity.
Qed.

Lemma steps_reachable n :
  forall hs e bs e',
    reachable e -> steps hs n e = Some (bs, e') -> reachable e'.
Proof.
  induction n as [|n IH]; intros hs e bs e' Hr Hs; simpl in Hs.
  - inversion Hs; subst. exact Hr.
  - destruct (step (hs 0) e) as [[b e1]|] eqn:E; [|discriminate].
    destruct (steps (fun i => hs (S i)) n e1) as [[bs1 e2]|] eqn:E1;
      [|discriminate].
    inversion Hs; subst.
    eapply IH; [|exact E1]. eapply reach_step; [exact Hr|exact E].
Qed.

Lemma usedEngine_reachable : reachable usedEngine.
Proof.
  assert (H : exists r, steps stillHost 3 (loadProgram [storeTo 5 "R1"] newEngine)
                        = Some (r, usedEngine))
    by (eexists; vm_compute; reflexivity).
  destruct H as [r H].
  eapply steps_reachable; [|exact H]. apply reach_loadProgram, reach_new.
Qed.

(** C6.  In every reachable engine, no level of the cache has two
    distinct valid lines holding the same address. *)
Theorem one_valid_line_per_address e :
  reachable e ->
  forall c, In c (cache (cpuOf e)) -> atMostOnePerAddress (lines c).
Proof.
  intros Hr c Hin.
  destruct (reachable_cacheInv e Hr) as (l1 & Hc & Hl & Hlen & Hamo).
  rewrite Hc in Hin. simpl in Hin.
  destruct Hin as [<- | [<- | [<- | []]]].
  - exact Hamo.
  - apply allInvalid_atMostOne. repeat constructor.
  - apply allInvalid_atMostOne. repeat constructor.
Qed.

Lemma one_valid_line_per_address_witness :
  atMostOnePerAddress
    (lines (hd (emptyCache CacheLevel.L1 8) (cache (cpuOf usedEngine)))).
Proof.
  apply (one_valid_line_per_address usedEngine usedEngine_reachable).
  vm_compute. left. reflexivity.
Defined.

(** C9.  In every reachable engine the cache array is L1, L2, L3; every
    line of L2 and of L3 is invalid and their hit and miss counters are 0.
    Every access, read or write, returns and is reported at L1: it is a
    hit exactly when a valid line of L1 holds the address; a hit adds one
    to the hit counter of L1 and a miss one to its miss counter, the other
    counter staying as it was; and L1 is the level flagged with the
    address and the outcome. *)
Theorem only_L1_is_ever_used e :
  reachable e ->
  map level (cache (cpuOf e))
  = [CacheLevel.L1; CacheLevel.L2; CacheLevel.L3]
  /\ (forall c, In c (cache (cpuOf e)) -> level c <> CacheLevel.L1 ->
        Forall (fun l => valid l = false) (lines c)
        /\ hits c = 0 /\ misses c = 0)
  /\ (forall a, exists r e' c c',
         checkCache a e = Some (r, e')
         /\ cr_level r = CacheLevel.L1
         /\ cr_isHit r = existsb (holds a) (l1Lines e)
         /\ l1Level e = Some c /\ l1Level e' = Some c'
         /\ hits c' = hits c + (if cr_isHit r then 1 else 0)
         /\ misses c' = misses c + (if cr_isHit r then 0 else 1)
         /\ activeAddress c' = Some a
         /\ isHit c' = Some (cr_isHit r))
  /\ (forall a v, exists r e' c c',
         updateCache a v e = Some (r, e')
         /\ cr_level r = CacheLevel.L1
         /\ cr_isHit r = existsb (holds a) (l1Lines e)
         /\ l1Level e = Some c /\ l1Level e' = Some c'
         /\ hits c' = hits c + (if cr_isHit r then 1 else 0)
         /\ misses c' = misses c + (if cr_isHit r then 0 else 1)
         /\ activeAddress c' = Some a
         /\ isHit c' = Some (cr_isHit r)).
Proof.
  intros Hr. pose proof (reachable_cacheInv e Hr) as Hinv.
  destruct Hinv as (l1 & Hc & Hl & Hlen & Hamo).
  assert (H1 : l1Level e = Some l1).
  { unfold l1Level. rewrite Hc. simpl. unfold of_level. rewrite Hl.
    reflexivity. }
  assert (Hls : l1Lines e = lines l1).
  { unfold l1Lines. fold (l1Level e). rewrite H1. reflexivity. }
  assert (Hfound : forall c cs x,
            level c = CacheLevel.L1 ->
            l1Level (onCpu (set_cache (c :: cs)) x) = Some c).
  { intros c cs x Hlc. unfold l1Level, cpuOf. simpl. unfold of_level.
    rewrite Hlc. reflexivity. }
  split; [rewrite Hc; simpl; rewrite Hl; reflexivity|].
  split.
  - intros c Hin Hlv. rewrite Hc in Hin. simpl in Hin.
    destruct Hin as [<- | [<- | [<- | []]]].
    + contradiction.
    + repeat split. repeat constructor.
    + repeat split. repeat constructor.
  - split.
    + intros a. rewrite (checkCache_on_shape a e l1 Hc Hl), Hls.
      destruct (existsb (holds a) (lines l1)).
      * exists {| cr_level := CacheLevel.L1; cr_isHit := true |}.
        eexists. exists l1. eexists.
        split; [reflexivity|]. split; [reflexivity|]. split; [reflexivity|].
        split; [exact H1|]. split; [apply Hfound; exact Hl|].
        simpl. repeat split; lia.
      * destruct (readVictim_some (lines l1) (nonempty_of_length_8 _ Hlen))
          as [lru ->].
        exists {| cr_level := CacheLevel.L1; cr_isHit := false |}.
        eexists. exists l1. eexists.
        split; [reflexivity|]. split; [reflexivity|]. split; [reflexivity|].
        split; [exact H1|]. split; [apply Hfound; exact Hl|].
        simpl. repeat split; lia.
    + intros a v. rewrite (updateCache_on_shape a v e l1 Hc Hl), Hls.
      destruct (existsb (holds a) (lines l1)).
      * exists {| cr_level := CacheLevel.L1; cr_isHit := true |}.
        eexists. exists l1. eexists.
        split; [reflexivity|]. split; [reflexivity|]. split; [reflexivity|].
        split; [exact H1|]. split; [apply Hfound; exact Hl|].
        simpl. repeat split; lia.
      * destruct (writeVictim_some (lines l1) (nonempty_of_length_8 _ Hlen))
          as [lru ->].
        exists {| cr_level := CacheLevel.L1; cr_isHit := false |}.
        eexists. exists l1. eexists.
        split; [reflexivity|]. split; [reflexivity|]. split; [reflexivity|].
        split; [exact H1|]. split; [apply Hfound; exact Hl|].
        simpl. repeat split; lia.
Qed.

Lemma only_L1_is_ever_used_witness :
  map level (cache (cpuOf usedEngine))
  = [CacheLevel.L1; CacheLevel.L2; CacheLevel.L3]
  /\ (forall c, In c (cache (cpuOf usedEngine)) -> level c <> CacheLevel.L1 ->
        Forall (fun l => valid l = false) (lines c)
        /\ hits c = 0 /\ misses c = 0)
  /\ (forall a, exists r e' c c',
         checkCache a usedEngine = Some (r, e')
         /\ cr_level r = CacheLevel.L1
         /\ cr_isHit r = existsb (holds a) (l1Lines usedEngine)
         /\ l1Level usedEngine = Some c /\ l1Level e' = Some c'
         /\ hits c' = hits c + (if cr_isHit r then 1 else 0)
         /\ misses c' = misses c + (if cr_isHit r then 0 else 1)
         /\ activeAddress c' = Some a
         /\ isHit c' = Some (cr_isHit r))
  /\ (forall a v, exists r e' c c',
         updateCache a v usedEngine = Some (r, e')
         /\ cr_level r = CacheLevel.L1
         /\ cr_isHit r = existsb (holds a) (l1Lines usedEngine)
         /\ l1Level usedEngine = Some c /\ l1Level e' = Some c'
         /\ hits c' = hits c + (if cr_isHit r then 1 else 0)
         /\ misses c' = misses c + (if cr_isHit r then 0 else 1)
         /\ activeAddress c' = Some a
         /\ isHit c' = Some (cr_isHit r)).
Proof.
  exact (only_L1_is_ever_used usedEngine usedEngine_reachable).
Defined.

(** ** Phase ordering *)

Lemma steps_from_cursor n :
  forall hs e,
    cacheInv e -> phaseIndex e < 4 ->
    exists bs e',
      steps hs n e = Some (bs, e')
      /\ List.length bs = n
      /\ forall k, k < n ->
           nth k bs false
           = (4 * instructionIndex e + phaseIndex e + S k
              <? 4 * List.length (currentInstructions e)).
Proof.
  induction n as [|n IH]; intros hs e Hinv Hph.
  - exists [], e. repeat split. intros k Hk. lia.
  - simpl.
    destruct (Nat.lt_ge_cases (instructionIndex e)
                (List.length (currentInstructions e))) as [Hlt|Hge].
    + destruct (step_running (hs 0) e Hinv Hlt)
        as (b & e1 & -> & Hinv1 & Hc1 & Hcur & Hb).
      assert (Hpos : phaseIndex e1 < 4
                     /\ 4 * instructionIndex e1 + phaseIndex e1
                        = 4 * instructionIndex e + phaseIndex e + 1).
      { unfold nextCursor in Hcur.
        destruct (4 <=? S (phaseIndex e)) eqn:E; inversion Hcur.
        - apply Nat.leb_le in E. lia.
        - apply Nat.leb_gt in E. lia. }
      destruct Hpos as [Hph1 Hpos].
      destruct (IH (fun i => hs (S i)) e1 Hinv1 Hph1)
        as (bs & e2 & -> & Hlen & Hnth).
      exists (b :: bs), e2. split; [reflexivity|].
      split; [simpl; congruence|].
      intros [|k] Hk; simpl.
      * rewrite Hb.
        destruct (instructionIndex e1 <? _) eqn:E1; symmetry.
        -- apply Nat.ltb_lt in E1. apply Nat.ltb_lt. lia.
        -- apply Nat.ltb_ge in E1. apply Nat.ltb_ge. lia.
      * rewrite Hnth by lia. rewrite Hc1, Hpos. f_equal. lia.
    + rewrite (step_done (hs 0) e Hge).
      destruct (IH (fun i => hs (S i)) e Hinv Hph)
        as (bs & e2 & -> & Hlen & Hnth).
      exists (false :: bs), e2. split; [reflexivity|].
      split; [simpl; congruence|].
      intros [|k] Hk; simpl.
      * symmetry. apply Nat.ltb_ge. lia.
      * rewrite Hnth by lia.
        transitivity false; [|symmetry]; apply Nat.ltb_ge; lia.
Qed.

(** C2, as the specification states it, fails on the calculator program (N = 4):
    the 16th call of [step] already returns false. *)
Lemma sixteenth_call_returns_false :
  exists bs e,
    steps stillHost 16 calc53 = Some (bs, e)
    /\ List.length (currentInstructions calc53) = 4
    /\ firstn 15 bs = repeat true 15
    /\ nth 15 bs true = false.
Proof.
  eexists. eexists. split; [vm_compute; reflexivity|].
  repeat split.
Qed.

(** C2, amended.  For a program of N >= 1 instructions in a reachable
    engine at instruction 0 and phase 0, every call of [step] returns, the
    first 4N-1 calls return true, and the 4N-th call and every later call
    return false: call number k+1 returns whether k+1 < 4N. *)
Theorem step_returns_true_until_the_last_phase hs e n :
  reachable e ->
  instructionIndex e = 0 -> phaseIndex e = 0 ->
  1 <= List.length (currentInstructions e) ->
  exists bs e',
    steps hs n e = Some (bs, e')
    /\ List.length bs = n
    /\ forall k, k < n ->
         nth k bs false = (S k <? 4 * List.length (currentInstructions e)).
Proof.
  intros Hr Hi Hp _.
  assert (Hph : phaseIndex e < 4) by lia.
  destruct (steps_from_cursor n hs e (reachable_cacheInv e Hr) Hph)
    as (bs & e' & Hs & Hlen & Hnth).
  exists bs, e'. split; [exact Hs|]. split; [exact Hlen|].
  intros k Hk. rewrite (Hnth k Hk), Hi, Hp. reflexivity.
Qed.

Lemma step_returns_true_until_the_last_phase_witness :
  exists bs e',
    steps stillHost 17 calc53 = Some (bs, e')
    /\ List.length bs = 17
    /\ forall k, k < 17 ->
         nth k bs false = (S k <? 4 * List.length (currentInstructions calc53)).
Proof.
  apply (step_returns_true_until_the_last_phase stillHost calc53 17).
  - apply reach_setExample, reach_new.
  - reflexivity.
  - reflexivity.
  - simpl. lia.
Defined.

(** ** The line a miss overwrites *)

Lemma nth_error_indexedFrom {A} (l : list A) :
  forall s j,
    nth_error (indexedFrom s l) j
    = option_map (fun x => (s + j, x)) (nth_error l j).
Proof.
  induction l as [|x l IH]; intros s [|j]; simpl; try reflexivity.
  - rewrite Nat.add_0_r. reflexivity.
  - rewrite IH. rewrite Nat.add_succ_r. reflexivity.
Qed.

(** [reduce] with [older] returns the first element of least stamp. *)
Lemma fold_older_first_least rest :
  forall first,
    exists k,
      nth_error (first :: rest) k = Some (fold_left older rest first)
      /\ (forall j x, nth_error (first :: rest) j = Some x ->
            lastAccessed (snd (fold_left older rest first))
            <= lastAccessed (snd x))
      /\ (forall j x, j < k -> nth_error (first :: rest) j = Some x ->
            lastAccessed (snd (fold_left older rest first))
            < lastAccessed (snd x)).
Proof.
  induction rest as [|y rest IH] using rev_ind; intros first.
  - exists 0. simpl. split; [reflexivity|]. split.
    + intros [|j] x Hx; simpl in Hx.
      * inversion Hx. lia.
      * destruct j; discriminate.
    + intros j x Hj. lia.
  - destruct (IH first) as (k & Hk & Hmin & Hfirst).
    rewrite fold_left_app. simpl fold_left.
    set (r := fold_left older rest first) in *.
    assert (Hkl : k < List.length (first :: rest))
      by (apply nth_error_Some; congruence).
    assert (Hsplit : forall j x,
               nth_error (first :: rest ++ [y]) j = Some x ->
               (j < List.length (first :: rest)
                /\ nth_error (first :: rest) j = Some x)
               \/ (j = List.length (first :: rest) /\ x = y)).
    { intros j x Hx. change (first :: rest ++ [y]) with ((first :: rest) ++ [y]) in Hx.
      destruct (Nat.lt_ge_cases j (List.length (first :: rest))) as [Hlt|Hge].
      - left. split; [exact Hlt|]. rewrite nth_error_app1 in Hx by exact Hlt.
        exact Hx.
      - right. rewrite nth_error_app2 in Hx by exact Hge.
        destruct (j - List.length (first :: rest)) as [|d] eqn:Ed.
        + simpl in Hx. inversion Hx. split; [lia|reflexivity].
        + simpl in Hx. destruct d; discriminate. }
    unfold older at 1 2 3.
    destruct (lastAccessed (snd y) <? lastAccessed (snd r)) eqn:E.
    + apply Nat.ltb_lt in E.
      exists (List.length (first :: rest)). split.
      * change (first :: rest ++ [y]) with ((first :: rest) ++ [y]).
        rewrite nth_error_app2 by lia. rewrite Nat.sub_diag. reflexivity.
      * split.
        -- intros j x Hx. destruct (Hsplit j x Hx) as [[_ Hin]|[_ ->]].
           ++ specialize (Hmin j x Hin). lia.
           ++ lia.
        -- intros j x Hj Hx. destruct (Hsplit j x Hx) as [[_ Hin]|[Hj' _]].
           ++ specialize (Hmin j x Hin). lia.
           ++ lia.
    + apply Nat.ltb_ge in E.
      exists k. split.
      * change (first :: rest ++ [y]) with ((first :: rest) ++ [y]).
        rewrite nth_error_app1 by exact Hkl. exact Hk.
      * split.
        -- intros j x Hx. destruct (Hsplit j x Hx) as [[_ Hin]|[_ ->]].
           ++ exact (Hmin j x Hin).
           ++ exact E.
        -- intros j x Hj Hx. destruct (Hsplit j x Hx) as [[_ Hin]|[Hj' _]].
           ++ exact (Hfirst j x Hj Hin).
           ++ lia.
Qed.

Lemma writeVictim_first_least ls lru :
  writeVictim ls = Some lru ->
  exists l,
    nth_error ls lru = Some l
    /\ (forall j lj, nth_error ls j = Some lj ->
          lastAccessed l <= lastAccessed lj)
    /\ (forall j lj, j < lru -> nth_error ls j = Some lj ->
          lastAccessed l < lastAccessed lj).
Proof.
  unfold writeVictim, indexed. intros H.
  destruct (indexedFrom 0 ls) as [|first rest] eqn:Ei; [discriminate|].
  simpl in H. inversion H as [Hlru]. clear H.
  destruct (fold_older_first_least rest first) as (k & Hk & Hmin & Hfirst).
  rewrite <- Ei in Hk, Hmin, Hfirst.
  rewrite nth_error_indexedFrom in Hk.
  destruct (nth_error ls k) as [l|] eqn:El; [|discriminate].
  simpl in Hk. inversion Hk as [Hr]. rewrite <- Hr in *. simpl in *.
  subst lru. exists l. split; [exact El|]. split.
  - intros j lj Hj.
    apply (Hmin j (j, lj)). rewrite nth_error_indexedFrom, Hj. reflexivity.
  - intros j lj Hlt Hj.
    apply (Hfirst j (j, lj) Hlt). rewrite nth_error_indexedFrom, Hj. reflexivity.
Qed.

Lemma filter_keeps_all {A} (p : A -> bool) (l : list A) :
  (forall x, In x l -> p x = true) -> filter p l = l.
Proof.
  induction l as [|x l IH]; intros H; simpl; [reflexivity|].
  rewrite (H x (or_introl eq_refl)). f_equal. apply IH.
  intros y Hy. apply H. right. exact Hy.
Qed.

Lemma in_indexedFrom {A} (l : list A) :
  forall s i x, In (i, x) (indexedFrom s l) -> In x l.
Proof.
  induction l as [|y l IH]; intros s i x H; simpl in *; [contradiction|].
  destruct H as [H|H]; [inversion H; auto | right; eapply IH; exact H].
Qed.

Lemma readVictim_all_valid ls :
  Forall (fun l => valid l = true) ls -> readVictim ls = writeVictim ls.
Proof.
  intros Hall. unfold readVictim, writeVictim.
  rewrite filter_keeps_all.
  - unfold indexed. rewrite indexedFrom_length.
    destruct ls as [|x ls]; reflexivity.
  - intros [i x] Hin. simpl. rewrite Forall_forall in Hall.
    apply Hall. eapply in_indexedFrom. exact Hin.
Qed.

Lemma oneLineEngine_reachable : reachable oneLineEngine.
Proof.
  assert (H : exists bs e r,
             steps stillHost 3 calc53 = Some (bs, e)
             /\ checkCache 5 e = Some (r, oneLineEngine))
    by (eexists; eexists; eexists; split; vm_compute; reflexivity).
  destruct H as (bs & e & r & Hs & Hc).
  eapply reach_checkCache; [|exact Hc].
  eapply steps_reachable; [|exact Hs]. apply reach_setExample, reach_new.
Qed.

(** C5.  The write path does not select the line it overwrites as the
    read path does.  On the reachable engine whose L1 holds address 5 in
    line 0 (stamp 3) and has seven invalid lines (stamp 0), the rule of
    [checkCache], least stamp among the valid lines, selects line 0, and a
    read miss on address 9 overwrites it; [updateCache] takes the least
    stamp among all the lines, selects line 1, an invalid one, and a write
    miss on address 9 leaves line 0 in place. *)
Lemma read_miss_and_write_miss_differ :
  reachable oneLineEngine
  /\ lineAddresses oneLineEngine = (true, 5%Z) :: repeat (false, 0%Z) 7
  /\ map lastAccessed (l1Lines oneLineEngine) = 3 :: repeat 0 7
  /\ readVictim (l1Lines oneLineEngine) = Some 0
  /\ writeVictim (l1Lines oneLineEngine) = Some 1
  /\ afterAccess (checkCache 9 oneLineEngine)
     = (true, 9%Z) :: repeat (false, 0%Z) 7
  /\ afterAccess (updateCache 9 1%float oneLineEngine)
     = (true, 5%Z) :: (true, 9%Z) :: repeat (false, 0%Z) 6.
Proof.
  split; [exact oneLineEngine_reachable|].
  repeat split; vm_compute; reflexivity.
Qed.

(** ** STORE, then LOAD *)

Lemma truthyString_true s : s <> "" -> truthyString (Some s) = true.
Proof.
  intros H. simpl. apply negb_true_iff. apply String.eqb_neq. exact H.
Qed.






(** ** Replays *)

Lemma observe_inv e1 e2 :
  observe e1 = observe e2 ->
  cpuOf e1 = cpuOf e2
  /\ instructionIndex e1 = instructionIndex e2
  /\ phaseIndex e1 = phaseIndex e2
  /\ currentInstructions e1 = currentInstructions e2
  /\ history (state e1) = history (state e2)
  /\ map eraseHost (busTransfers (state e1))
     = map eraseHost (busTransfers (state e2)).
Proof.
  intros H. unfold cpuOf.
  repeat split.
  - change (cpu (state (observe e1)) = cpu (state (observe e2))).
    rewrite H. reflexivity.
  - change (instructionIndex (observe e1) = instructionIndex (observe e2)).
    rewrite H. reflexivity.
  - change (phaseIndex (observe e1) = phaseIndex (observe e2)).
    rewrite H. reflexivity.
  - change (currentInstructions (observe e1) = currentInstructions (observe e2)).
    rewrite H. reflexivity.
  - change (history (state (observe e1)) = history (state (observe e2))).
    rewrite H. reflexivity.
  - change (busTransfers (state (observe e1)) = busTransfers (state (observe e2))).
    rewrite H. reflexivity.
Qed.

Ltac explode H e1 e2 :=
  destruct e1 as [[? ? ? ? ? ? ?] ? ? ?];
  destruct e2 as [[? ? ? ? ? ? ?] ? ? ?];
  unfold observe, onState in H; simpl in H;
  inversion H; subst; clear H.

Ltac split_matches :=
  repeat match goal with
         | |- context [match ?x with _ => _ end] =>
             lazymatch x with
             | context [match _ with _ => _ end] => fail
             | _ => destruct x
             end
         end.

Ltac same_log :=
  unfold observe, onState; simpl; rewrite ?map_app; simpl;
  repeat match goal with
         | H : map eraseHost _ = map eraseHost _ |- _ => rewrite H
         end;
  reflexivity.

Ltac by_cases H e1 e2 :=
  explode H e1 e2; simpl;
  split_matches; try (split; [reflexivity|same_log]); auto.

Lemma onCpu_observe f e1 e2 :
  observe e1 = observe e2 -> observe (onCpu f e1) = observe (onCpu f e2).
Proof. intros H. explode H e1 e2. same_log. Qed.

Lemma checkCache_agree a e1 e2 :
  observe e1 = observe e2 -> agree (checkCache a e1) (checkCache a e2).
Proof.
  intros H. unfold agree, checkCache, cpuOf, onCpu, onState.
  by_cases H e1 e2.
Qed.

Lemma updateCache_agree a v e1 e2 :
  observe e1 = observe e2 -> agree (updateCache a v e1) (updateCache a v e2).
Proof.
  intros H. unfold agree, updateCache, cpuOf, onCpu, onState.
  by_cases H e1 e2.
Qed.

Lemma executeFetch_agree h1 h2 i s e1 e2 :
  observe e1 = observe e2 ->
  agree (Some (executeFetch h1 i s e1)) (Some (executeFetch h2 i s e2)).
Proof.
  intros H.
  unfold agree, executeFetch, addBusTransfer, touchRegister, cpuOf, onCpu, onState.
  by_cases H e1 e2.
Qed.

Lemma executeDecode_agree i s e1 e2 :
  observe e1 = observe e2 ->
  agree (Some (executeDecode i s e1)) (Some (executeDecode i s e2)).
Proof.
  intros H.
  unfold agree, executeDecode, activateRegister, cpuOf, onCpu, onState.
  by_cases H e1 e2.
Qed.

Lemma executeStore_agree i s e1 e2 :
  observe e1 = observe e2 ->
  agree (Some (executeStore i s e1)) (Some (executeStore i s e2)).
Proof.
  intros H.
  unfold agree, executeStore, cpuOf, onCpu, onState.
  by_cases H e1 e2.
Qed.

Lemma executeALU_agree h1 h2 i s e1 e2 :
  observe e1 = observe e2 ->
  agree (Some (executeALU h1 i s e1)) (Some (executeALU h2 i s e2)).
Proof.
  intros H. explode H e1 e2.
  unfold executeALU, cpuOf. cbn [state cpu].
  destruct (truthyOperand (operand1 i) && truthyOperand (operand2 i)
            && truthyString (destination i));
    split_finds;
    (unfold agree; split; [reflexivity|];
     unfold addBusTransfer, touchRegister, activateRegister; same_log).
Qed.

Lemma executeMOV_agree i s e1 e2 :
  observe e1 = observe e2 ->
  agree (Some (executeMOV i s e1)) (Some (executeMOV i s e2)).
Proof.
  intros H.
  unfold agree, executeMOV, touchRegister, cpuOf, onCpu, onState.
  by_cases H e1 e2.
Qed.

Lemma executeLOAD_agree h1 h2 i s e1 e2 :
  observe e1 = observe e2 ->
  agree (executeLOAD h1 i s e1) (executeLOAD h2 i s e2).
Proof.
  intros H. destruct (observe_inv _ _ H) as (Hcpu & _).
  unfold executeLOAD. rewrite Hcpu.
  destruct (operand1 i) as [[x|n]|]; try (simpl; auto; fail).
  destruct (destination i) as [d|]; try (simpl; auto; fail).
  destruct (truthyString (Some d)); try (simpl; auto; fail).
  destruct (find (named d) (registers (cpuOf e2))) as [reg|];
    try (simpl; auto; fail).
  destruct (address i) as [a|].
  - pose proof (checkCache_agree a e1 e2 H) as Hcc.
    destruct (checkCache a e1) as [[r1 e1']|], (checkCache a e2) as [[r2 e2']|];
      simpl in Hcc; try contradiction; [|exact I].
    destruct Hcc as [<- H'].
    destruct (observe_inv _ _ H') as (Hcpu' & _). rewrite Hcpu'.
    unfold agree, addBusTransfer, touchRegister, cpuOf, onCpu, onState.
    destruct (cr_isHit r1);
      (split; [reflexivity|]; explode H' e1' e2'; same_log).
  - unfold agree, addBusTransfer, touchRegister, cpuOf, onCpu, onState.
    split; [reflexivity|]. explode H e1 e2. same_log.
Qed.

Lemma executeSTORE_agree h1 h2 i s e1 e2 :
  observe e1 = observe e2 ->
  agree (executeSTORE h1 i s e1) (executeSTORE h2 i s e2).
Proof.
  intros H. destruct (observe_inv _ _ H) as (Hcpu & _).
  unfold executeSTORE. rewrite Hcpu.
  destruct (destination i) as [d|]; try (simpl; auto; fail).
  destruct (truthyString (Some d)); try (simpl; auto; fail).
  destruct (find (named d) (registers (cpuOf e2))) as [reg|];
    try (simpl; auto; fail).
  destruct (address i) as [a|]; try (simpl; auto; fail).
  destruct (find (at_address a) (memory (cpuOf e2))) as [m|];
    try (simpl; auto; fail).
  match goal with
  | |- agree (match updateCache a ?v (onCpu ?f e1) with _ => _ end) _ =>
      pose proof (updateCache_agree a v _ _ (onCpu_observe f e1 e2 H)) as Hcc;
      destruct (updateCache a v (onCpu f e1)) as [[r1 e1']|],
               (updateCache a v (onCpu f e2)) as [[r2 e2']|];
      simpl in Hcc; try contradiction; [|exact I]
  end.
  destruct Hcc as [<- H'].
  unfold agree, addBusTransfer, cpuOf, onCpu, onState.
  destruct (cr_isHit r1);
    (split; [reflexivity|]; explode H' e1' e2'; same_log).
Qed.

Lemma executeExecute_agree h1 h2 i s e1 e2 :
  observe e1 = observe e2 ->
  agree (executeExecute h1 i s e1) (executeExecute h2 i s e2).
Proof.
  intros H. unfold executeExecute.
  destruct (opcode i);
    first [ apply executeLOAD_agree; exact H
          | apply executeSTORE_agree; exact H
          | apply executeALU_agree; exact H
          | apply executeMOV_agree; exact H
          | simpl; auto ].
Qed.

Lemma runPhase_agree h1 h2 ph i s e1 e2 :
  observe e1 = observe e2 ->
  agree (runPhase h1 ph i s e1) (runPhase h2 ph i s e2).
Proof.
  intros H. destruct ph; simpl runPhase.
  - apply executeFetch_agree; exact H.
  - apply executeDecode_agree; exact H.
  - apply executeExecute_agree; exact H.
  - apply executeStore_agree; exact H.
  - simpl. auto.
Qed.

Lemma step_agree h1 h2 e1 e2 :
  observe e1 = observe e2 -> agree (step h1 e1) (step h2 e2).
Proof.
  intros H.
  destruct (observe_inv _ _ H) as (Hcpu & Hi & Hp & Hc & _).
  unfold step. rewrite Hi, Hp, Hc.
  destruct (List.length (currentInstructions e2) =? 0); [simpl; auto|].
  destruct (List.length (currentInstructions e2) <=? instructionIndex e2);
    [simpl; auto|].
  destruct (nth_error (currentInstructions e2) (instructionIndex e2)) as [i|];
    [|simpl; auto].
  unfold cpuOf at 1 2. simpl clockCycle.
  unfold cpuOf in Hcpu. rewrite Hcpu.
  match goal with
  | |- agree (match runPhase _ ?ph _ ?s ?x1 with _ => _ end)
             (match runPhase _ _ _ _ ?x2 with _ => _ end) =>
      assert (Hx : observe x1 = observe x2)
        by (apply onCpu_observe, onCpu_observe; exact H);
      pose proof (runPhase_agree h1 h2 ph i s x1 x2 Hx) as Hrun;
      destruct (runPhase h1 ph i s x1) as [[s1 e1']|],
               (runPhase h2 ph i s x2) as [[s2 e2']|];
      simpl in Hrun; try contradiction; [|exact I]
  end.
  destruct Hrun as [<- H'].
  destruct (observe_inv _ _ H') as (_ & Hi' & Hp' & Hc' & _).
  simpl. rewrite Hp'.
  destruct (match phaseIndex e2' with
            | S (S (S _)) => true
            | _ => false
            end);
    simpl; rewrite ?Hi', ?Hc';
    (split; [reflexivity|]; explode H' e1' e2'; same_log).
Qed.

Lemma steps_agree n :
  forall hs1 hs2 e1 e2,
    observe e1 = observe e2 -> agree (steps hs1 n e1) (steps hs2 n e2).
Proof.
  induction n as [|n IH]; intros hs1 hs2 e1 e2 H; simpl.
  - split; [reflexivity|exact H].
  - pose proof (step_agree (hs1 0) (hs2 0) e1 e2 H) as Hs.
    destruct (step (hs1 0) e1) as [[b1 e1']|],
             (step (hs2 0) e2) as [[b2 e2']|];
      simpl in Hs; try contradiction; [|exact I].
    destruct Hs as [<- H'].
    pose proof (IH (fun i => hs1 (S i)) (fun i => hs2 (S i)) e1' e2' H') as Hn.
    destruct (steps (fun i => hs1 (S i)) n e1') as [[bs1 e1'']|],
             (steps (fun i => hs2 (S i)) n e2') as [[bs2 e2'']|];
      simpl in Hn; try contradiction; [|exact I].
    destruct Hn as [<- H'']. split; [reflexivity|exact H''].
Qed.

Lemma reachable_phaseIndex e : reachable e -> phaseIndex e < 4.
Proof.
  induction 1 as [ | e _ _ | a e _ IH | p e _ IH | h e b e' Hr IH Hs
                   | a e r e' Hr IH Hc | a v e r e' Hr IH Hu
                   | e _ IH | id e _ IH ];
    try (simpl; lia); try exact IH.
  - destruct a as [[d|]|[d|]]; simpl; lia.
  - destruct (Nat.lt_ge_cases (instructionIndex e)
                (List.length (currentInstructions e))) as [Hlt|Hge].
    + destruct (step_running h e (reachable_cacheInv e Hr) Hlt)
        as (b0 & e0 & Hs0 & _ & _ & Hcur & _).
      rewrite Hs in Hs0. inversion Hs0; subst.
      unfold nextCursor in Hcur.
      destruct (4 <=? S (phaseIndex e)) eqn:E; inversion Hcur.
      * lia.
      * apply Nat.leb_gt in E. lia.
    + rewrite (step_done h e Hge) in Hs. inversion Hs; subst. exact IH.
  - destruct (checkCache_inv a e (reachable_cacheInv e Hr))
      as (r0 & cs & Hc0 & _).
    rewrite Hc in Hc0. inversion Hc0; subst. exact IH.
  - destruct (updateCache_inv a v e (reachable_cacheInv e Hr))
      as (r0 & cs & Hu0 & _).
    rewrite Hu in Hu0. inversion Hu0; subst. exact IH.
Qed.

(** C7, as the specification states it, fails on the bus-transfer log: replaying the
    calculator program from the same engine under a host whose clock and
    random source return other values gives the same returns and another
    log. *)
Lemma bus_log_depends_on_the_host :
  exists bs e1 e2,
    steps stillHost 16 calc53 = Some (bs, e1)
    /\ steps laterHost 16 calc53 = Some (bs, e2)
    /\ busTransfers (state e1) <> busTransfers (state e2)
    /\ state e1 <> state e2.
Proof.
  eexists. eexists. eexists.
  split; [vm_compute; reflexivity|].
  split; [vm_compute; reflexivity|].
  assert (Hlog : forall l1 l2 : list BusTransfer,
             map bus_timestamp l1 <> map bus_timestamp l2 -> l1 <> l2)
    by (intros l1 l2 Hn E; apply Hn; rewrite E; reflexivity).
  split.
  - apply Hlog. vm_compute. discriminate.
  - intros E. apply (f_equal busTransfers) in E. revert E.
    apply Hlog. vm_compute. discriminate.
Qed.

(** C7, amended.  From one reachable engine, two replays of [n] calls of
    [step] under any two hosts both return, return the same values, and
    end with the same history, the same CPU state (registers, memory,
    cache, counters) and the same cursor; their bus-transfer logs hold the
    same transfers in the same order except for the id and the timestamp
    of each record, which come from the host's clock and random source. *)
Theorem replays_agree_up_to_host_draws hs1 hs2 n e :
  reachable e ->
  exists bs e1 e2,
    steps hs1 n e = Some (bs, e1)
    /\ steps hs2 n e = Some (bs, e2)
    /\ history (state e1) = history (state e2)
    /\ cpuOf e1 = cpuOf e2
    /\ instructionIndex e1 = instructionIndex e2
    /\ phaseIndex e1 = phaseIndex e2
    /\ currentInstructions e1 = currentInstructions e2
    /\ map eraseHost (busTransfers (state e1))
       = map eraseHost (busTransfers (state e2))
    /\ observe e1 = observe e2.
Proof.
  intros Hr.
  destruct (steps_from_cursor n hs1 e (reachable_cacheInv e Hr)
              (reachable_phaseIndex e Hr)) as (bs1 & e1 & H1 & _).
  destruct (steps_from_cursor n hs2 e (reachable_cacheInv e Hr)
              (reachable_phaseIndex e Hr)) as (bs2 & e2 & H2 & _).
  pose proof (steps_agree n hs1 hs2 e e eq_refl) as Ha.
  rewrite H1, H2 in Ha. simpl in Ha. destruct Ha as [<- Hobs].
  exists bs1, e1, e2.
  destruct (observe_inv _ _ Hobs) as (A & B & C & D & E & F).
  repeat split; assumption.
Qed.

Lemma replays_agree_up_to_host_draws_witness :
  exists bs e1 e2,
    steps stillHost 16 calc53 = Some (bs, e1)
    /\ steps laterHost 16 calc53 = Some (bs, e2)
    /\ history (state e1) = history (state e2)
    /\ cpuOf e1 = cpuOf e2
    /\ instructionIndex e1 = instructionIndex e2
    /\ phaseIndex e1 = phaseIndex e2
    /\ currentInstructions e1 = currentInstructions e2
    /\ map eraseHost (busTransfers (state e1))
       = map eraseHost (busTransfers (state e2))
    /\ observe e1 = observe e2.
Proof.
  apply (replays_agree_up_to_host_draws stillHost laterHost 16 calc53).
  apply reach_setExample, reach_new.
Defined.

(** * Further properties of the engine *)

(** ** step, in its parts *)

Lemma step_eq h e i :
  nth_error (currentInstructions e) (instructionIndex e) = Some i ->
  step h e
  = match runPhase h (nth (phaseIndex e) phases InstructionPhase.IDLE) i
            (freshStep i e) (tick e) with
    | None => None
    | Some (s, e1) =>
        Some (instructionIndex (finish s e1)
              <? List.length (currentInstructions (finish s e1)),
              finish s e1)
    end.
Proof.
  intros Hn. destruct (nth_error_in_range _ _ _ Hn) as [H0 Hle].
  unfold step. rewrite H0, Hle, Hn. reflexivity.
Qed.

(** ** What the phases leave alone *)

(** The case analysis of [runPhase] on an engine of the invariant shape;
    [leaf] closes each case, in which the result is a known term. *)
Ltac phase_walk Hinv leaf :=
  match goal with
  | |- exists _ _, runPhase _ ?ph ?i _ ?e = _ /\ _ =>
      destruct ph; simpl runPhase;
      [ unfold executeFetch; split_finds; leaf
      | leaf
      | unfold executeExecute; destruct (opcode i);
        [ unfold executeLOAD;
          destruct (operand1 i) as [[?x|?n]|]; try (leaf; fail);
          destruct (destination i) as [?d|]; try (leaf; fail);
          destruct (truthyString (Some d)); try (leaf; fail);
          destruct (find (named d) (registers (cpuOf e))) as [?reg|];
            try (leaf; fail);
          destruct (address i) as [?a|]; try (leaf; fail);
          let r := fresh "r" in
          let cs := fresh "cs" in
          let Hinv' := fresh "Hinv'" in
          destruct (checkCache_inv a e Hinv) as (r & cs & -> & _ & Hinv');
          destruct (cr_isHit r); leaf
        | unfold executeSTORE;
          destruct (destination i) as [?d|]; try (leaf; fail);
          destruct (truthyString (Some d)); try (leaf; fail);
          destruct (find (named d) (registers (cpuOf e))) as [?reg|];
            try (leaf; fail);
          destruct (address i) as [?a|]; try (leaf; fail);
          destruct (find (at_address a) (memory (cpuOf e))) as [?m|];
            try (leaf; fail);
          match goal with
          | |- context [updateCache a ?v ?em] =>
              let Hem := fresh "Hem" in
              let r := fresh "r" in
              let cs := fresh "cs" in
              let Hinv' := fresh "Hinv'" in
              assert (Hem : cacheInv em)
                by (eapply cacheInv_ext; [|exact Hinv]; reflexivity);
              destruct (updateCache_inv a v em Hem) as (r & cs & -> & _ & Hinv');
              destruct (cr_isHit r); leaf
          end
        | unfold executeALU;
          destruct (truthyOperand (operand1 i) && truthyOperand (operand2 i)
                    && truthyString (destination i));
          split_finds; leaf
        | unfold executeALU;
          destruct (truthyOperand (operand1 i) && truthyOperand (operand2 i)
                    && truthyString (destination i));
          split_finds; leaf
        | unfold executeALU;
          destruct (truthyOperand (operand1 i) && truthyOperand (operand2 i)
                    && truthyString (destination i));
          split_finds; leaf
        | unfold executeALU;
          destruct (truthyOperand (operand1 i) && truthyOperand (operand2 i)
                    && truthyString (destination i));
          split_finds; leaf
        | leaf | leaf | leaf | leaf
        | unfold executeMOV;
          destruct (operand1 i) as [[?x|?n]|]; try (leaf; fail);
          destruct (destination i) as [?d|]; try (leaf; fail);
          destruct (truthyString (Some d)); try (leaf; fail);
          split_finds; leaf ]
      | leaf
      | leaf ]
  end.

Lemma map_reg_name_deactivate (l : list Register) :
  map reg_name
    (map (fun reg =>
            if negb (String.eqb (reg_name reg) "PC")
               && negb (String.eqb (reg_name reg) "IR")
            then set_reg_active false reg else reg) l)
  = map reg_name l.
Proof.
  rewrite map_map. apply map_ext. intros r.
  destruct (negb (String.eqb (reg_name r) "PC")
            && negb (String.eqb (reg_name r) "IR")); reflexivity.
Qed.

Ltac same_banks :=
  unfold touchRegister, activateRegister, addBusTransfer,
    registerNames, memoryAddresses, cpuOf, onCpu, onState; simpl;
  rewrite ?map_reg_name_deactivate;
  repeat (rewrite updateFirst_map by (intros; reflexivity));
  rewrite ?map_map; reflexivity.

Ltac grown :=
  unfold touchRegister, activateRegister, addBusTransfer,
    cpuOf, onCpu, onState; simpl;
  rewrite <- ?app_assoc;
  first [ exists []; split; [symmetry; apply app_nil_r|];
          split; [simpl; lia | constructor]
        | eexists; split; [reflexivity|];
          split; [simpl; lia | repeat constructor] ].

Ltac framed_leaf :=
  eexists; eexists; split; [reflexivity|];
  unfold framed;
  split; [repeat split|];
  split; [reflexivity|];
  split; [reflexivity|];
  split; [reflexivity|];
  split; [same_banks|];
  split; [same_banks|];
  grown.

Lemma runPhase_framed h ph i s e :
  cacheInv e ->
  exists s' e', runPhase h ph i s e = Some (s', e') /\ framed e e'.
Proof.
  intros Hinv. phase_walk Hinv framed_leaf.
Qed.

Ltac record_leaf :=
  eexists; eexists; split; [reflexivity|]; repeat split.

Lemma runPhase_record h ph i s e :
  cacheInv e ->
  exists s' e',
    runPhase h ph i s e = Some (s', e')
    /\ cycle s' = cycle s /\ phase s' = phase s
    /\ instruction s' = instruction s.
Proof.
  intros Hinv. phase_walk Hinv record_leaf.
Qed.

Lemma tick_framed e :
  sameCursor e (tick e)
  /\ history (state (tick e)) = history (state e)
  /\ clockCycle (cpuOf (tick e)) = S (clockCycle (cpuOf e))
  /\ registers (cpuOf (tick e)) = registers (cpuOf e)
  /\ memory (cpuOf (tick e)) = memory (cpuOf e)
  /\ cache (cpuOf (tick e)) = cache (cpuOf e)
  /\ busTransfers (state (tick e)) = busTransfers (state e).
Proof. repeat split. Qed.

(** One call of [step] on an engine of the invariant shape: either the
    program is over and nothing happens, or one phase runs between [tick]
    and [finish]. *)
Lemma step_cases h e :
  cacheInv e ->
  (List.length (currentInstructions e) <= instructionIndex e
   /\ step h e = Some (false, e))
  \/ exists i s e1,
       nth_error (currentInstructions e) (instructionIndex e) = Some i
       /\ runPhase h (nth (phaseIndex e) phases InstructionPhase.IDLE) i
            (freshStep i e) (tick e) = Some (s, e1)
       /\ framed (tick e) e1
       /\ cacheInv e1
       /\ cycle s = S (clockCycle (cpuOf e))
       /\ phase s = nth (phaseIndex e) phases InstructionPhase.IDLE
       /\ instruction s = Some i
       /\ step h e
          = Some (instructionIndex (finish s e1)
                  <? List.length (currentInstructions e),
                  finish s e1).
Proof.
  intros Hinv.
  destruct (nth_error (currentInstructions e) (instructionIndex e)) as [i|] eqn:Hn.
  - right.
    assert (Hinv0 : cacheInv (tick e))
      by (eapply cacheInv_ext; [|exact Hinv]; reflexivity).
    destruct (runPhase_framed h (nth (phaseIndex e) phases InstructionPhase.IDLE)
                i (freshStep i e) (tick e) Hinv0) as (s & e1 & Hrun & Hfr).
    destruct (runPhase_record h (nth (phaseIndex e) phases InstructionPhase.IDLE)
                i (freshStep i e) (tick e) Hinv0)
      as (s0 & e0 & Hrun0 & Hc & Hp & Hi).
    rewrite Hrun in Hrun0. inversion Hrun0; subst s0 e0.
    destruct (runPhase_inv h (nth (phaseIndex e) phases InstructionPhase.IDLE)
                i (freshStep i e) (tick e) Hinv0)
      as (s0 & e0 & Hrun1 & Hinv1 & _).
    rewrite Hrun in Hrun1. inversion Hrun1; subst s0 e0.
    exists i, s, e1.
    split; [reflexivity|]. split; [exact Hrun|]. split; [exact Hfr|].
    split; [exact Hinv1|]. split; [exact Hc|]. split; [exact Hp|].
    split; [exact Hi|].
    rewrite (step_eq h e i Hn), Hrun.
    destruct Hfr as ((_ & _ & Hcur) & _).
    assert (Hci : currentInstructions (finish s e1) = currentInstructions e).
    { unfold finish. simpl.
      destruct (match phaseIndex e1 with S (S (S _)) => true | _ => false end);
        simpl; exact Hcur. }
    rewrite Hci. reflexivity.
  - left. apply nth_error_None in Hn. split; [exact Hn|].
    apply step_done. exact Hn.
Qed.

Lemma finish_cursor s e :
  (instructionIndex (finish s e), phaseIndex (finish s e))
  = nextCursor (instructionIndex e) (phaseIndex e).
Proof.
  unfold finish, nextCursor. simpl.
  destruct (phaseIndex e) as [|[|[|p]]]; reflexivity.
Qed.

Lemma finish_state s e :
  cpuOf (finish s e) = cpuOf e
  /\ busTransfers (state (finish s e)) = busTransfers (state e)
  /\ history (state (finish s e)) = history (state e) ++ [s]
  /\ currentInstructions (finish s e) = currentInstructions e.
Proof.
  unfold finish. simpl.
  destruct (match phaseIndex e with S (S (S _)) => true | _ => false end);
    repeat split.
Qed.

(** ** The banks and the history of a reachable engine *)

Lemma reachable_banks e : reachable e -> banks e.
Proof.
  induction 1 as [ | e _ _ | a e _ IH | p e _ IH | h e b e' Hr IH Hs
                   | a e r e' Hr IH Hc | a v e r e' Hr IH Hu
                   | e _ IH | id e _ IH ].
  - split; reflexivity.
  - split; reflexivity.
  - destruct IH as [Hn Ha]. split.
    + rewrite <- Hn. destruct a as [[d|]|[d|]]; reflexivity.
    + rewrite <- Ha. unfold memoryAddresses.
      destruct a as [[d|]|[d|]]; simpl; rewrite map_map; reflexivity.
  - destruct IH as [Hn Ha]. split.
    + rewrite <- Hn. reflexivity.
    + rewrite <- Ha. unfold memoryAddresses. simpl. rewrite map_map. reflexivity.
  - destruct (step_cases h e (reachable_cacheInv e Hr))
      as [[_ Hd] | (i & s & e1 & _ & _ & Hfr & _ & _ & _ & _ & Hst)].
    + rewrite Hs in Hd. inversion Hd; subst. exact IH.
    + rewrite Hs in Hst. inversion Hst; subst e'.
      destruct Hfr as (_ & _ & _ & _ & Hn & Ha & _).
      destruct (finish_state s e1) as (Hcpu & _).
      destruct IH as [IHn IHa].
      unfold banks, registerNames, memoryAddresses in *.
      rewrite Hcpu. split; [rewrite Hn; exact IHn | rewrite Ha; exact IHa].
  - destruct (checkCache_inv a e (reachable_cacheInv e Hr))
      as (r0 & cs & Hc0 & _).
    rewrite Hc in Hc0. inversion Hc0; subst. exact IH.
  - destruct (updateCache_inv a v e (reachable_cacheInv e Hr))
      as (r0 & cs & Hu0 & _).
    rewrite Hu in Hu0. inversion Hu0; subst. exact IH.
  - exact IH.
  - exact IH.
Qed.

Lemma nth_error_snoc {A} (l : list A) x k y :
  nth_error (l ++ [x]) k = Some y ->
  (k < List.length l /\ nth_error l k = Some y)
  \/ (k = List.length l /\ y = x).
Proof.
  intros H. destruct (Nat.lt_ge_cases k (List.length l)) as [Hlt|Hge].
  - left. rewrite nth_error_app1 in H by exact Hlt. auto.
  - right. rewrite nth_error_app2 in H by exact Hge.
    destruct (k - List.length l) as [|d] eqn:E.
    + simpl in H. inversion H. split; [lia|reflexivity].
    + simpl in H. destruct d; discriminate.
Qed.

Lemma chronicle_loaded e :
  instructionIndex e = 0 -> phaseIndex e = 0 ->
  clockCycle (cpuOf e) = 0 -> history (state e) = [] ->
  chronicle e.
Proof.
  intros Hi Hp Hc Hh. unfold chronicle. rewrite Hh, Hc, Hi, Hp.
  repeat split; try reflexivity; destruct k; discriminate.
Qed.

Lemma reachable_chronicle e : reachable e -> chronicle e.
Proof.
  induction 1 as [ | e _ _ | a e _ IH | p e _ IH | h e b e' Hr IH Hs
                   | a e r e' Hr IH Hc | a v e r e' Hr IH Hu
                   | e _ IH | id e _ IH ].
  - apply chronicle_loaded; reflexivity.
  - apply chronicle_loaded; reflexivity.
  - apply chronicle_loaded; destruct a as [[d|]|[d|]]; reflexivity.
  - apply chronicle_loaded; reflexivity.
  - pose proof (reachable_phaseIndex e Hr) as Hph.
    destruct (step_cases h e (reachable_cacheInv e Hr))
      as [[_ Hd] | (i & s & e1 & Hn & _ & Hfr & _ & Hcy & Hp & Hi & Hst)].
    + rewrite Hs in Hd. inversion Hd; subst. exact IH.
    + rewrite Hs in Hst. inversion Hst; subst e'. clear Hst Hs.
      destruct Hfr as ((Hci & Hcp & Hcc) & Hh & Hck & _).
      destruct (finish_state s e1) as (Hcpu & _ & Hfh & Hfc).
      pose proof (finish_cursor s e1) as Hcur.
      simpl in Hci, Hcp, Hcc, Hh, Hck.
      rewrite Hci, Hcp in Hcur.
      destruct IH as (Hlen & Hclk & Hrec).
      assert (Hpos : 4 * instructionIndex (finish s e1) + phaseIndex (finish s e1)
                     = S (4 * instructionIndex e + phaseIndex e)).
      { unfold nextCursor in Hcur.
        destruct (4 <=? S (phaseIndex e)) eqn:E; inversion Hcur.
        - apply Nat.leb_le in E. lia.
        - lia. }
      unfold chronicle. rewrite Hcpu, Hfh, Hfc, Hh, Hck, Hcc.
      unfold cpuOf in *.
      split; [rewrite length_app; simpl; lia|].
      split; [lia|].
      intros k r Hk. destruct (nth_error_snoc _ _ _ _ Hk) as [[_ Hold]|[Hkl ->]].
      * exact (Hrec k r Hold).
      * assert (Hkv : k = phaseIndex e + instructionIndex e * 4) by lia.
        rewrite Hcy, Hp, Hi.
        split; [lia|]. split.
        -- rewrite Hkv, Nat.Div0.mod_add, Nat.mod_small by exact Hph.
           reflexivity.
        -- rewrite Hkv, Nat.div_add, Nat.div_small by lia.
           simpl. symmetry. exact Hn.
  - destruct (checkCache_inv a e (reachable_cacheInv e Hr))
      as (r0 & cs & Hc0 & _).
    rewrite Hc in Hc0. inversion Hc0; subst. exact IH.
  - destruct (updateCache_inv a v e (reachable_cacheInv e Hr))
      as (r0 & cs & Hu0 & _).
    rewrite Hu in Hu0. inversion Hu0; subst. exact IH.
  - exact IH.
  - exact IH.
Qed.

Lemma find_named_iff n (l : list Register) :
  find (named n) l <> None <-> In n (map reg_name l).
Proof.
  induction l as [|r l IH]; simpl.
  - split; [congruence|contradiction].
  - unfold named at 1. destruct (String.eqb (reg_name r) n) eqn:E.
    + apply String.eqb_eq in E. split; [auto|discriminate].
    + apply String.eqb_neq in E. rewrite IH. split; [auto|].
      intros [H|H]; [contradiction|exact H].
Qed.

Lemma find_at_address_iff a (l : list MemoryLocation) :
  find (at_address a) l <> None <-> In a (map mem_address l).
Proof.
  induction l as [|m l IH]; simpl.
  - split; [congruence|contradiction].
  - unfold at_address at 1. destruct (Z.eqb (mem_address m) a) eqn:E.
    + apply Z.eqb_eq in E. split; [auto|discriminate].
    + apply Z.eqb_neq in E. rewrite IH. split; [auto|].
      intros [H|H]; [contradiction|exact H].
Qed.

Lemma in_first_256 (a : Z) :
  In a (map Z.of_nat (seq 0 256)) <-> (0 <= a < 256)%Z.
Proof.
  rewrite in_map_iff. split.
  - intros (k & <- & Hk). apply in_seq in Hk. lia.
  - intros Ha. exists (Z.to_nat a). split; [lia|]. apply in_seq. lia.
Qed.

(** X1.  The history is the record of the cycle.  In every reachable
    engine the history has as many records as the clock counts cycles;
    that number is 4 * instructionIndex + phaseIndex, the phases run since
    the program was loaded; and the [k]-th record carries cycle [k+1], the
    phase [k mod 4] of FETCH, DECODE, EXECUTE, STORE, and the instruction
    [k / 4] of the pending list. *)
Theorem history_records_every_phase e :
  reachable e ->
  List.length (history (state e)) = clockCycle (cpuOf e)
  /\ clockCycle (cpuOf e) = 4 * instructionIndex e + phaseIndex e
  /\ phaseIndex e < 4
  /\ forall k r,
       nth_error (history (state e)) k = Some r ->
       cycle r = S k
       /\ phase r = nth (k mod 4) phases InstructionPhase.IDLE
       /\ instruction r = nth_error (currentInstructions e) (k / 4).
Proof.
  intros Hr. destruct (reachable_chronicle e Hr) as (H1 & H2 & H3).
  split; [exact H1|]. split; [exact H2|].
  split; [exact (reachable_phaseIndex e Hr)|exact H3].
Qed.

Lemma history_records_every_phase_witness :
  List.length (history (state usedEngine)) = clockCycle (cpuOf usedEngine)
  /\ clockCycle (cpuOf usedEngine)
     = 4 * instructionIndex usedEngine + phaseIndex usedEngine
  /\ phaseIndex usedEngine < 4
  /\ forall k r,
       nth_error (history (state usedEngine)) k = Some r ->
       cycle r = S k
       /\ phase r = nth (k mod 4) phases InstructionPhase.IDLE
       /\ instruction r = nth_error (currentInstructions usedEngine) (k / 4).
Proof.
  exact (history_records_every_phase usedEngine usedEngine_reachable).
Defined.

(** X2.  The banks never change shape.  In every reachable engine the
    registers are R1, R2, R3, PC, IR, in that order, and the memory cells
    have the addresses 0..255, in that order: a register is found exactly
    under those five names and a memory cell exactly at the addresses
    0 <= a < 256. *)
Theorem banks_keep_their_shape e :
  reachable e ->
  registerNames e = ["R1"; "R2"; "R3"; "PC"; "IR"]
  /\ memoryAddresses e = map Z.of_nat (seq 0 256)
  /\ (forall n, registerValue n e <> None
                <-> In n ["R1"; "R2"; "R3"; "PC"; "IR"])
  /\ (forall a, memoryValue a e <> None <-> (0 <= a < 256)%Z).
Proof.
  intros Hr. destruct (reachable_banks e Hr) as [Hn Ha].
  split; [exact Hn|]. split; [exact Ha|]. split.
  - intros n. rewrite <- Hn. unfold registerValue, registerNames.
    rewrite <- find_named_iff.
    destruct (find (named n) (registers (cpuOf e))); simpl;
      split; congruence.
  - intros a. rewrite <- in_first_256, <- Ha.
    unfold memoryValue, memoryAddresses.
    rewrite <- find_at_address_iff.
    destruct (find (at_address a) (memory (cpuOf e))); simpl;
      split; congruence.
Qed.

Lemma banks_keep_their_shape_witness :
  registerNames usedEngine = ["R1"; "R2"; "R3"; "PC"; "IR"]
  /\ memoryAddresses usedEngine = map Z.of_nat (seq 0 256)
  /\ (forall n, registerValue n usedEngine <> None
                <-> In n ["R1"; "R2"; "R3"; "PC"; "IR"])
  /\ (forall a, memoryValue a usedEngine <> None <-> (0 <= a < 256)%Z).
Proof.
  exact (banks_keep_their_shape usedEngine usedEngine_reachable).
Defined.

(** ** The cases of executeExecute *)

(** X3.  Fail soft.  An instruction whose destination is undefined, is the
    empty string, or names no register of the bank does nothing in
    EXECUTE, whatever its opcode and operands: the engine and the history
    step come back as they were given, and the cache is not consulted. *)
Theorem missing_destination_is_skipped h i s e :
  match destination i with
  | None => True
  | Some d => d = "" \/ registerValue d e = None
  end ->
  executeExecute h i s e = Some (s, e).
Proof.
  intros Hd.
  assert (Hfind : forall d, destination i = Some d ->
                            truthyString (Some d) = false
                            \/ find (named d) (registers (cpuOf e)) = None).
  { intros d E. rewrite E in Hd. destruct Hd as [-> | Hd]; [left; reflexivity|].
    right. unfold registerValue in Hd.
    destruct (find (named d) (registers (cpuOf e))); [discriminate|reflexivity]. }
  unfold executeExecute. destruct (opcode i); try reflexivity.
  - unfold executeLOAD.
    destruct (operand1 i) as [[x|n]|]; try reflexivity.
    destruct (destination i) as [d|]; [|reflexivity].
    destruct (Hfind d eq_refl) as [-> | H]; [reflexivity|].
    destruct (truthyString (Some d)); [|reflexivity]. rewrite H. reflexivity.
  - unfold executeSTORE.
    destruct (destination i) as [d|]; [|reflexivity].
    destruct (Hfind d eq_refl) as [-> | H]; [reflexivity|].
    destruct (truthyString (Some d)); [|reflexivity]. rewrite H. reflexivity.
  - f_equal. unfold executeALU.
    destruct (destination i) as [d|].
    + destruct (Hfind d eq_refl) as [H | H].
      * rewrite H, andb_false_r. reflexivity.
      * destruct (_ && _); [|reflexivity]. rewrite H. split_finds; reflexivity.
    + simpl. rewrite andb_false_r. reflexivity.
  - f_equal. unfold executeALU.
    destruct (destination i) as [d|].
    + destruct (Hfind d eq_refl) as [H | H].
      * rewrite H, andb_false_r. reflexivity.
      * destruct (_ && _); [|reflexivity]. rewrite H. split_finds; reflexivity.
    + simpl. rewrite andb_false_r. reflexivity.
  - f_equal. unfold executeALU.
    destruct (destination i) as [d|].
    + destruct (Hfind d eq_refl) as [H | H].
      * rewrite H, andb_false_r. reflexivity.
      * destruct (_ && _); [|reflexivity]. rewrite H. split_finds; reflexivity.
    + simpl. rewrite andb_false_r. reflexivity.
  - f_equal. unfold executeALU.
    destruct (destination i) as [d|].
    + destruct (Hfind d eq_refl) as [H | H].
      * rewrite H, andb_false_r. reflexivity.
      * destruct (_ && _); [|reflexivity]. rewrite H. split_finds; reflexivity.
    + simpl. rewrite andb_false_r. reflexivity.
  - f_equal. unfold executeMOV.
    destruct (operand1 i) as [[x|n]|]; try reflexivity.
    destruct (destination i) as [d|]; [|reflexivity].
    destruct (Hfind d eq_refl) as [-> | H]; [reflexivity|].
    destruct (truthyString (Some d)); [|reflexivity]. rewrite H. reflexivity.
Qed.

Lemma missing_destination_is_skipped_witness :
  executeExecute noDraws (alu Opcode.ADD (Num 5%float) (Num 3%float) "R9")
    blankStep newEngine
  = Some (blankStep, newEngine).
Proof.
  apply (missing_destination_is_skipped noDraws
           (alu Opcode.ADD (Num 5%float) (Num 3%float) "R9")
           blankStep newEngine).
  right. reflexivity.
Defined.

Lemma find_updateFirst_other {A} (p q : A -> bool) f (l : list A) :
  (forall x, q (f x) = q x) ->
  (forall x, p x = true -> q x = false) ->
  find q (updateFirst p f l) = find q l.
Proof.
  intros Hq Hpq. induction l as [|x l IH]; simpl; [reflexivity|].
  destruct (p x) eqn:Ep; simpl.
  - rewrite Hq, (Hpq x Ep). reflexivity.
  - destruct (q x); [reflexivity|exact IH].
Qed.

Lemma find_named_same_values n (p : Register -> bool) f (l : list Register) :
  (forall r, reg_name (f r) = reg_name r /\ reg_value (f r) = reg_value r) ->
  option_map reg_value (find (named n) (updateFirst p f l))
  = option_map reg_value (find (named n) l).
Proof.
  intros Hf. induction l as [|x l IH]; simpl; [reflexivity|].
  destruct (p x); simpl.
  - unfold named at 1 3. destruct (Hf x) as [-> Hv].
    destruct (String.eqb (reg_name x) n); simpl; [rewrite Hv|]; reflexivity.
  - destruct (named n x); [reflexivity|exact IH].
Qed.

Lemma find_named_map_same_values n f (l : list Register) :
  (forall r, reg_name (f r) = reg_name r /\ reg_value (f r) = reg_value r) ->
  option_map reg_value (find (named n) (map f l))
  = option_map reg_value (find (named n) l).
Proof.
  intros Hf. induction l as [|x l IH]; simpl; [reflexivity|].
  unfold named at 1 3. destruct (Hf x) as [-> Hv].
  destruct (String.eqb (reg_name x) n); simpl; [rewrite Hv; reflexivity|exact IH].
Qed.

Lemma registerValue_touch_same d v e :
  registerValue d e <> None ->
  registerValue d (touchRegister d v e) = Some v.
Proof.
  unfold registerValue, touchRegister, cpuOf. simpl. intros H.
  rewrite find_updateFirst_same by reflexivity.
  destruct (find (named d) (registers (cpu (state e)))); [reflexivity|].
  contradiction.
Qed.

Lemma registerValue_touch_other n d v e :
  n <> d ->
  registerValue n (touchRegister d v e) = registerValue n e.
Proof.
  unfold registerValue, touchRegister, cpuOf. simpl. intros H.
  rewrite find_updateFirst_other; [reflexivity|reflexivity|].
  intros x Hx. unfold named in *. apply String.eqb_eq in Hx.
  apply String.eqb_neq. congruence.
Qed.

Lemma registerValue_activate n m e :
  registerValue n (activateRegister m e) = registerValue n e.
Proof.
  unfold registerValue, activateRegister, cpuOf. simpl.
  apply find_named_same_values. intros r. split; reflexivity.
Qed.

Lemma registerValue_found n e v :
  registerValue n e = Some v ->
  exists r, find (named n) (registers (cpuOf e)) = Some r /\ reg_value r = v.
Proof.
  unfold registerValue. destruct (find (named n) (registers (cpuOf e))) as [r|];
    simpl; intros H; inversion H. eauto.
Qed.

Lemma executeALU_effect h i s e d v1 v2 old :
  isALU (opcode i) = true ->
  truthyOperand (operand1 i) = true ->
  truthyOperand (operand2 i) = true ->
  destination i = Some d -> d <> "" ->
  registerValue (registerOf (operand1 i) "R1") e = Some v1 ->
  registerValue (registerOf (operand2 i) "R2") e = Some v2 ->
  registerValue d e = Some old ->
  let val1 := match operand1 i with Some (Num x) => x | _ => v1 end in
  let val2 := match operand2 i with Some (Num x) => x | _ => v2 end in
  let result := compute (opcode i) val1 val2 in
  exists e',
    executeExecute h i s e
    = Some (push_registerChange
              {| rc_name := d; rc_oldValue := old; rc_newValue := result |} s,
            e')
    /\ registerValue d e' = Some result
    /\ (forall n, n <> d -> registerValue n e' = registerValue n e)
    /\ memory (cpuOf e') = memory (cpuOf e)
    /\ cache (cpuOf e') = cache (cpuOf e)
    /\ List.length (busTransfers (state e'))
       = List.length (busTransfers (state e)) + 4
    /\ compute Opcode.DIV val1 0%float = 0%float.
Proof.
  intros Hop H1 H2 Hd Hne Hr1 Hr2 Hrd val1 val2 result.
  destruct (registerValue_found _ _ _ Hr1) as (r1 & Hf1 & Hv1).
  destruct (registerValue_found _ _ _ Hr2) as (r2 & Hf2 & Hv2).
  destruct (registerValue_found _ _ _ Hrd) as (rd & Hfd & Hvd).
  assert (Hexec : executeExecute h i s e = Some (executeALU h i s e))
    by (unfold executeExecute; destruct (opcode i); try discriminate Hop;
        reflexivity).
  rewrite Hexec. unfold executeALU.
  rewrite H1, H2, Hd, (truthyString_true _ Hne). simpl andb. cbv iota.
  rewrite Hf1, Hf2, Hfd.
  assert (Ev1 : valueOf (operand1 i) r1 = val1)
    by (unfold valueOf, val1; destruct (operand1 i) as [[x|n]|]; congruence).
  assert (Ev2 : valueOf (operand2 i) r2 = val2)
    by (unfold valueOf, val2; destruct (operand2 i) as [[x|n]|]; congruence).
  rewrite Ev1, Ev2, Hvd. fold result.
  eexists. split; [reflexivity|].
  split.
  - change (registerValue d
              (activateRegister (registerOf (operand2 i) "R2")
                 (activateRegister (registerOf (operand1 i) "R1")
                    (touchRegister d result e))) = Some result).
    rewrite !registerValue_activate.
    apply registerValue_touch_same. congruence.
  - split.
    + intros n Hn.
      change (registerValue n
                (activateRegister (registerOf (operand2 i) "R2")
                   (activateRegister (registerOf (operand1 i) "R1")
                      (touchRegister d result e))) = registerValue n e).
      rewrite !registerValue_activate.
      apply registerValue_touch_other. exact Hn.
    + repeat split.
      simpl. rewrite !length_app. simpl. lia.
Qed.

(** X4.  The ALU case.  For ADD, SUB, MUL and DIV with two truthy
    operands and a destination that names a register, where each operand
    is a literal or names a register and the registers R1 and R2 that
    stand in for literal operands exist: EXECUTE puts val1 OP val2 in the
    destination (for DIV, 0 when val2 is 0), leaves every other register's
    value, the memory and the cache alone, records the one delta
    (destination, old, new) and appends four transfers to the bus log. *)
Theorem ALU_sets_destination h i s e d v1 v2 old :
  isALU (opcode i) = true ->
  truthyOperand (operand1 i) = true ->
  truthyOperand (operand2 i) = true ->
  destination i = Some d -> d <> "" ->
  registerValue (registerOf (operand1 i) "R1") e = Some v1 ->
  registerValue (registerOf (operand2 i) "R2") e = Some v2 ->
  registerValue d e = Some old ->
  let val1 := match operand1 i with Some (Num x) => x | _ => v1 end in
  let val2 := match operand2 i with Some (Num x) => x | _ => v2 end in
  let result := compute (opcode i) val1 val2 in
  exists e',
    executeExecute h i s e
    = Some (push_registerChange
              {| rc_name := d; rc_oldValue := old; rc_newValue := result |} s,
            e')
    /\ registerValue d e' = Some result
    /\ (forall n, n <> d -> registerValue n e' = registerValue n e)
    /\ memory (cpuOf e') = memory (cpuOf e)
    /\ cache (cpuOf e') = cache (cpuOf e)
    /\ List.length (busTransfers (state e'))
       = List.length (busTransfers (state e)) + 4
    /\ compute Opcode.DIV val1 0%float = 0%float.
Proof.
  exact (executeALU_effect h i s e d v1 v2 old).
Qed.

Lemma ALU_sets_destination_witness :
  exists e',
    executeExecute noDraws (alu Opcode.DIV (Name "R1") (Num 4%float) "R3")
      blankStep (touchRegister "R1" 10%float newEngine)
    = Some (push_registerChange
              {| rc_name := "R3"; rc_oldValue := 0%float;
                 rc_newValue := compute Opcode.DIV 10%float 4%float |}
              blankStep, e')
    /\ registerValue "R3" e' = Some (compute Opcode.DIV 10%float 4%float)
    /\ (forall n, n <> "R3" ->
          registerValue n e'
          = registerValue n (touchRegister "R1" 10%float newEngine))
    /\ memory (cpuOf e') = memory (cpuOf (touchRegister "R1" 10%float newEngine))
    /\ cache (cpuOf e') = cache (cpuOf (touchRegister "R1" 10%float newEngine))
    /\ List.length (busTransfers (state e'))
       = List.length
           (busTransfers (state (touchRegister "R1" 10%float newEngine))) + 4
    /\ compute Opcode.DIV 10%float 0%float = 0%float.
Proof.
  apply (ALU_sets_destination noDraws
           (alu Opcode.DIV (Name "R1") (Num 4%float) "R3") blankStep
           (touchRegister "R1" 10%float newEngine) "R3"
           10%float 0%float 0%float);
    try reflexivity. discriminate.
Defined.

Lemma executeLiteral_effect h i s e d v old :
  (opcode i = Opcode.LOAD /\ address i = None) \/ opcode i = Opcode.MOV ->
  operand1 i = Some (Num v) ->
  destination i = Some d -> d <> "" ->
  registerValue d e = Some old ->
  exists e',
    executeExecute h i s e
    = Some (push_registerChange
              {| rc_name := d; rc_oldValue := old; rc_newValue := v |} s,
            e')
    /\ registerValue d e' = Some v
    /\ (forall n, n <> d -> registerValue n e' = registerValue n e)
    /\ memory (cpuOf e') = memory (cpuOf e)
    /\ cache (cpuOf e') = cache (cpuOf e)
    /\ List.length (busTransfers (state e'))
       = List.length (busTransfers (state e))
         + match opcode i with Opcode.LOAD => 1 | _ => 0 end.
Proof.
  intros Hop Ho Hd Hne Hrd.
  destruct (registerValue_found _ _ _ Hrd) as (rd & Hfd & Hvd).
  assert (Hex : registerValue d e <> None) by congruence.
  unfold executeExecute.
  destruct Hop as [[Hop Ha] | Hop]; rewrite Hop.
  - unfold executeLOAD.
    rewrite Ho, Hd, (truthyString_true _ Hne), Hfd, Ha, Hvd.
    eexists. split; [reflexivity|].
    split; [exact (registerValue_touch_same d v e Hex)|].
    split; [intros n Hn; exact (registerValue_touch_other n d v e Hn)|].
    repeat split. simpl. rewrite length_app. reflexivity.
  - unfold executeMOV.
    rewrite Ho, Hd, (truthyString_true _ Hne), Hfd, Hvd.
    eexists. split; [reflexivity|].
    split; [exact (registerValue_touch_same d v e Hex)|].
    split; [intros n Hn; exact (registerValue_touch_other n d v e Hn)|].
    repeat split. simpl. lia.
Qed.

(** X5.  Literals.  A LOAD without address and a MOV, with a numeric
    operand1 (0 included) and a destination that names a register, put
    the literal in the destination, leave every other register's value,
    the memory and the cache alone and record the one delta; the LOAD
    appends one transfer to the bus log and the MOV none. *)
Theorem literal_reaches_destination h i s e d v old :
  (opcode i = Opcode.LOAD /\ address i = None) \/ opcode i = Opcode.MOV ->
  operand1 i = Some (Num v) ->
  destination i = Some d -> d <> "" ->
  registerValue d e = Some old ->
  exists e',
    executeExecute h i s e
    = Some (push_registerChange
              {| rc_name := d; rc_oldValue := old; rc_newValue := v |} s,
            e')
    /\ registerValue d e' = Some v
    /\ (forall n, n <> d -> registerValue n e' = registerValue n e)
    /\ memory (cpuOf e') = memory (cpuOf e)
    /\ cache (cpuOf e') = cache (cpuOf e)
    /\ List.length (busTransfers (state e'))
       = List.length (busTransfers (state e))
         + match opcode i with Opcode.LOAD => 1 | _ => 0 end.
Proof.
  exact (executeLiteral_effect h i s e d v old).
Qed.

Lemma literal_reaches_destination_witness :
  exists e',
    executeExecute noDraws
      {| instr_id := "load1"; opcode := Opcode.LOAD;
         operand1 := Some (Num 0%float); operand2 := None;
         destination := Some "R1"; address := None; description := [] |}
      blankStep (touchRegister "R1" 8%float newEngine)
    = Some (push_registerChange
              {| rc_name := "R1"; rc_oldValue := 8%float;
                 rc_newValue := 0%float |} blankStep,
            e')
    /\ registerValue "R1" e' = Some 0%float
    /\ (forall n, n <> "R1" ->
          registerValue n e'
          = registerValue n (touchRegister "R1" 8%float newEngine))
    /\ memory (cpuOf e') = memory (cpuOf (touchRegister "R1" 8%float newEngine))
    /\ cache (cpuOf e') = cache (cpuOf (touchRegister "R1" 8%float newEngine))
    /\ List.length (busTransfers (state e'))
       = List.length
           (busTransfers (state (touchRegister "R1" 8%float newEngine))) + 1.
Proof.
  apply (literal_reaches_destination noDraws
           {| instr_id := "load1"; opcode := Opcode.LOAD;
              operand1 := Some (Num 0%float); operand2 := None;
              destination := Some "R1"; address := None; description := [] |}
           blankStep (touchRegister "R1" 8%float newEngine) "R1"
           0%float 8%float);
    try reflexivity.
  - left. split; reflexivity.
  - discriminate.
Defined.

Lemma find_at_address_same_values a (p : MemoryLocation -> bool) f
  (l : list MemoryLocation) :
  (forall m, mem_address (f m) = mem_address m /\ mem_value (f m) = mem_value m) ->
  option_map mem_value (find (at_address a) (updateFirst p f l))
  = option_map mem_value (find (at_address a) l).
Proof.
  intros Hf. induction l as [|x l IH]; simpl; [reflexivity|].
  destruct (p x); simpl.
  - unfold at_address at 1 3. destruct (Hf x) as [-> Hv].
    destruct (Z.eqb (mem_address x) a); simpl; [rewrite Hv|]; reflexivity.
  - destruct (at_address a x); [reflexivity|exact IH].
Qed.

Lemma find_at_address_map_same_values a f (l : list MemoryLocation) :
  (forall m, mem_address (f m) = mem_address m /\ mem_value (f m) = mem_value m) ->
  option_map mem_value (find (at_address a) (map f l))
  = option_map mem_value (find (at_address a) l).
Proof.
  intros Hf. induction l as [|x l IH]; simpl; [reflexivity|].
  unfold at_address at 1 3. destruct (Hf x) as [-> Hv].
  destruct (Z.eqb (mem_address x) a); simpl; [rewrite Hv; reflexivity|exact IH].
Qed.

Lemma updateFirst_hits {A} (p : A -> bool) f (l : list A) :
  existsb p l = true ->
  exists x, p x = true /\ In (f x) (updateFirst p f l).
Proof.
  induction l as [|y l IH]; simpl; [discriminate|].
  destruct (p y) eqn:E; simpl.
  - intros _. exists y. auto.
  - intros H. destruct (IH H) as (x & Hx & Hin). exists x. auto.
Qed.

Lemma updateAt_puts {A} i (x : A) (l : list A) :
  i < List.length l -> In x (updateAt i (fun _ => x) l).
Proof.
  intros Hi. apply (nth_error_In _ i). rewrite nth_error_updateAt.
  rewrite Nat.eqb_refl.
  destruct (nth_error l i) eqn:E; [reflexivity|].
  apply nth_error_None in E. lia.
Qed.

Lemma writeVictim_in_range ls lru :
  writeVictim ls = Some lru -> lru < List.length ls.
Proof.
  intros H. destruct (writeVictim_first_least _ _ H) as (l & Hn & _).
  apply nth_error_Some. congruence.
Qed.

(** ** The cache after an access *)

Lemma l1Lines_on_shape e l1 :
  cache (cpuOf e) = l1 :: outerLevels ->
  level l1 = CacheLevel.L1 ->
  l1Lines e = lines l1.
Proof.
  intros Hc Hl. unfold l1Lines. rewrite Hc. simpl.
  unfold of_level. rewrite Hl. reflexivity.
Qed.

Lemma in_indexedFrom_nth {A} (l : list A) :
  forall s i x,
    In (i, x) (indexedFrom s l) -> s <= i /\ nth_error l (i - s) = Some x.
Proof.
  induction l as [|y l IH]; intros s i x H; simpl in H; [contradiction|].
  destruct H as [H|H].
  - inversion H; subst. rewrite Nat.sub_diag. auto.
  - destruct (IH _ _ _ H) as [Hle Hn]. split; [lia|].
    replace (i - s) with (S (i - S s)) by lia. exact Hn.
Qed.

Lemma reduceOldest_in l r : reduceOldest l = Some r -> In r l.
Proof.
  intros H. destruct l as [|first rest]; [discriminate|].
  unfold reduceOldest in H. inversion H.
  destruct (fold_older_first_least rest first) as (k & Hk & _).
  exact (nth_error_In _ k Hk).
Qed.

(** The line a read miss overwrites is a line of L1, and a valid one
    whenever L1 has a valid line. *)
Lemma readVictim_spec ls lru :
  readVictim ls = Some lru ->
  exists l,
    nth_error ls lru = Some l
    /\ (existsb valid ls = true -> valid l = true).
Proof.
  unfold readVictim. intros H.
  destruct (filter (fun il => valid (snd il)) (indexed ls)) as [|x vl] eqn:E.
  - simpl in H. destruct ls as [|l0 ls']; inversion H. subst lru.
    exists l0. split; [reflexivity|].
    intros Hex. apply existsb_exists in Hex. destruct Hex as (l & Hin & Hv).
    destruct (In_nth_error _ _ Hin) as [k Hk].
    assert (Hin' : In (k, l) (filter (fun il => valid (snd il))
                                (indexed (l0 :: ls')))).
    { apply filter_In. split; [|exact Hv].
      unfold indexed. apply (nth_error_In _ k).
      rewrite nth_error_indexedFrom, Hk. reflexivity. }
    rewrite E in Hin'. contradiction.
  - simpl in H.
    assert (Hin : In (fold_left older vl x) (x :: vl))
      by (apply reduceOldest_in; reflexivity).
    rewrite <- E in Hin. apply filter_In in Hin. destruct Hin as [Hin Hv].
    inversion H as [Hlru].
    destruct (fold_left older vl x) as [k l]. simpl in *. subst k.
    destruct (in_indexedFrom_nth _ _ _ _ Hin) as [_ Hn].
    rewrite Nat.sub_0_r in Hn. exists l. auto.
Qed.

Lemma updateCache_caches a v e r e' :
  cacheInv e ->
  updateCache a v e = Some (r, e') ->
  exists l,
    In l (l1Lines e')
    /\ valid l = true /\ line_address l = a /\ line_value l = v
    /\ dirty l = true.
Proof.
  intros (l1 & Hc & Hl & Hlen & Hamo) Hu.
  rewrite (updateCache_on_shape a v e l1 Hc Hl) in Hu.
  destruct (existsb (holds a) (lines l1)) eqn:Hhit.
  - inversion Hu; subst r e'. clear Hu.
    rewrite (l1Lines_on_shape _ (afterWriteHit a v (clockCycle (cpuOf e)) l1))
      by (try reflexivity; exact Hl).
    destruct (updateFirst_hits (holds a)
                (fun l => {| line_address := line_address l; line_value := v;
                             valid := valid l; dirty := true;
                             lastAccessed := clockCycle (cpuOf e) |})
                (lines l1) Hhit) as (x & Hx & Hin).
    unfold holds in Hx. apply andb_true_iff in Hx. destruct Hx as [Hv Ha].
    apply Z.eqb_eq in Ha.
    eexists. split; [exact Hin|]. simpl. auto.
  - destruct (writeVictim (lines l1)) as [lru|] eqn:Hw; [|discriminate].
    inversion Hu; subst r e'. clear Hu.
    rewrite (l1Lines_on_shape _ (afterMiss a lru (writtenLine a v e) l1))
      by (try reflexivity; exact Hl).
    exists (writtenLine a v e). split.
    + simpl. apply updateAt_puts. exact (writeVictim_in_range _ _ Hw).
    + simpl. auto.
Qed.

Lemma existsb_updateFirst_same {A} (p : A -> bool) f (l : list A) :
  (forall x, p (f x) = p x) ->
  existsb p (updateFirst p f l) = existsb p l.
Proof.
  intros Hp. induction l as [|x l IH]; simpl; [reflexivity|].
  destruct (p x) eqn:E; simpl.
  - rewrite Hp, E. reflexivity.
  - rewrite E, IH. reflexivity.
Qed.

Lemma checkCache_caches a e r e' :
  cacheInv e ->
  checkCache a e = Some (r, e') ->
  existsb (holds a) (l1Lines e') = true
  /\ (cr_isHit r = true -> existsb (holds a) (l1Lines e) = true)
  /\ (cr_isHit r = false -> cached a (line_value (fetchedLine a e)) e').
Proof.
  intros (l1 & Hc & Hl & Hlen & Hamo) Hu.
  rewrite (l1Lines_on_shape e l1 Hc Hl).
  rewrite (checkCache_on_shape a e l1 Hc Hl) in Hu.
  destruct (existsb (holds a) (lines l1)) eqn:Hhit.
  - inversion Hu; subst r e'. clear Hu.
    rewrite (l1Lines_on_shape _ (afterReadHit a (clockCycle (cpuOf e)) l1))
      by (try reflexivity; exact Hl).
    simpl. rewrite existsb_updateFirst_same by reflexivity.
    split; [exact Hhit|]. split; [reflexivity|discriminate].
  - destruct (readVictim (lines l1)) as [lru|] eqn:Hw; [|discriminate].
    inversion Hu; subst r e'. clear Hu.
    destruct (readVictim_spec _ _ Hw) as (l & Hn & _).
    assert (Hlt : lru < List.length (lines l1))
      by (apply nth_error_Some; congruence).
    assert (Hin : In (fetchedLine a e)
                    (updateAt lru (fun _ => fetchedLine a e) (lines l1)))
      by (apply updateAt_puts; exact Hlt).
    rewrite (l1Lines_on_shape _ (afterMiss a lru (fetchedLine a e) l1))
      by (try reflexivity; exact Hl).
    simpl. split.
    + apply existsb_exists. exists (fetchedLine a e). split; [exact Hin|].
      unfold holds. simpl. apply Z.eqb_refl.
    + split; [discriminate|]. intros _.
      exists (fetchedLine a e).
      rewrite (l1Lines_on_shape _ (afterMiss a lru (fetchedLine a e) l1))
        by (try reflexivity; exact Hl).
      simpl. auto.
Qed.

Lemma find_at_address_is a (l : list MemoryLocation) m :
  find (at_address a) l = Some m -> mem_address m = a.
Proof.
  intros H. apply find_some in H. destruct H as [_ H].
  unfold at_address in H. apply Z.eqb_eq in H. exact H.
Qed.

Lemma executeSTORE_effect h i s e src X v :
  opcode i = Opcode.STORE ->
  destination i = Some src -> src <> "" -> address i = Some X ->
  cacheInv e ->
  registerValue src e = Some v ->
  match memoryValue X e with
  | None => executeExecute h i s e = Some (s, e)
  | Some old =>
      exists e',
        executeExecute h i s e
        = Some (push_memoryChange
                  {| mc_address := X; mc_oldValue := old; mc_newValue := v |} s,
                e')
        /\ memoryValue X e' = Some v
        /\ memoryUsed X e' = Some true
        /\ (forall a, a <> X -> memoryCell a e' = memoryCell a e)
        /\ registers (cpuOf e') = registers (cpuOf e)
        /\ cached X v e'
        /\ cacheInv e'
  end.
Proof.
  intros Hop Hd Hne Ha Hinv Hreg.
  destruct (registerValue_found _ _ _ Hreg) as (reg & Hf & Hv).
  unfold executeExecute. rewrite Hop. unfold executeSTORE.
  rewrite Hd, (truthyString_true _ Hne), Hf, Ha.
  unfold memoryValue.
  destruct (find (at_address X) (memory (cpuOf e))) as [m|] eqn:Hm;
    [|reflexivity].
  simpl option_map. cbv iota.
  rewrite (find_at_address_is _ _ _ Hm), Hv.
  match goal with
  | |- context [updateCache X v ?em] =>
      assert (Hem : cacheInv em)
        by (eapply cacheInv_ext; [|exact Hinv]; reflexivity);
      destruct (updateCache_inv X v em Hem) as (r & cs & Hu & _ & Hinv');
      pose proof (updateCache_caches X v em _ _ Hem Hu)
        as (l & Hin & Hlv & Hla & Hlval & _);
      rewrite Hu
  end.
  assert (Hcell :
            find (at_address X)
              (updateFirst (at_address X)
                 (fun m0 =>
                    set_mem_used true
                      (set_mem_active true (set_mem_value v m0)))
                 (memory (cpuOf e)))
            = Some (set_mem_used true (set_mem_active true (set_mem_value v m)))).
  { rewrite find_updateFirst_same by reflexivity. rewrite Hm. reflexivity. }
  assert (Hother : forall a, a <> X ->
            find (at_address a)
              (updateFirst (at_address X)
                 (fun m0 =>
                    set_mem_used true
                      (set_mem_active true (set_mem_value v m0)))
                 (memory (cpuOf e)))
            = find (at_address a) (memory (cpuOf e))).
  { intros a Hax. apply find_updateFirst_other; [reflexivity|].
    intros x Hx. unfold at_address in *. apply Z.eqb_eq in Hx.
    apply Z.eqb_neq. congruence. }
  destruct (cr_isHit r);
    (eexists; split; [reflexivity|];
     split; [unfold memoryValue, cpuOf; simpl; unfold cpuOf in Hcell;
             rewrite Hcell; reflexivity|];
     split; [unfold memoryUsed, cpuOf; simpl; unfold cpuOf in Hcell;
             rewrite Hcell; reflexivity|];
     split; [exact Hother|];
     split; [reflexivity|];
     split; [exists l; auto
            |eapply cacheInv_ext; [|exact Hinv']; reflexivity]).
Qed.

(** X6.  STORE.  A STORE whose destination names a register holding [v],
    on an engine of the cache shape every reachable engine has: when its
    address has no memory cell, nothing happens at all; when it has one,
    the cell takes [v] and is marked used, every other cell and every
    register is as before, the delta (address, old, new) is recorded, and
    afterwards L1 holds a valid line for the address with the value [v]
    (write-through). *)
Theorem STORE_writes_memory_and_cache h i s e src X v :
  opcode i = Opcode.STORE ->
  destination i = Some src -> src <> "" -> address i = Some X ->
  cacheInv e ->
  registerValue src e = Some v ->
  match memoryValue X e with
  | None => executeExecute h i s e = Some (s, e)
  | Some old =>
      exists e',
        executeExecute h i s e
        = Some (push_memoryChange
                  {| mc_address := X; mc_oldValue := old; mc_newValue := v |} s,
                e')
        /\ memoryValue X e' = Some v
        /\ memoryUsed X e' = Some true
        /\ (forall a, a <> X -> memoryCell a e' = memoryCell a e)
        /\ registers (cpuOf e') = registers (cpuOf e)
        /\ cached X v e'
        /\ cacheInv e'
  end.
Proof.
  exact (executeSTORE_effect h i s e src X v).
Qed.

Lemma STORE_writes_memory_and_cache_witness :
  exists e',
    executeExecute noDraws (storeTo 5 "R1") blankStep
      (touchRegister "R1" 8%float newEngine)
    = Some (push_memoryChange
              {| mc_address := 5; mc_oldValue := 0%float;
                 mc_newValue := 8%float |} blankStep,
            e')
    /\ memoryValue 5 e' = Some 8%float
    /\ memoryUsed 5 e' = Some true
    /\ (forall a, a <> 5%Z ->
          memoryCell a e'
          = memoryCell a (touchRegister "R1" 8%float newEngine))
    /\ registers (cpuOf e')
       = registers (cpuOf (touchRegister "R1" 8%float newEngine))
    /\ cached 5 8%float e'
    /\ cacheInv e'.
Proof.
  apply (STORE_writes_memory_and_cache noDraws (storeTo 5 "R1") blankStep
           (touchRegister "R1" 8%float newEngine) "R1" 5%Z 8%float);
    try reflexivity.
  - discriminate.
  - eapply cacheInv_ext; [|exact cacheInv_new]. reflexivity.
Defined.

(** X7.  LOAD with an address.  A LOAD with a numeric operand1, an
    address and a destination that names a register, on an engine of the
    cache shape every reachable engine has: the destination takes the
    value of the memory cell when that value is truthy, and the literal
    operand1 when the cell holds 0 (or NaN) or the address has no cell;
    other registers and all memory values are as before, the cell is
    marked used, and afterwards L1 holds a valid line for the address,
    hit or miss, in range or not. *)
Theorem LOAD_with_address_reads_cell_or_literal h i s e d X k old :
  opcode i = Opcode.LOAD ->
  operand1 i = Some (Num k) ->
  destination i = Some d -> d <> "" -> address i = Some X ->
  cacheInv e ->
  registerValue d e = Some old ->
  let got :=
    match memoryValue X e with
    | Some m => if truthy m then m else k
    | None => k
    end in
  exists e',
    executeExecute h i s e
    = Some (push_registerChange
              {| rc_name := d; rc_oldValue := old; rc_newValue := got |} s,
            e')
    /\ registerValue d e' = Some got
    /\ (forall n, n <> d -> registerValue n e' = registerValue n e)
    /\ (forall a, memoryValue a e' = memoryValue a e)
    /\ (memoryValue X e <> None -> memoryUsed X e' = Some true)
    /\ existsb (holds X) (l1Lines e') = true
    /\ cacheInv e'.
Proof.
  intros Hop Ho Hd Hne Ha Hinv Hreg got.
  destruct (registerValue_found _ _ _ Hreg) as (reg & Hf & Hv).
  assert (Hex : forall x, registerValue d x = registerValue d e ->
                          registerValue d x <> None) by congruence.
  unfold executeExecute. rewrite Hop. unfold executeLOAD.
  rewrite Ho, Hd, (truthyString_true _ Hne), Hf, Ha.
  destruct (checkCache_inv X e Hinv) as (r & cs & Hc & _ & Hinv').
  destruct (checkCache_caches X e _ _ Hinv Hc) as (Hheld & _).
  rewrite Hc.
  change (memory (cpuOf (onCpu (set_cache cs) e))) with (memory (cpuOf e)).
  assert (Egot :
            match find (at_address X) (memory (cpuOf e)) with
            | Some m => orElse (mem_value m) k
            | None => k
            end = got).
  { unfold got, memoryValue, orElse.
    destruct (find (at_address X) (memory (cpuOf e))); reflexivity. }
  rewrite Egot, Hv.
  assert (Hvals : forall a,
            option_map mem_value
              (find (at_address a)
                 (updateFirst (at_address X) (set_mem_used true)
                    (memory (cpuOf e))))
            = option_map mem_value (find (at_address a) (memory (cpuOf e))))
    by (intros a; apply find_at_address_same_values; intros m; split; reflexivity).
  assert (Hused : memoryValue X e <> None ->
            option_map mem_used
              (find (at_address X)
                 (updateFirst (at_address X) (set_mem_used true)
                    (memory (cpuOf e))))
            = Some true).
  { unfold memoryValue. intros Hm.
    rewrite find_updateFirst_same by reflexivity.
    destruct (find (at_address X) (memory (cpuOf e))); [reflexivity|].
    contradiction. }
  destruct (cr_isHit r);
    (eexists; split; [reflexivity|];
     split; [transitivity (registerValue d (touchRegister d got e));
             [reflexivity
             |apply registerValue_touch_same; apply Hex; reflexivity]|];
     split; [intros n Hn;
             transitivity (registerValue n (touchRegister d got e));
             [reflexivity | apply registerValue_touch_other; exact Hn]|];
     split; [exact Hvals|];
     split; [exact Hused|];
     split; [exact Hheld
            |eapply cacheInv_ext; [|exact Hinv']; reflexivity]).
Qed.

Lemma LOAD_with_address_reads_cell_or_literal_witness :
  exists e',
    executeExecute noDraws (loadFrom 5 7%float "R1") blankStep newEngine
    = Some (push_registerChange
              {| rc_name := "R1"; rc_oldValue := 0%float;
                 rc_newValue := 7%float |} blankStep,
            e')
    /\ registerValue "R1" e' = Some 7%float
    /\ (forall n, n <> "R1" -> registerValue n e' = registerValue n newEngine)
    /\ (forall a, memoryValue a e' = memoryValue a newEngine)
    /\ (memoryValue 5 newEngine <> None -> memoryUsed 5 e' = Some true)
    /\ existsb (holds 5) (l1Lines e') = true
    /\ cacheInv e'.
Proof.
  apply (LOAD_with_address_reads_cell_or_literal noDraws
           (loadFrom 5 7%float "R1") blankStep newEngine "R1" 5%Z
           7%float 0%float);
    try reflexivity.
  - discriminate.
  - exact cacheInv_new.
Defined.

(** ** One instruction, four calls of step *)

Lemma executeFetch_values h i s e :
  (forall n, n <> "PC" ->
     registerValue n (snd (executeFetch h i s e)) = registerValue n e)
  /\ memory (cpuOf (snd (executeFetch h i s e))) = memory (cpuOf e)
  /\ cache (cpuOf (snd (executeFetch h i s e))) = cache (cpuOf e).
Proof.
  unfold executeFetch.
  destruct (find (named "PC")
              (registers
                 (cpuOf
                    (onCpu (fun c => set_programCounter (programCounter c + 1)%float c)
                       (onCpu (set_instructionRegister (Some i)) e))))).
  - split; [|split; reflexivity].
    intros n Hn.
    transitivity
      (registerValue n
         (touchRegister "PC" (programCounter (cpuOf e) + 1)%float e));
      [reflexivity | apply registerValue_touch_other; exact Hn].
  - repeat split.
Qed.

Lemma executeDecode_values i s e :
  (forall n, registerValue n (snd (executeDecode i s e)) = registerValue n e)
  /\ memory (cpuOf (snd (executeDecode i s e))) = memory (cpuOf e)
  /\ cache (cpuOf (snd (executeDecode i s e))) = cache (cpuOf e).
Proof.
  split; [|split; reflexivity].
  intros n. apply registerValue_activate.
Qed.

Lemma executeStore_values i s e :
  (forall n, registerValue n (snd (executeStore i s e)) = registerValue n e)
  /\ (forall a, memoryValue a (snd (executeStore i s e)) = memoryValue a e)
  /\ cache (cpuOf (snd (executeStore i s e))) = cache (cpuOf e).
Proof.
  split; [|split; [|reflexivity]].
  - intros n. unfold registerValue, executeStore, cpuOf. simpl.
    apply find_named_map_same_values. intros r.
    destruct (negb (String.eqb (reg_name r) "PC")
              && negb (String.eqb (reg_name r) "IR")); split; reflexivity.
  - intros a. unfold memoryValue, executeStore, cpuOf. simpl.
    apply find_at_address_map_same_values. intros m. split; reflexivity.
Qed.

(** One call of [step] in the middle of a program. *)
Lemma one_step h e i p :
  reachable e ->
  nth_error (currentInstructions e) (instructionIndex e) = Some i ->
  phaseIndex e = p ->
  exists s e1 b,
    runPhase h (nth p phases InstructionPhase.IDLE) i (freshStep i e) (tick e)
    = Some (s, e1)
    /\ step h e = Some (b, finish s e1)
    /\ reachable (finish s e1)
    /\ cacheInv (tick e)
    /\ (instructionIndex (finish s e1), phaseIndex (finish s e1))
       = nextCursor (instructionIndex e) p
    /\ currentInstructions (finish s e1) = currentInstructions e.
Proof.
  intros Hr Hn Hp.
  destruct (step_cases h e (reachable_cacheInv e Hr))
    as [[Hd _] | (i0 & s & e1 & Hn0 & Hrun & Hfr & _ & _ & _ & _ & Hst)].
  - apply nth_error_None in Hd. congruence.
  - rewrite Hn in Hn0. inversion Hn0; subst i0. rewrite Hp in Hrun.
    exists s, e1. eexists. split; [exact Hrun|]. split; [exact Hst|].
    split; [eapply reach_step; [exact Hr|exact Hst]|].
    split; [eapply cacheInv_ext; [|exact (reachable_cacheInv e Hr)]; reflexivity|].
    destruct Hfr as ((Hci & Hcp & Hcc) & _).
    simpl in Hci, Hcp, Hcc.
    split.
    + rewrite finish_cursor, Hci, Hcp, Hp. reflexivity.
    + destruct (finish_state s e1) as (_ & _ & _ & ->). exact Hcc.
Qed.

Lemma steps_app n :
  forall m hs e bs1 e1 bs2 e2,
    steps hs n e = Some (bs1, e1) ->
    steps (fun k => hs (n + k)) m e1 = Some (bs2, e2) ->
    steps hs (n + m) e = Some (bs1 ++ bs2, e2).
Proof.
  induction n as [|n IH]; intros m hs e bs1 e1 bs2 e2 H1 H2; simpl in *.
  - inversion H1; subst. exact H2.
  - destruct (step (hs 0) e) as [[b e']|]; [|discriminate].
    destruct (steps (fun i => hs (S i)) n e') as [[bs e'']|] eqn:E;
      [|discriminate].
    inversion H1; subst.
    rewrite (IH m (fun i => hs (S i)) e' bs e1 bs2 e2 E H2). reflexivity.
Qed.

Lemma some_snd {A B} (x : A * B) a b : Some x = Some (a, b) -> b = snd x.
Proof. intros H. inversion H. reflexivity. Qed.

(** The four calls that run one instruction: FETCH and DECODE bring the
    engine to [x], whose general registers, memory values and cache are
    those it started with; EXECUTE turns [x] into [x']; STORE and the
    bookkeeping leave the register values, memory values and cache of
    [x']. *)
Lemma instruction_cycle hs e i :
  reachable e ->
  nth_error (currentInstructions e) (instructionIndex e) = Some i ->
  phaseIndex e = 0 ->
  exists x s sx x' bs e4,
    steps hs 4 e = Some (bs, e4)
    /\ reachable e4
    /\ instructionIndex e4 = S (instructionIndex e)
    /\ phaseIndex e4 = 0
    /\ currentInstructions e4 = currentInstructions e
    /\ cacheInv x
    /\ (forall n, n <> "PC" -> registerValue n x = registerValue n e)
    /\ (forall a, memoryValue a x = memoryValue a e)
    /\ cache (cpuOf x) = cache (cpuOf e)
    /\ executeExecute (hs 2) i s x = Some (sx, x')
    /\ (forall n, registerValue n e4 = registerValue n x')
    /\ (forall a, memoryValue a e4 = memoryValue a x')
    /\ cache (cpuOf e4) = cache (cpuOf x').
Proof.
  intros Hr Hn Hp.
  destruct (one_step (hs 0) e i 0 Hr Hn Hp)
    as (s1 & f1 & b1 & Hrun1 & Hst1 & Hr1 & _ & Hcur1 & Hci1).
  pose proof (some_snd (executeFetch (hs 0) i (freshStep i e) (tick e))
                _ _ Hrun1) as Hf.
  set (e1 := finish s1 f1) in *.
  unfold nextCursor in Hcur1. simpl in Hcur1. injection Hcur1 as Hi1 Hp1.
  assert (Hn1 : nth_error (currentInstructions e1) (instructionIndex e1) = Some i)
    by (rewrite Hci1, Hi1; exact Hn).
  destruct (one_step (hs 1) e1 i 1 Hr1 Hn1 Hp1)
    as (s2 & f2 & b2 & Hrun2 & Hst2 & Hr2 & _ & Hcur2 & Hci2).
  pose proof (some_snd (executeDecode i (freshStep i e1) (tick e1))
                _ _ Hrun2) as Hd.
  set (e2 := finish s2 f2) in *.
  unfold nextCursor in Hcur2. simpl in Hcur2. injection Hcur2 as Hi2 Hp2.
  assert (Hn2 : nth_error (currentInstructions e2) (instructionIndex e2) = Some i)
    by (rewrite Hci2, Hi2; exact Hn1).
  destruct (one_step (hs 2) e2 i 2 Hr2 Hn2 Hp2)
    as (s3 & f3 & b3 & Hrun3 & Hst3 & Hr3 & Hinvx & Hcur3 & Hci3).
  simpl in Hrun3.
  set (e3 := finish s3 f3) in *.
  unfold nextCursor in Hcur3. simpl in Hcur3. injection Hcur3 as Hi3 Hp3.
  assert (Hn3 : nth_error (currentInstructions e3) (instructionIndex e3) = Some i)
    by (rewrite Hci3, Hi3; exact Hn2).
  destruct (one_step (hs 3) e3 i 3 Hr3 Hn3 Hp3)
    as (s4 & f4 & b4 & Hrun4 & Hst4 & Hr4 & _ & Hcur4 & Hci4).
  pose proof (some_snd (executeStore i (freshStep i e3) (tick e3))
                _ _ Hrun4) as Hs.
  set (e4 := finish s4 f4) in *.
  unfold nextCursor in Hcur4. simpl in Hcur4. injection Hcur4 as Hi4 Hp4.
  exists (tick e2), (freshStep i e2), s3, f3, [b1; b2; b3; b4], e4.
  (* the values along the way *)
  destruct (executeFetch_values (hs 0) i (freshStep i e) (tick e))
    as (Hfr & Hfm & Hfc).
  rewrite <- Hf in Hfr, Hfm, Hfc.
  destruct (executeDecode_values i (freshStep i e1) (tick e1))
    as (Hdr & Hdm & Hdc).
  rewrite <- Hd in Hdr, Hdm, Hdc.
  destruct (executeStore_values i (freshStep i e3) (tick e3))
    as (Hsr & Hsm & Hsc).
  rewrite <- Hs in Hsr, Hsm, Hsc.
  destruct (finish_state s1 f1) as (Hc1 & _).
  destruct (finish_state s2 f2) as (Hc2 & _).
  destruct (finish_state s3 f3) as (Hc3 & _).
  destruct (finish_state s4 f4) as (Hc4 & _).
  fold e1 in Hc1. fold e2 in Hc2. fold e3 in Hc3. fold e4 in Hc4.
  assert (Hreg : forall n a b, cpuOf a = cpuOf b ->
                               registerValue n a = registerValue n b)
    by (intros n a b E; unfold registerValue; rewrite E; reflexivity).
  assert (Hmem : forall n a b, cpuOf a = cpuOf b ->
                               memoryValue n a = memoryValue n b)
    by (intros n a b E; unfold memoryValue; rewrite E; reflexivity).
  split.
  { simpl. rewrite Hst1. fold e1. rewrite Hst2. fold e2. rewrite Hst3.
    fold e3. rewrite Hst4. reflexivity. }
  split; [exact Hr4|].
  split; [lia|]. split; [exact Hp4|].
  split; [congruence|].
  split; [exact Hinvx|].
  split.
  { intros n Hne.
    transitivity (registerValue n e2); [reflexivity|].
    rewrite (Hreg n e2 f2 Hc2), Hdr.
    transitivity (registerValue n e1); [reflexivity|].
    rewrite (Hreg n e1 f1 Hc1), (Hfr n Hne). reflexivity. }
  split.
  { intros a.
    transitivity (memoryValue a e2); [reflexivity|].
    rewrite (Hmem a e2 f2 Hc2). unfold memoryValue at 1. rewrite Hdm.
    change (memoryValue a e1 = memoryValue a e).
    rewrite (Hmem a e1 f1 Hc1). unfold memoryValue at 1. rewrite Hfm.
    reflexivity. }
  split.
  { transitivity (cache (cpuOf e2)); [reflexivity|].
    rewrite Hc2, Hdc.
    transitivity (cache (cpuOf e1)); [reflexivity|].
    rewrite Hc1, Hfc. reflexivity. }
  split; [exact Hrun3|].
  split.
  { intros n. rewrite (Hreg n e4 f4 Hc4), Hsr.
    transitivity (registerValue n e3); [reflexivity|].
    exact (Hreg n e3 f3 Hc3). }
  split.
  { intros a. rewrite (Hmem a e4 f4 Hc4), Hsm.
    transitivity (memoryValue a e3); [reflexivity|].
    exact (Hmem a e3 f3 Hc3). }
  rewrite Hc4, Hsc.
  transitivity (cache (cpuOf e3)); [reflexivity|].
  rewrite Hc3. reflexivity.
Qed.

Lemma reachable_register n e :
  reachable e -> In n ["R1"; "R2"; "R3"; "PC"; "IR"] ->
  exists v, registerValue n e = Some v.
Proof.
  intros Hr Hin. destruct (reachable_banks e Hr) as [Hn _].
  unfold registerNames in Hn. rewrite <- Hn in Hin.
  apply find_named_iff in Hin. unfold registerValue.
  destruct (find (named n) (registers (cpuOf e))) as [r|]; [|contradiction].
  exists (reg_value r). reflexivity.
Qed.

Lemma reachable_no_cell a e :
  reachable e -> ~ (0 <= a < 256)%Z -> memoryValue a e = None.
Proof.
  intros Hr Ha. destruct (reachable_banks e Hr) as [_ Hm].
  unfold memoryValue.
  destruct (find (at_address a) (memory (cpuOf e))) as [m|] eqn:E; [|reflexivity].
  exfalso. apply Ha. apply in_first_256. rewrite <- Hm.
  apply find_at_address_iff. unfold memoryAddresses. congruence.
Qed.

Lemma setExample_values a e :
  (forall n, registerValue n (setExample a e) = registerValue n e)
  /\ (forall x, memoryValue x (setExample a e) = memoryValue x e)
  /\ cache (cpuOf (setExample a e)) = cache (cpuOf e).
Proof.
  split; [|split].
  - intros n. destruct a as [[d|]|[d|]]; reflexivity.
  - intros x. unfold memoryValue.
    destruct a as [[d|]|[d|]]; simpl;
      apply find_at_address_map_same_values; intros m; split; reflexivity.
  - destruct a as [[d|]|[d|]]; reflexivity.
Qed.

(** The net effect of one instruction whose EXECUTE phase is known. *)
Lemma run_instruction hs e i :
  reachable e ->
  nth_error (currentInstructions e) (instructionIndex e) = Some i ->
  phaseIndex e = 0 ->
  forall (Q : Engine -> Engine -> Prop),
    (forall s x,
        cacheInv x ->
        (forall n, n <> "PC" -> registerValue n x = registerValue n e) ->
        (forall a, memoryValue a x = memoryValue a e) ->
        cache (cpuOf x) = cache (cpuOf e) ->
        exists sx x', executeExecute (hs 2) i s x = Some (sx, x') /\ Q x x') ->
  exists x x' bs e4,
    steps hs 4 e = Some (bs, e4)
    /\ reachable e4
    /\ instructionIndex e4 = S (instructionIndex e)
    /\ phaseIndex e4 = 0
    /\ currentInstructions e4 = currentInstructions e
    /\ (forall n, n <> "PC" -> registerValue n x = registerValue n e)
    /\ (forall a, memoryValue a x = memoryValue a e)
    /\ cache (cpuOf x) = cache (cpuOf e)
    /\ Q x x'
    /\ (forall n, registerValue n e4 = registerValue n x')
    /\ (forall a, memoryValue a e4 = memoryValue a x')
    /\ cache (cpuOf e4) = cache (cpuOf x').
Proof.
  intros Hr Hn Hp Q HQ.
  destruct (instruction_cycle hs e i Hr Hn Hp)
    as (x & s & sx & x' & bs & e4 & Hs & Hr4 & Hi4 & Hp4 & Hc4 & Hinv
        & Hxr & Hxm & Hxc & Hex & H4r & H4m & H4c).
  destruct (HQ s x Hinv Hxr Hxm Hxc) as (sx0 & x0 & Hex0 & Hq).
  rewrite Hex in Hex0. inversion Hex0; subst sx0 x0.
  exists x, x', bs, e4. repeat split; assumption.
Qed.

(** ** The two examples, from any engine *)

Lemma names_differ_R1_PC : "R1" <> "PC". Proof. discriminate. Qed.
Lemma names_differ_R2_PC : "R2" <> "PC". Proof. discriminate. Qed.
Lemma names_differ_R3_PC : "R3" <> "PC". Proof. discriminate. Qed.

Lemma run_register_instruction hs e i d v :
  reachable e ->
  nth_error (currentInstructions e) (instructionIndex e) = Some i ->
  phaseIndex e = 0 ->
  d <> "PC" ->
  (forall s x,
      cacheInv x ->
      (forall n, n <> "PC" -> registerValue n x = registerValue n e) ->
      exists sx x', executeExecute (hs 2) i s x = Some (sx, x')
                    /\ registersOnly d v x x') ->
  exists bs e4,
    steps hs 4 e = Some (bs, e4)
    /\ reachable e4
    /\ instructionIndex e4 = S (instructionIndex e)
    /\ phaseIndex e4 = 0
    /\ currentInstructions e4 = currentInstructions e
    /\ registerValue d e4 = Some v
    /\ (forall n, n <> d -> n <> "PC" -> registerValue n e4 = registerValue n e)
    /\ (forall a, memoryValue a e4 = memoryValue a e)
    /\ cache (cpuOf e4) = cache (cpuOf e).
Proof.
  intros Hr Hn Hp Hd HQ.
  destruct (run_instruction hs e i Hr Hn Hp (registersOnly d v))
    as (x & x' & bs & e4 & Hs & Hr4 & Hi4 & Hp4 & Hl4 & Hxr & Hxm & Hxc
        & (Hq & Hqo & Hqm & Hqc) & H4r & H4m & H4c).
  { intros s x Hinv Hxr _ _. apply HQ; assumption. }
  exists bs, e4. repeat split; try assumption.
  - rewrite H4r. exact Hq.
  - intros n Hn1 Hn2. rewrite H4r, Hqo by assumption. apply Hxr. exact Hn2.
  - intros y. rewrite H4m. unfold memoryValue at 1. rewrite Hqm. apply Hxm.
  - congruence.
Qed.

Lemma run_literal hs e i d v :
  reachable e ->
  nth_error (currentInstructions e) (instructionIndex e) = Some i ->
  phaseIndex e = 0 ->
  (opcode i = Opcode.LOAD /\ address i = None) \/ opcode i = Opcode.MOV ->
  operand1 i = Some (Num v) ->
  destination i = Some d -> In d ["R1"; "R2"; "R3"] ->
  exists bs e4,
    steps hs 4 e = Some (bs, e4)
    /\ reachable e4
    /\ instructionIndex e4 = S (instructionIndex e)
    /\ phaseIndex e4 = 0
    /\ currentInstructions e4 = currentInstructions e
    /\ registerValue d e4 = Some v
    /\ (forall n, n <> d -> n <> "PC" -> registerValue n e4 = registerValue n e)
    /\ (forall a, memoryValue a e4 = memoryValue a e)
    /\ cache (cpuOf e4) = cache (cpuOf e).
Proof.
  intros Hr Hn Hp Hop H1 Hd Hin.
  assert (HdPC : d <> "PC")
    by (simpl in Hin; intuition (subst d; discriminate)).
  assert (Hd0 : d <> "")
    by (simpl in Hin; intuition (subst d; discriminate)).
  apply (run_register_instruction hs e i d v Hr Hn Hp HdPC).
  intros s x Hinv Hxr.
  destruct (reachable_register d e Hr ltac:(simpl in *; tauto)) as [old Hold].
  rewrite <- (Hxr d HdPC) in Hold.
  destruct (executeLiteral_effect (hs 2) i s x d v old Hop H1 Hd Hd0 Hold)
    as (x' & Hex & Hv & Ho & Hm & Hc & _).
  eexists _, x'. split; [exact Hex|]. repeat split; assumption.
Qed.

Lemma run_ALU hs e i d r1 r2 v1 v2 :
  reachable e ->
  nth_error (currentInstructions e) (instructionIndex e) = Some i ->
  phaseIndex e = 0 ->
  isALU (opcode i) = true ->
  operand1 i = Some (Name r1) -> r1 <> "" -> r1 <> "PC" ->
  operand2 i = Some (Name r2) -> r2 <> "" -> r2 <> "PC" ->
  destination i = Some d -> In d ["R1"; "R2"; "R3"] ->
  registerValue r1 e = Some v1 ->
  registerValue r2 e = Some v2 ->
  exists bs e4,
    steps hs 4 e = Some (bs, e4)
    /\ reachable e4
    /\ instructionIndex e4 = S (instructionIndex e)
    /\ phaseIndex e4 = 0
    /\ currentInstructions e4 = currentInstructions e
    /\ registerValue d e4 = Some (compute (opcode i) v1 v2)
    /\ (forall n, n <> d -> n <> "PC" -> registerValue n e4 = registerValue n e)
    /\ (forall a, memoryValue a e4 = memoryValue a e)
    /\ cache (cpuOf e4) = cache (cpuOf e).
Proof.
  intros Hr Hn Hp Hop H1 Hr1 Hr1' H2 Hr2 Hr2' Hd Hin Hv1 Hv2.
  assert (HdPC : d <> "PC")
    by (simpl in Hin; intuition (subst d; discriminate)).
  assert (Hd0 : d <> "")
    by (simpl in Hin; intuition (subst d; discriminate)).
  apply (run_register_instruction hs e i d _ Hr Hn Hp HdPC).
  intros s x Hinv Hxr.
  destruct (reachable_register d e Hr ltac:(simpl in *; tauto)) as [old Hold].
  rewrite <- (Hxr d HdPC) in Hold.
  rewrite <- (Hxr r1 Hr1') in Hv1. rewrite <- (Hxr r2 Hr2') in Hv2.
  assert (T1 : truthyOperand (operand1 i) = true).
  { rewrite H1. simpl. destruct (String.eqb_spec r1 ""); [contradiction|reflexivity]. }
  assert (T2 : truthyOperand (operand2 i) = true).
  { rewrite H2. simpl. destruct (String.eqb_spec r2 ""); [contradiction|reflexivity]. }
  assert (Hv1' : registerValue (registerOf (operand1 i) "R1") x = Some v1)
    by (rewrite H1; exact Hv1).
  assert (Hv2' : registerValue (registerOf (operand2 i) "R2") x = Some v2)
    by (rewrite H2; exact Hv2).
  destruct (executeALU_effect (hs 2) i s x d v1 v2 old Hop T1 T2 Hd Hd0
              Hv1' Hv2' Hold)
    as (x' & Hex & Hv & Ho & Hm & Hc & _).
  rewrite H1, H2 in Hex, Hv.
  eexists _, x'. split; [exact Hex|]. repeat split; assumption.
Qed.

Lemma run_STORE_nowhere hs e i src X :
  reachable e ->
  nth_error (currentInstructions e) (instructionIndex e) = Some i ->
  phaseIndex e = 0 ->
  opcode i = Opcode.STORE ->
  destination i = Some src -> In src ["R1"; "R2"; "R3"] ->
  address i = Some X -> ~ (0 <= X < 256)%Z ->
  exists bs e4,
    steps hs 4 e = Some (bs, e4)
    /\ reachable e4
    /\ instructionIndex e4 = S (instructionIndex e)
    /\ phaseIndex e4 = 0
    /\ currentInstructions e4 = currentInstructions e
    /\ (forall n, n <> "PC" -> registerValue n e4 = registerValue n e)
    /\ (forall a, memoryValue a e4 = memoryValue a e)
    /\ cache (cpuOf e4) = cache (cpuOf e).
Proof.
  intros Hr Hn Hp Hop Hd Hin HX Hout.
  assert (HdPC : src <> "PC")
    by (simpl in Hin; intuition (subst src; discriminate)).
  assert (Hd0 : src <> "")
    by (simpl in Hin; intuition (subst src; discriminate)).
  destruct (run_instruction hs e i Hr Hn Hp (fun x x' => x' = x))
    as (x & x' & bs & e4 & Hs & Hr4 & Hi4 & Hp4 & Hl4 & Hxr & Hxm & Hxc
        & Hq & H4r & H4m & H4c).
  { intros s x Hinv Hxr Hxm _.
    destruct (reachable_register src e Hr ltac:(simpl in *; tauto)) as [v Hv].
    rewrite <- (Hxr src HdPC) in Hv.
    pose proof (executeSTORE_effect (hs 2) i s x src X v Hop Hd Hd0 HX Hinv Hv)
      as H.
    rewrite Hxm, (reachable_no_cell X e Hr Hout) in H.
    exists s, x. split; [exact H | reflexivity]. }
  subst x'. exists bs, e4. repeat split; try assumption.
  - intros n Hn'. rewrite H4r. apply Hxr. exact Hn'.
  - intros y. rewrite H4m. apply Hxm.
  - congruence.
Qed.

(** X8.  The calculator example, for all inputs and from any engine.  After
    [setExample] with calculator data, sixteen calls of [step] return and
    leave input1 in R1, input2 in R2 and in R3 their sum, difference,
    product or quotient by the operation, a division by zero giving 0; the
    quotient is not rounded.  All four instructions are done.  The memory
    values and the cache are those of the engine before [setExample]: the
    final STORE names the address 0x100, which no memory cell has. *)
Theorem calculator_example_computes hs e d :
  reachable e ->
  exists bs e',
    steps hs 16 (setExample (calculator (Some d)) e) = Some (bs, e')
    /\ reachable e'
    /\ instructionIndex e' = 4 /\ phaseIndex e' = 0
    /\ currentInstructions e'
       = generateCalculatorInstructions (input1 d) (input2 d) (operation d)
    /\ registerValue "R1" e' = Some (input1 d)
    /\ registerValue "R2" e' = Some (input2 d)
    /\ registerValue "R3" e'
       = Some match operation d with
              | Plus => (input1 d + input2 d)%float
              | Minus => (input1 d - input2 d)%float
              | Times => (input1 d * input2 d)%float
              | Divide => if nonZero (input2 d)
                          then (input1 d / input2 d)%float else 0%float
              end
    /\ (forall a, memoryValue a e' = memoryValue a e)
    /\ cache (cpuOf e') = cache (cpuOf e).
Proof.
  intros Hr.
  set (e0 := setExample (calculator (Some d)) e).
  assert (Hr0 : reachable e0) by (apply reach_setExample; exact Hr).
  destruct (setExample_values (calculator (Some d)) e) as (_ & Hm0 & Hc0).
  fold e0 in Hm0, Hc0.
  assert (Hi0 : instructionIndex e0 = 0) by reflexivity.
  assert (Hp0 : phaseIndex e0 = 0) by reflexivity.
  assert (Hl0 : currentInstructions e0
                = generateCalculatorInstructions
                    (input1 d) (input2 d) (operation d)) by reflexivity.
  clearbody e0.
  set (a := input1 d) in *. set (b := input2 d) in *.
  set (op := operation d) in *.
  (* load1 *)
  pose proof (eq_refl : nth_error (generateCalculatorInstructions a b op) 0
                        = Some _) as Hn0.
  rewrite <- Hl0, <- Hi0 in Hn0.
  destruct (run_literal hs e0 _ "R1" a Hr0 Hn0 Hp0
              (or_introl (conj eq_refl eq_refl)) eq_refl eq_refl
              ltac:(simpl; tauto))
    as (bs1 & e1 & Hs1 & Hr1 & Hi1 & Hp1 & Hl1 & Ha1 & Ho1 & Hm1 & Hc1).
  rewrite Hi0 in Hi1. rewrite Hl0 in Hl1.
  (* load2 *)
  pose proof (eq_refl : nth_error (generateCalculatorInstructions a b op) 1
                        = Some _) as Hn1.
  rewrite <- Hl1, <- Hi1 in Hn1.
  destruct (run_literal (fun k => hs (4 + k)) e1 _ "R2" b Hr1 Hn1 Hp1
              (or_introl (conj eq_refl eq_refl)) eq_refl eq_refl
              ltac:(simpl; tauto))
    as (bs2 & e2 & Hs2 & Hr2 & Hi2 & Hp2 & Hl2 & Hb2 & Ho2 & Hm2 & Hc2).
  rewrite Hi1 in Hi2. rewrite Hl1 in Hl2.
  assert (Ha2 : registerValue "R1" e2 = Some a)
    by (rewrite Ho2 by discriminate; exact Ha1).
  (* compute *)
  pose proof (eq_refl : nth_error (generateCalculatorInstructions a b op) 2
                        = Some _) as Hn2.
  rewrite <- Hl2, <- Hi2 in Hn2.
  destruct (run_ALU (fun k => hs (8 + k)) e2 _ "R3" "R1" "R2" a b Hr2 Hn2 Hp2
              ltac:(destruct op; reflexivity)
              eq_refl ltac:(discriminate) ltac:(discriminate)
              eq_refl ltac:(discriminate) ltac:(discriminate)
              eq_refl ltac:(simpl; tauto) Ha2 Hb2)
    as (bs3 & e3 & Hs3 & Hr3 & Hi3 & Hp3 & Hl3 & Hv3 & Ho3 & Hm3 & Hc3).
  rewrite Hi2 in Hi3. rewrite Hl2 in Hl3.
  (* store *)
  pose proof (eq_refl : nth_error (generateCalculatorInstructions a b op) 3
                        = Some _) as Hn3.
  rewrite <- Hl3, <- Hi3 in Hn3.
  destruct (run_STORE_nowhere (fun k => hs (12 + k)) e3 _ "R3" 256%Z
              Hr3 Hn3 Hp3 eq_refl eq_refl ltac:(simpl; tauto) eq_refl
              ltac:(lia))
    as (bs4 & e4 & Hs4 & Hr4 & Hi4 & Hp4 & Hl4 & Ho4 & Hm4 & Hc4).
  rewrite Hi3 in Hi4. rewrite Hl3 in Hl4.
  exists (bs1 ++ bs2 ++ bs3 ++ bs4), e4.
  split.
  { apply (steps_app 4 12 hs e0 bs1 e1 (bs2 ++ bs3 ++ bs4) e4 Hs1).
    apply (steps_app 4 8 (fun k => hs (4 + k)) e1 bs2 e2 (bs3 ++ bs4) e4 Hs2).
    apply (steps_app 4 4 (fun k => hs (4 + (4 + k))) e2 bs3 e3 bs4 e4).
    - exact Hs3.
    - exact Hs4. }
  repeat split; try assumption.
  - rewrite Ho4, Ho3 by discriminate. exact Ha2.
  - rewrite Ho4, Ho3 by discriminate. exact Hb2.
  - rewrite Ho4 by discriminate. rewrite Hv3. destruct op; reflexivity.
  - intros y. rewrite Hm4, Hm3, Hm2, Hm1. apply Hm0.
  - congruence.
Qed.

Lemma calculator_example_computes_witness :
  exists bs e',
    steps stillHost 16
      (setExample
         (calculator
            (Some {| input1 := 7%float; input2 := 2%float;
                     operation := Divide; result := None;
                     calc_steps := [] |}))
         usedEngine) = Some (bs, e')
    /\ reachable e'
    /\ instructionIndex e' = 4 /\ phaseIndex e' = 0
    /\ currentInstructions e'
       = generateCalculatorInstructions 7%float 2%float Divide
    /\ registerValue "R1" e' = Some 7%float
    /\ registerValue "R2" e' = Some 2%float
    /\ registerValue "R3" e'
       = Some (if nonZero 2%float then (7 / 2)%float else 0%float)
    /\ (forall a, memoryValue a e' = memoryValue a usedEngine)
    /\ cache (cpuOf e') = cache (cpuOf usedEngine).
Proof.
  exact (calculator_example_computes stillHost usedEngine
           {| input1 := 7%float; input2 := 2%float; operation := Divide;
              result := None; calc_steps := [] |}
           usedEngine_reachable).
Defined.

(** X9.  The traffic-light example, for all inputs and from any engine.
    After [setExample] with traffic data, four calls of [step] for each
    generated instruction return and leave the sensor input (1 or 0) in R1
    and the state (RED 0, YELLOW 1, GREEN 2) in R2.  R3 holds 2 for RED with
    a car, 1 for GREEN and 0 for YELLOW; for RED without a car no
    instruction sets it and it keeps the value it had before [setExample].
    The memory values and the cache are those of the engine before
    [setExample]: the final STORE names the address 0x200, which no memory
    cell has. *)
Theorem trafficLight_example_decides hs e d :
  reachable e ->
  exists bs e',
    steps hs
      (4 * List.length (generateTrafficLightInstructions
                          (currentState d) (sensorInput d)))
      (setExample (trafficLight (Some d)) e) = Some (bs, e')
    /\ reachable e'
    /\ instructionIndex e' = List.length (currentInstructions e')
    /\ phaseIndex e' = 0
    /\ registerValue "R1" e'
       = Some (if sensorInput d then 1%float else 0%float)
    /\ registerValue "R2" e'
       = Some match currentState d with
              | RED => 0%float | YELLOW => 1%float | GREEN => 2%float
              end
    /\ registerValue "R3" e'
       = match currentState d, sensorInput d with
         | RED, true => Some 2%float
         | GREEN, _ => Some 1%float
         | YELLOW, _ => Some 0%float
         | RED, false => registerValue "R3" e
         end
    /\ (forall a, memoryValue a e' = memoryValue a e)
    /\ cache (cpuOf e') = cache (cpuOf e).
Proof.
  intros Hr.
  set (e0 := setExample (trafficLight (Some d)) e).
  assert (Hr0 : reachable e0) by (apply reach_setExample; exact Hr).
  destruct (setExample_values (trafficLight (Some d)) e) as (Hg0 & Hm0 & Hc0).
  fold e0 in Hg0, Hm0, Hc0.
  assert (Hi0 : instructionIndex e0 = 0) by reflexivity.
  assert (Hp0 : phaseIndex e0 = 0) by reflexivity.
  assert (Hl0 : currentInstructions e0
                = generateTrafficLightInstructions
                    (currentState d) (sensorInput d)) by reflexivity.
  clearbody e0.
  (* load_sensor *)
  assert (Hn0 : exists i, nth_error (currentInstructions e0) (instructionIndex e0)
                          = Some i
                          /\ opcode i = Opcode.LOAD /\ address i = None
                          /\ operand1 i
                             = Some (Num (if sensorInput d
                                          then 1%float else 0%float))
                          /\ destination i = Some "R1").
  { rewrite Hl0, Hi0. eexists. split; [reflexivity|]. repeat split. }
  destruct Hn0 as (i0 & Hn0 & Hop0 & Had0 & Hv0 & Hd0).
  destruct (run_literal hs e0 i0 "R1" _ Hr0 Hn0 Hp0
              (or_introl (conj Hop0 Had0)) Hv0 Hd0 ltac:(simpl; tauto))
    as (bs1 & e1 & Hs1 & Hr1 & Hi1 & Hp1 & Hl1 & Ha1 & Ho1 & Hm1 & Hc1).
  rewrite Hi0 in Hi1. rewrite Hl0 in Hl1.
  (* load_state *)
  assert (Hn1 : exists i, nth_error (currentInstructions e1) (instructionIndex e1)
                          = Some i
                          /\ opcode i = Opcode.LOAD /\ address i = None
                          /\ operand1 i
                             = Some (Num match currentState d with
                                         | RED => 0%float
                                         | YELLOW => 1%float
                                         | GREEN => 2%float
                                         end)
                          /\ destination i = Some "R2").
  { rewrite Hl1, Hi1. eexists. split; [reflexivity|]. repeat split. }
  destruct Hn1 as (i1 & Hn1 & Hop1 & Had1 & Hv1 & Hd1).
  destruct (run_literal (fun k => hs (4 + k)) e1 i1 "R2" _ Hr1 Hn1 Hp1
              (or_introl (conj Hop1 Had1)) Hv1 Hd1 ltac:(simpl; tauto))
    as (bs2 & e2 & Hs2 & Hr2 & Hi2 & Hp2 & Hl2 & Hb2 & Ho2 & Hm2 & Hc2).
  rewrite Hi1 in Hi2. rewrite Hl1 in Hl2.
  assert (Ha2 : registerValue "R1" e2
                = Some (if sensorInput d then 1%float else 0%float))
    by (rewrite Ho2 by discriminate; exact Ha1).
  assert (Hc02 : registerValue "R3" e2 = registerValue "R3" e).
  { rewrite Ho2, Ho1 by discriminate. apply Hg0. }
  pose proof (steps_app 4 4 hs e0 bs1 e1 bs2 e2 Hs1 Hs2) as Hs12.
  assert (Hm02 : forall y, memoryValue y e2 = memoryValue y e)
    by (intros y; rewrite Hm2, Hm1; apply Hm0).
  assert (Hc2' : cache (cpuOf e2) = cache (cpuOf e)) by congruence.
  clear Hs1 Hs2 Hn0 Hn1 Ho1 Ho2 Hm1 Hm2 Hc1 Hc2 Hm0 Hc0 Hg0 Hr0 Hr1 Hl0 Hl1.
  (* the decision: a MOV, or nothing *)
  assert (Hmov :
    exists bs e3,
      steps hs (4 * (List.length (currentInstructions e2) - 1)) e0
      = Some (bs, e3)
      /\ reachable e3
      /\ S (instructionIndex e3) = List.length (currentInstructions e2)
      /\ phaseIndex e3 = 0
      /\ currentInstructions e3 = currentInstructions e2
      /\ registerValue "R1" e3 = registerValue "R1" e2
      /\ registerValue "R2" e3 = registerValue "R2" e2
      /\ registerValue "R3" e3
         = match currentState d, sensorInput d with
           | RED, true => Some 2%float
           | GREEN, _ => Some 1%float
           | YELLOW, _ => Some 0%float
           | RED, false => registerValue "R3" e
           end
      /\ (forall a, memoryValue a e3 = memoryValue a e)
      /\ cache (cpuOf e3) = cache (cpuOf e)).
  { destruct (currentState d), (sensorInput d); simpl in Hl2.
    2: { exists (bs1 ++ bs2), e2. rewrite Hl2, Hi2.
         repeat split; try assumption; reflexivity. }
    all: assert (Hn2 : exists i,
                   nth_error (currentInstructions e2) (instructionIndex e2)
                   = Some i /\ opcode i = Opcode.MOV
                   /\ destination i = Some "R3"
                   /\ exists v, operand1 i = Some (Num v))
           by (rewrite Hl2, Hi2; eexists; split; [reflexivity|];
               repeat split; eexists; reflexivity);
         destruct Hn2 as (i2 & Hn2 & Hop2 & Hd2 & v & Hv2);
         destruct (run_literal (fun k => hs (8 + k)) e2 i2 "R3" v Hr2 Hn2 Hp2
                     (or_intror Hop2) Hv2 Hd2 ltac:(simpl; tauto))
           as (bs3 & e3 & Hs3 & Hr3 & Hi3 & Hp3 & Hl3 & Hv3 & Ho3 & Hm3 & Hc3);
         exists ((bs1 ++ bs2) ++ bs3), e3;
         rewrite Hl2 in Hn2, Hl3 |- *; rewrite Hi2 in Hn2, Hi3;
         simpl in Hn2; inversion Hn2; subst i2; simpl in Hv2;
         inversion Hv2; subst v;
         (split; [exact (steps_app 8 4 hs e0 _ e2 bs3 e3 Hs12 Hs3)|]);
         (split; [exact Hr3|]); (split; [rewrite Hi3; reflexivity|]);
         (split; [exact Hp3|]); (split; [rewrite Hl3; reflexivity|]);
         (split; [apply Ho3; discriminate|]);
         (split; [apply Ho3; discriminate|]);
         (split; [exact Hv3|]);
         (split; [intros y; rewrite Hm3; apply Hm02 | congruence]). }
  destruct Hmov as (bs3 & e3 & Hs3 & Hr3 & Hi3 & Hp3 & Hl3 & Ha3 & Hb3 & Hv3
                    & Hm3 & Hc3).
  rewrite Hl2 in Hs3, Hi3, Hl3. clear Hl2 Hs12.
  (* store_output *)
  assert (Hn3 : exists i, nth_error (currentInstructions e3) (instructionIndex e3)
                          = Some i
                          /\ opcode i = Opcode.STORE
                          /\ destination i = Some "R3"
                          /\ address i = Some 512%Z).
  { rewrite Hl3.
    destruct (currentState d), (sensorInput d); simpl in Hi3 |- *;
      injection Hi3 as Hi3; rewrite Hi3; eexists;
      (split; [reflexivity|]); repeat split. }
  destruct Hn3 as (i3 & Hn3 & Hop3 & Hd3 & Had3).
  destruct (run_STORE_nowhere
              (fun k => hs (4 * (List.length
                                   (generateTrafficLightInstructions
                                      (currentState d) (sensorInput d)) - 1)
                            + k))
              e3 i3 "R3" 512%Z Hr3 Hn3 Hp3 Hop3 Hd3 ltac:(simpl; tauto) Had3
              ltac:(lia))
    as (bs4 & e4 & Hs4 & Hr4 & Hi4 & Hp4 & Hl4 & Ho4 & Hm4 & Hc4).
  exists (bs3 ++ bs4), e4.
  split.
  { pose proof (steps_app _ 4 hs e0 bs3 e3 bs4 e4 Hs3 Hs4) as H.
    replace (4 * List.length (generateTrafficLightInstructions
                                (currentState d) (sensorInput d)))
      with (4 * (List.length (generateTrafficLightInstructions
                                (currentState d) (sensorInput d)) - 1) + 4).
    - exact H.
    - destruct (currentState d), (sensorInput d); reflexivity. }
  split; [exact Hr4|].
  split; [rewrite Hi4, Hl4, Hl3; exact Hi3|].
  split; [exact Hp4|].
  split; [rewrite Ho4 by discriminate; rewrite Ha3; exact Ha2|].
  split; [rewrite Ho4 by discriminate; rewrite Hb3; exact Hb2|].
  split; [rewrite Ho4 by discriminate; exact Hv3|].
  split; [intros y; rewrite Hm4; apply Hm3 | congruence].
Qed.

Lemma trafficLight_example_decides_witness :
  exists bs e',
    steps stillHost 12
      (setExample
         (trafficLight
            (Some {| currentState := RED; timer := 0%float;
                     sensorInput := false; traffic_steps := [] |}))
         usedEngine) = Some (bs, e')
    /\ reachable e'
    /\ instructionIndex e' = List.length (currentInstructions e')
    /\ phaseIndex e' = 0
    /\ registerValue "R1" e' = Some 0%float
    /\ registerValue "R2" e' = Some 0%float
    /\ registerValue "R3" e' = registerValue "R3" usedEngine
    /\ (forall a, memoryValue a e' = memoryValue a usedEngine)
    /\ cache (cpuOf e') = cache (cpuOf usedEngine).
Proof.
  exact (trafficLight_example_decides stillHost usedEngine
           {| currentState := RED; timer := 0%float; sensorInput := false;
              traffic_steps := [] |}
           usedEngine_reachable).
Defined.

(** ** The lines of L1 under reads and writes *)

Lemma in_updateFirst {A} (p : A -> bool) f (l : list A) y :
  In y (updateFirst p f l) ->
  exists x, In x l /\ (y = x \/ (p x = true /\ y = f x)).
Proof.
  induction l as [|x l IH]; simpl; [intros []|].
  destruct (p x) eqn:Hp; simpl.
  - intros [H|H].
    + exists x. split; [left; reflexivity|]. right. split; [exact Hp|].
      symmetry. exact H.
    + exists y. split; [right; exact H|]. left. reflexivity.
  - intros [H|H].
    + exists x. split; [left; reflexivity|]. left. symmetry. exact H.
    + destruct (IH H) as (x0 & Hin & Hx0).
      exists x0. split; [right; exact Hin|exact Hx0].
Qed.

Lemma in_updateAt {A} k (x : A) (l : list A) y :
  In y (updateAt k (fun _ => x) l) -> In y l \/ y = x.
Proof.
  revert k. induction l as [|z l IH]; intros k; [destruct k; intros []|].
  destruct k as [|k]; simpl.
  - intros [H|H]; [right; symmetry; exact H | left; right; exact H].
  - intros [H|H]; [left; left; exact H|].
    destruct (IH k H) as [H'|H']; [left; right; exact H' | right; exact H'].
Qed.

Lemma filter_updateFirst_length {A} (q p : A -> bool) f (l : list A) :
  (forall x, q (f x) = q x) ->
  List.length (filter q (updateFirst p f l)) = List.length (filter q l).
Proof.
  intros Hq. induction l as [|x l IH]; simpl; [reflexivity|].
  destruct (p x); simpl.
  - rewrite Hq. destruct (q x); reflexivity.
  - destruct (q x); simpl; rewrite IH; reflexivity.
Qed.

Lemma filter_updateAt_length {A} (q : A -> bool) k (x : A) (l : list A) old :
  nth_error l k = Some old -> q x = true ->
  List.length (filter q (updateAt k (fun _ => x) l))
  = List.length (filter q l) + (if q old then 0 else 1).
Proof.
  revert k. induction l as [|z l IH]; intros k Hn Hx.
  - destruct k; discriminate.
  - destruct k as [|k]; simpl in *.
    + inversion Hn; subst z. rewrite Hx. destruct (q old); simpl; lia.
    + destruct (q z); simpl; rewrite (IH k Hn Hx); lia.
Qed.

Lemma existsb_filter_length {A} (q : A -> bool) (l : list A) :
  existsb q l = (0 <? List.length (filter q l)).
Proof.
  induction l as [|x l IH]; simpl; [reflexivity|].
  destruct (q x); simpl; [reflexivity | exact IH].
Qed.

Lemma holds_valid a ls :
  existsb (holds a) ls = true -> existsb valid ls = true.
Proof.
  induction ls as [|l ls IH]; simpl; [discriminate|].
  unfold holds at 1. destruct (valid l); simpl; [reflexivity | exact IH].
Qed.

(** What a read does to L1, on an engine of the invariant shape. *)
Lemma checkCache_effect a e :
  cacheInv e ->
  exists r e',
    checkCache a e = Some (r, e')
    /\ cr_level r = CacheLevel.L1
    /\ cr_isHit r = existsb (holds a) (l1Lines e)
    /\ validLines e' = Nat.max 1 (validLines e)
    /\ l1Accesses e' = S (l1Accesses e)
    /\ memory (cpuOf e') = memory (cpuOf e)
    /\ registers (cpuOf e') = registers (cpuOf e)
    /\ (forall l', In l' (l1Lines e') ->
          (exists l, In l (l1Lines e)
                     /\ line_address l' = line_address l
                     /\ line_value l' = line_value l
                     /\ valid l' = valid l)
          \/ l' = fetchedLine a e).
Proof.
  intros (l1 & Hc & Hl & Hlen & Hamo).
  rewrite (checkCache_on_shape a e l1 Hc Hl).
  rewrite (l1Lines_on_shape e l1 Hc Hl).
  assert (Hacc : l1Accesses e = hits l1 + misses l1).
  { unfold l1Accesses. rewrite Hc. simpl. unfold of_level. rewrite Hl.
    reflexivity. }
  unfold validLines. rewrite (l1Lines_on_shape e l1 Hc Hl).
  destruct (existsb (holds a) (lines l1)) eqn:Hhit.
  - eexists. eexists. split; [reflexivity|].
    split; [reflexivity|]. split; [reflexivity|].
    rewrite (l1Lines_on_shape _ (afterReadHit a (clockCycle (cpuOf e)) l1))
      by (try reflexivity; exact Hl).
    split.
    { set (m := Nat.max 1 _). simpl.
      rewrite filter_updateFirst_length by reflexivity. subst m.
      pose proof (holds_valid _ _ Hhit) as Hv.
      rewrite existsb_filter_length in Hv. apply Nat.ltb_lt in Hv. lia. }
    split.
    { rewrite Hacc. unfold l1Accesses. simpl. unfold of_level. simpl.
      rewrite Hl. simpl. reflexivity. }
    split; [reflexivity|]. split; [reflexivity|].
    intros l' Hin. left. simpl in Hin.
    destruct (in_updateFirst _ _ _ _ Hin) as (l & Hl0 & [->|[_ ->]]);
      exists l; repeat split; assumption.
  - destruct (readVictim_some (lines l1) (nonempty_of_length_8 _ Hlen))
      as [lru Hv].
    rewrite Hv.
    destruct (readVictim_spec _ _ Hv) as (old & Hn & Hold).
    eexists. eexists. split; [reflexivity|].
    split; [reflexivity|]. split; [reflexivity|].
    rewrite (l1Lines_on_shape _ (afterMiss a lru (fetchedLine a e) l1))
      by (try reflexivity; exact Hl).
    split.
    { set (m := Nat.max 1 _). simpl.
      rewrite (filter_updateAt_length valid lru (fetchedLine a e) _ old Hn
                 eq_refl).
      subst m.
      rewrite existsb_filter_length in Hold.
      destruct (valid old) eqn:Ho.
      - assert (Hex : existsb valid (lines l1) = true).
        { apply existsb_exists. exists old. split; [|exact Ho].
          eapply nth_error_In. exact Hn. }
        rewrite existsb_filter_length in Hex. apply Nat.ltb_lt in Hex. lia.
      - destruct (List.length (filter valid (lines l1))) as [|k] eqn:Ek.
        + reflexivity.
        + specialize (Hold eq_refl). discriminate. }
    split.
    { rewrite Hacc. unfold l1Accesses. simpl. unfold of_level. simpl.
      rewrite Hl. simpl. lia. }
    split; [reflexivity|]. split; [reflexivity|].
    intros l' Hin. simpl in Hin.
    destruct (in_updateAt _ _ _ _ Hin) as [H|H]; [left|right; exact H].
    exists l'. repeat split. exact H.
Qed.

(** What a write does to L1, on an engine of the invariant shape. *)
Lemma updateCache_effect a v e :
  cacheInv e ->
  exists r e',
    updateCache a v e = Some (r, e')
    /\ cr_level r = CacheLevel.L1
    /\ cr_isHit r = existsb (holds a) (l1Lines e)
    /\ l1Accesses e' = S (l1Accesses e)
    /\ memory (cpuOf e') = memory (cpuOf e)
    /\ registers (cpuOf e') = registers (cpuOf e)
    /\ (forall l', In l' (l1Lines e') ->
          In l' (l1Lines e) \/ line_address l' = a)
    /\ cacheInv e'
    /\ cached a v e'.
Proof.
  intros Hinv.
  destruct (updateCache_inv a v e Hinv) as (r & cs & Hu & Hlv & Hinv').
  pose proof (updateCache_caches a v e _ _ Hinv Hu)
    as (l0 & Hin0 & Hv0 & Ha0 & Hval0 & _).
  assert (Hmem : memory (cpuOf (onCpu (set_cache cs) e)) = memory (cpuOf e))
    by reflexivity.
  assert (Hreg : registers (cpuOf (onCpu (set_cache cs) e))
                 = registers (cpuOf e)) by reflexivity.
  set (e' := onCpu (set_cache cs) e) in *. clearbody e'.
  exists r, e'.
  split; [exact Hu|]. split; [exact Hlv|].
  assert (Hrest :
    cr_isHit r = existsb (holds a) (l1Lines e)
    /\ l1Accesses e' = S (l1Accesses e)
    /\ (forall l', In l' (l1Lines e') ->
          In l' (l1Lines e) \/ line_address l' = a)).
  { destruct Hinv as (l1 & Hc & Hl & Hlen & Hamo).
    rewrite (updateCache_on_shape a v e l1 Hc Hl) in Hu.
    rewrite (l1Lines_on_shape e l1 Hc Hl).
    assert (Hacc : l1Accesses e = hits l1 + misses l1).
    { unfold l1Accesses. rewrite Hc. simpl. unfold of_level. rewrite Hl.
      reflexivity. }
    rewrite Hacc.
    destruct (existsb (holds a) (lines l1)) eqn:Hhit.
    - inversion Hu; subst r e'.
      rewrite (l1Lines_on_shape _ (afterWriteHit a v (clockCycle (cpuOf e)) l1))
        by (try reflexivity; exact Hl).
      split; [reflexivity|]. split.
      { unfold l1Accesses. simpl. unfold of_level. simpl. rewrite Hl. simpl.
        reflexivity. }
      intros l' Hin. simpl in Hin.
      destruct (in_updateFirst _ _ _ _ Hin) as (l & Hl0 & [->|[Hh ->]]).
      + left. exact Hl0.
      + right. simpl. unfold holds in Hh. apply andb_true_iff in Hh.
        apply Z.eqb_eq. apply Hh.
    - destruct (writeVictim (lines l1)) as [lru|] eqn:Hw; [|discriminate].
      inversion Hu; subst r e'.
      rewrite (l1Lines_on_shape _ (afterMiss a lru (writtenLine a v e) l1))
        by (try reflexivity; exact Hl).
      split; [reflexivity|]. split.
      { unfold l1Accesses. simpl. unfold of_level. simpl. rewrite Hl. simpl.
        lia. }
      intros l' Hin. simpl in Hin.
      destruct (in_updateAt _ _ _ _ Hin) as [H|H];
        [left; exact H | right; rewrite H; reflexivity]. }
  destruct Hrest as (H1 & H2 & H3).
  split; [exact H1|]. split; [exact H2|].
  split; [exact Hmem|]. split; [exact Hreg|].
  split; [exact H3|]. split; [exact Hinv'|].
  exists l0. auto.
Qed.

(** A lookup of an address some valid line of L1 holds hits, and changes
    no address, value or validity of a line. *)
Lemma checkCache_held a e :
  cacheInv e ->
  existsb (holds a) (l1Lines e) = true ->
  exists e',
    checkCache a e
    = Some ({| cr_level := CacheLevel.L1; cr_isHit := true |}, e')
    /\ lineAddresses e' = lineAddresses e
    /\ map line_value (l1Lines e') = map line_value (l1Lines e).
Proof.
  intros (l1 & Hc & Hl & Hlen & Hamo) Hheld.
  rewrite (l1Lines_on_shape e l1 Hc Hl) in Hheld.
  rewrite (checkCache_on_shape a e l1 Hc Hl), Hheld.
  eexists. split; [reflexivity|].
  unfold lineAddresses.
  rewrite (l1Lines_on_shape _ (afterReadHit a (clockCycle (cpuOf e)) l1))
    by (try reflexivity; exact Hl).
  rewrite (l1Lines_on_shape e l1 Hc Hl). simpl.
  split; apply updateFirst_map; intros l; reflexivity.
Qed.

(** ** The cache agrees with the memory *)

Lemma coherent_ext e e' :
  l1Lines e' = l1Lines e ->
  (forall a, memoryValue a e' = memoryValue a e) ->
  coherent e -> coherent e'.
Proof.
  intros Hl Hm Hc l Hin Hv. unfold fresh. rewrite Hm.
  rewrite Hl in Hin. exact (Hc l Hin Hv).
Qed.

Lemma checkCache_coherent a e r e' :
  cacheInv e -> coherent e ->
  checkCache a e = Some (r, e') -> coherent e'.
Proof.
  intros Hinv Hcoh Hc.
  destruct (checkCache_effect a e Hinv)
    as (r0 & e0 & Hc0 & _ & _ & _ & _ & Hm & _ & Hlines).
  rewrite Hc in Hc0. inversion Hc0; subst r0 e0. clear Hc0.
  intros l' Hin Hv. unfold fresh, memoryValue. rewrite Hm.
  destruct (Hlines l' Hin) as [(l & Hl & Ha & Hval & Hvalid)|Heq].
  - rewrite Ha, Hval. rewrite Hvalid in Hv. exact (Hcoh l Hl Hv).
  - rewrite Heq. simpl.
    destruct (find (at_address a) (memory (cpuOf e))) as [m|]; simpl;
      [|reflexivity].
    unfold orElse. destruct (truthy (mem_value m)) eqn:Ht;
      [left; reflexivity | right; split; reflexivity].
Qed.

Lemma store_coherent a v e m r e' :
  cacheInv e -> coherent e ->
  find (at_address a) (memory (cpuOf e)) = Some m ->
  updateCache a v
    (onCpu (fun c =>
              set_memory
                (updateFirst (at_address a)
                   (fun m0 =>
                      set_mem_used true
                        (set_mem_active true (set_mem_value v m0)))
                   (memory c)) c) e) = Some (r, e') ->
  coherent e'.
Proof.
  intros Hinv Hcoh Hm Hu.
  match type of Hu with
  | updateCache a v ?em = _ =>
      assert (Hem : cacheInv em)
        by (eapply cacheInv_ext; [|exact Hinv]; reflexivity);
      destruct (updateCache_effect a v em Hem)
        as (r0 & e0 & Hu0 & _ & _ & _ & Hmem & _ & Hlines & Hinv'
            & (l0 & Hin0 & Hv0 & Ha0 & Hval0))
  end.
  rewrite Hu in Hu0. inversion Hu0; subst r0 e0. clear Hu0.
  change (forall l', In l' (l1Lines e') ->
                     In l' (l1Lines e) \/ line_address l' = a) in Hlines.
  assert (Hcell : memoryValue a e' = Some v).
  { unfold memoryValue. rewrite Hmem. unfold cpuOf. simpl.
    rewrite find_updateFirst_same by reflexivity.
    unfold cpuOf in Hm. rewrite Hm. reflexivity. }
  assert (Hother : forall x, x <> a -> memoryValue x e' = memoryValue x e).
  { intros x Hx. unfold memoryValue. rewrite Hmem. unfold cpuOf. simpl.
    f_equal. apply find_updateFirst_other; [reflexivity|].
    intros y Hy. unfold at_address in *. apply Z.eqb_eq in Hy.
    apply Z.eqb_neq. congruence. }
  destruct Hinv' as (l1' & Hc' & Hl' & _ & Hamo').
  intros l' Hin Hv. unfold fresh.
  rewrite (l1Lines_on_shape e' l1' Hc' Hl') in Hin0, Hlines, Hin.
  destruct (Z.eq_dec (line_address l') a) as [Heq|Hne].
  - rewrite Heq, Hcell. left.
    destruct (In_nth_error _ _ Hin) as [i Hi].
    destruct (In_nth_error _ _ Hin0) as [j Hj].
    assert (i = j) by (apply (Hamo' i j l' l0); congruence).
    subst j. rewrite Hi in Hj. inversion Hj; subst l0. exact Hval0.
  - rewrite (Hother _ Hne).
    destruct (Hlines l' Hin) as [Hold|Hbad]; [|contradiction].
    exact (Hcoh l' Hold Hv).
Qed.

Ltac coherent_kept Hcoh :=
  let H := fresh "H" in
  intros H; inversion H; subst;
  (eapply coherent_ext; [| |exact Hcoh]; [reflexivity|intros; reflexivity]).

Lemma executeExecute_coherent h i s e s' e' :
  cacheInv e -> coherent e ->
  executeExecute h i s e = Some (s', e') -> coherent e'.
Proof.
  intros Hinv Hcoh. unfold executeExecute.
  destruct (opcode i); try (coherent_kept Hcoh; fail).
  - unfold executeLOAD.
    destruct (operand1 i) as [[x|n]|]; try (coherent_kept Hcoh; fail).
    destruct (destination i) as [d|]; try (coherent_kept Hcoh; fail).
    destruct (truthyString (Some d)); try (coherent_kept Hcoh; fail).
    destruct (find (named d) (registers (cpuOf e))) as [reg|];
      try (coherent_kept Hcoh; fail).
    destruct (address i) as [a|]; try (coherent_kept Hcoh; fail).
    destruct (checkCache a e) as [[r e1]|] eqn:Hc; [|discriminate].
    pose proof (checkCache_coherent a e r e1 Hinv Hcoh Hc) as Hcoh1.
    assert (Hvals : forall y,
              option_map mem_value
                (find (at_address y)
                   (updateFirst (at_address a) (set_mem_used true)
                      (memory (cpuOf e1))))
              = memoryValue y e1)
      by (intros y; apply find_at_address_same_values;
          intros m; split; reflexivity).
    destruct (cr_isHit r); intros H; inversion H; subst;
      (eapply coherent_ext; [| |exact Hcoh1]; [reflexivity|exact Hvals]).
  - unfold executeSTORE.
    destruct (destination i) as [d|]; try (coherent_kept Hcoh; fail).
    destruct (truthyString (Some d)); try (coherent_kept Hcoh; fail).
    destruct (find (named d) (registers (cpuOf e))) as [reg|];
      try (coherent_kept Hcoh; fail).
    destruct (address i) as [a|]; try (coherent_kept Hcoh; fail).
    destruct (find (at_address a) (memory (cpuOf e))) as [m|] eqn:Hm;
      try (coherent_kept Hcoh; fail).
    match goal with
    | |- context [updateCache a ?v ?em] =>
        destruct (updateCache a v em) as [[r e1]|] eqn:Hu; [|discriminate];
        pose proof (store_coherent a v e m r e1 Hinv Hcoh Hm Hu) as Hcoh1
    end.
    destruct (cr_isHit r); intros H; inversion H; subst;
      (eapply coherent_ext; [| |exact Hcoh1]; [reflexivity|intros; reflexivity]).
  - unfold executeALU.
    destruct (truthyOperand (operand1 i) && truthyOperand (operand2 i)
              && truthyString (destination i)); try (coherent_kept Hcoh; fail).
    split_finds; coherent_kept Hcoh.
  - unfold executeALU.
    destruct (truthyOperand (operand1 i) && truthyOperand (operand2 i)
              && truthyString (destination i)); try (coherent_kept Hcoh; fail).
    split_finds; coherent_kept Hcoh.
  - unfold executeALU.
    destruct (truthyOperand (operand1 i) && truthyOperand (operand2 i)
              && truthyString (destination i)); try (coherent_kept Hcoh; fail).
    split_finds; coherent_kept Hcoh.
  - unfold executeALU.
    destruct (truthyOperand (operand1 i) && truthyOperand (operand2 i)
              && truthyString (destination i)); try (coherent_kept Hcoh; fail).
    split_finds; coherent_kept Hcoh.
  - unfold executeMOV.
    destruct (operand1 i) as [[x|n]|]; try (coherent_kept Hcoh; fail).
    destruct (destination i) as [d|]; try (coherent_kept Hcoh; fail).
    destruct (truthyString (Some d)); try (coherent_kept Hcoh; fail).
    split_finds; coherent_kept Hcoh.
Qed.

Lemma runPhase_coherent h ph i s e s' e' :
  cacheInv e -> coherent e ->
  runPhase h ph i s e = Some (s', e') -> coherent e'.
Proof.
  intros Hinv Hcoh. destruct ph; simpl.
  - intros H. rewrite (some_snd _ _ _ H).
    destruct (executeFetch_values h i s e) as (_ & Hm & Hc).
    eapply coherent_ext; [| |exact Hcoh].
    + unfold l1Lines. rewrite Hc. reflexivity.
    + intros a. unfold memoryValue. rewrite Hm. reflexivity.
  - coherent_kept Hcoh.
  - apply executeExecute_coherent; assumption.
  - intros H. rewrite (some_snd _ _ _ H).
    destruct (executeStore_values i s e) as (_ & Hm & Hc).
    eapply coherent_ext; [| |exact Hcoh].
    + unfold l1Lines. rewrite Hc. reflexivity.
    + exact Hm.
  - coherent_kept Hcoh.
Qed.

Lemma step_coherent h e b e' :
  cacheInv e -> coherent e -> step h e = Some (b, e') -> coherent e'.
Proof.
  intros Hinv Hcoh Hs.
  destruct (step_cases h e Hinv)
    as [[_ Hdone]|(i & s & e1 & _ & Hrun & _ & _ & _ & _ & _ & Hstep)].
  - rewrite Hs in Hdone. inversion Hdone; subst. exact Hcoh.
  - rewrite Hs in Hstep. inversion Hstep; subst.
    assert (Hc1 : coherent e1).
    { eapply runPhase_coherent; [| |exact Hrun].
      - eapply cacheInv_ext; [|exact Hinv]. reflexivity.
      - eapply coherent_ext; [| |exact Hcoh]; [reflexivity|intros; reflexivity]. }
    destruct (finish_state s e1) as (Hcpu & _).
    eapply coherent_ext; [| |exact Hc1].
    + unfold l1Lines. rewrite Hcpu. reflexivity.
    + intros a. unfold memoryValue. rewrite Hcpu. reflexivity.
Qed.

Lemma driven_reachable e : driven e -> reachable e.
Proof.
  induction 1.
  - exact reach_new.
  - apply reach_reset. assumption.
  - apply reach_setExample. assumption.
  - apply reach_loadProgram. assumption.
  - eapply reach_step; eassumption.
  - apply reach_cacheTimeout. assumption.
  - apply reach_busTimeout. assumption.
Qed.

Lemma coherent_new : coherent newEngine.
Proof.
  intros l Hin Hv. exfalso.
  assert (Hall : forallb (fun l => negb (valid l)) (l1Lines newEngine) = true)
    by reflexivity.
  rewrite forallb_forall in Hall. specialize (Hall l Hin).
  rewrite Hv in Hall. discriminate.
Qed.

Lemma driven_coherent e : driven e -> coherent e.
Proof.
  induction 1 as [ | e _ _ | a e _ IH | p e _ IH | h e b e' Hd IH Hs
                   | e Hd IH | id e _ IH ].
  - exact coherent_new.
  - exact coherent_new.
  - destruct (setExample_values a e) as (_ & Hm & Hc).
    eapply coherent_ext; [| |exact IH]; [|exact Hm].
    unfold l1Lines. rewrite Hc. reflexivity.
  - eapply coherent_ext; [| |exact IH]; [reflexivity|].
    intros a. unfold memoryValue, loadProgram, cpuOf. simpl.
    apply find_at_address_map_same_values. intros m; split; reflexivity.
  - eapply step_coherent; [|exact IH|exact Hs].
    apply reachable_cacheInv, driven_reachable. exact Hd.
  - destruct (reachable_cacheInv e (driven_reachable e Hd))
      as (l1 & Hc & Hl & _).
    eapply coherent_ext; [| |exact IH]; [|intros; reflexivity].
    unfold l1Lines, cacheTimeout, cpuOf in *. simpl. rewrite Hc. simpl.
    unfold of_level. simpl. rewrite Hl. reflexivity.
  - eapply coherent_ext; [| |exact IH]; [reflexivity|intros; reflexivity].
Qed.

Lemma steps_driven n :
  forall hs e bs e',
    driven e -> steps hs n e = Some (bs, e') -> driven e'.
Proof.
  induction n as [|n IH]; intros hs e bs e' Hd Hs; simpl in Hs.
  - inversion Hs; subst. exact Hd.
  - destruct (step (hs 0) e) as [[b e1]|] eqn:E; [|discriminate].
    destruct (steps (fun i => hs (S i)) n e1) as [[bs1 e2]|] eqn:E1;
      [|discriminate].
    inversion Hs; subst.
    eapply IH; [|exact E1]. eapply driven_step; [exact Hd|exact E].
Qed.

Lemma usedEngine_driven : driven usedEngine.
Proof.
  assert (H : exists r, steps stillHost 3 (loadProgram [storeTo 5 "R1"] newEngine)
                        = Some (r, usedEngine))
    by (eexists; vm_compute; reflexivity).
  destruct H as [r H].
  eapply steps_driven; [|exact H]. apply driven_loadProgram, driven_new.
Qed.

Lemma calc53_after_three_reachable : reachable (afterSteps stillHost 3 calc53).
Proof.
  assert (H : exists bs, steps stillHost 3 calc53
                         = Some (bs, afterSteps stillHost 3 calc53))
    by (eexists; vm_compute; reflexivity).
  destruct H as [bs H].
  eapply steps_reachable; [|exact H]. apply reach_setExample, reach_new.
Qed.

(** X10.  A read never fills a second line.  On a reachable engine
    [checkCache] returns, reports L1, hits exactly when a valid line of L1
    holds the address, and is counted once in the hits and misses of L1.
    Afterwards L1 has as many valid lines as before, or one if it had
    none: a miss overwrites a valid line whenever there is one, even
    while invalid lines are left. *)
Theorem read_never_fills_a_second_line a e :
  reachable e ->
  exists r e',
    checkCache a e = Some (r, e')
    /\ cr_level r = CacheLevel.L1
    /\ cr_isHit r = existsb (holds a) (l1Lines e)
    /\ validLines e' = Nat.max 1 (validLines e)
    /\ l1Accesses e' = S (l1Accesses e).
Proof.
  intros Hr.
  destruct (checkCache_effect a e (reachable_cacheInv e Hr))
    as (r & e' & Hc & Hlv & Hhit & Hn & Hacc & _).
  exists r, e'. repeat split; assumption.
Qed.

Lemma read_never_fills_a_second_line_witness :
  exists r e',
    checkCache 9 oneLineEngine = Some (r, e')
    /\ cr_level r = CacheLevel.L1
    /\ cr_isHit r = existsb (holds 9) (l1Lines oneLineEngine)
    /\ validLines e' = Nat.max 1 (validLines oneLineEngine)
    /\ l1Accesses e' = S (l1Accesses oneLineEngine).
Proof.
  exact (read_never_fills_a_second_line 9 oneLineEngine
           oneLineEngine_reachable).
Defined.

(** X11.  What was accessed is found.  After [checkCache] or
    [updateCache] of an address on a reachable engine, a lookup of the
    same address is a hit in L1, and it changes no address, validity or
    value of a line. *)
Theorem second_lookup_hits a e r e' :
  reachable e ->
  checkCache a e = Some (r, e')
  \/ (exists v, updateCache a v e = Some (r, e')) ->
  exists e'',
    checkCache a e'
    = Some ({| cr_level := CacheLevel.L1; cr_isHit := true |}, e'')
    /\ lineAddresses e'' = lineAddresses e'
    /\ map line_value (l1Lines e'') = map line_value (l1Lines e').
Proof.
  intros Hr [Hc|[v Hu]].
  - apply checkCache_held.
    + apply reachable_cacheInv. eapply reach_checkCache; [exact Hr|exact Hc].
    + exact (proj1 (checkCache_caches a e r e' (reachable_cacheInv e Hr) Hc)).
  - apply checkCache_held.
    + apply reachable_cacheInv. eapply reach_updateCache; [exact Hr|exact Hu].
    + destruct (updateCache_caches a v e r e' (reachable_cacheInv e Hr) Hu)
        as (l & Hin & Hv & Ha & _).
      apply existsb_exists. exists l. split; [exact Hin|].
      unfold holds. rewrite Hv. simpl. apply Z.eqb_eq. exact Ha.
Qed.

Lemma second_lookup_hits_witness :
  exists e'',
    checkCache 5 oneLineEngine
    = Some ({| cr_level := CacheLevel.L1; cr_isHit := true |}, e'')
    /\ lineAddresses e'' = lineAddresses oneLineEngine
    /\ map line_value (l1Lines e'') = map line_value (l1Lines oneLineEngine).
Proof.
  apply (second_lookup_hits 5 (afterSteps stillHost 3 calc53)
           {| cr_level := CacheLevel.L1; cr_isHit := false |} oneLineEngine
           calc53_after_three_reachable).
  left. vm_compute. reflexivity.
Defined.

(** X12.  The cache is never stale.  In every engine brought about by
    the public methods and the timer callbacks, each valid line of L1
    agrees with the memory cell of its address: it holds the value of
    the cell, or 0 where the cell holds a falsy value (0, -0 or NaN) or
    where no cell has that address. *)
Theorem cache_agrees_with_memory e l :
  driven e ->
  In l (l1Lines e) -> valid l = true ->
  match memoryValue (line_address l) e with
  | Some m => line_value l = m \/ (truthy m = false /\ line_value l = 0%float)
  | None => line_value l = 0%float
  end.
Proof.
  intros Hd Hin Hv. exact (driven_coherent e Hd l Hin Hv).
Qed.

Lemma cache_agrees_with_memory_witness :
  match memoryValue 5 usedEngine with
  | Some m => 0%float = m \/ (truthy m = false /\ 0%float = 0%float)
  | None => 0%float = 0%float
  end.
Proof.
  apply (cache_agrees_with_memory usedEngine
           (writtenLine 5 0%float usedEngine) usedEngine_driven).
  - vm_compute. left. reflexivity.
  - reflexivity.
Defined.

(** X13.  The bus log is never pruned.  A call of [step] on a reachable
    engine keeps every transfer already logged and appends at most four,
    all active; the timer callback of [addBusTransfer] removes nothing
    either: the log keeps its length. *)
Theorem step_only_appends_to_the_bus_log h e b e' :
  reachable e -> step h e = Some (b, e') ->
  exists added,
    busTransfers (state e') = busTransfers (state e) ++ added
    /\ List.length added <= 4
    /\ Forall (fun t => bus_active t = true) added
    /\ forall id,
         List.length (busTransfers (state (busTimeout id e')))
         = List.length (busTransfers (state e')).
Proof.
  intros Hr Hs.
  assert (Hto : forall id x,
            List.length (busTransfers (state (busTimeout id x)))
            = List.length (busTransfers (state x)))
    by (intros id x; unfold busTimeout, onState; simpl;
        apply updateFirst_length).
  destruct (step_cases h e (reachable_cacheInv e Hr))
    as [[_ Hdone]|(i & s & e1 & _ & _ & Hfr & _ & _ & _ & _ & Hstep)].
  - rewrite Hs in Hdone. inversion Hdone; subst.
    exists []. rewrite app_nil_r.
    split; [reflexivity|]. split; [simpl; lia|]. split; [constructor|].
    intros id. apply Hto.
  - rewrite Hs in Hstep. inversion Hstep; subst.
    destruct Hfr as (_ & _ & _ & _ & _ & _ & added & Hb & Hlen & Hall).
    destruct (finish_state s e1) as (_ & Hbus & _).
    exists added.
    split; [rewrite Hbus, Hb; reflexivity|].
    split; [exact Hlen|]. split; [exact Hall|].
    intros id. apply Hto.
Qed.

Lemma step_only_appends_to_the_bus_log_witness :
  exists added,
    busTransfers (state (afterSteps stillHost 1 calc53))
    = busTransfers (state calc53) ++ added
    /\ List.length added <= 4
    /\ Forall (fun t => bus_active t = true) added
    /\ forall id,
         List.length
           (busTransfers (state (busTimeout id (afterSteps stillHost 1 calc53))))
         = List.length (busTransfers (state (afterSteps stillHost 1 calc53))).
Proof.
  apply (step_only_appends_to_the_bus_log noDraws calc53 true
           (afterSteps stillHost 1 calc53)).
  - apply reach_setExample, reach_new.
  - vm_compute. reflexivity.
Defined.

(** X14.  The machine code of the generated programs does not show their
    operands.  The two LOADs encode as the bare opcode 01 whatever they
    load, a MOV as 0B, the computation as its opcode followed by 00 00 for
    its two register operands, and the STORE as 02 and its address in four
    hex digits. *)
Theorem generated_machine_code_omits_operands toString16 :
  (forall a b op,
      map (encodeInstruction toString16) (generateCalculatorInstructions a b op)
      = ["01"; "01";
         match op with
         | Plus => "03 00 00" | Minus => "04 00 00"
         | Times => "05 00 00" | Divide => "06 00 00"
         end;
         "02 0100"])
  /\ (forall st sn,
         map (encodeInstruction toString16)
             (generateTrafficLightInstructions st sn)
         = ["01"; "01"]
           ++ match st, sn with RED, false => [] | _, _ => ["0B"] end
           ++ ["02 0200"]).
Proof.
  split.
  - intros a b op. destruct op; reflexivity.
  - intros st sn. destruct st, sn; reflexivity.
Qed.

(** X15.  Only the EXECUTE phase touches the data.  From a reachable
    engine at the start of a pending instruction, four calls of [step]
    return and move the cursor to the next instruction.  FETCH and DECODE
    leave every register value but PC, every memory value and the cache
    array as they were; EXECUTE runs the instruction on that engine; STORE
    and the bookkeeping of [step] change no register value, no memory
    value and not the cache array. *)
Theorem only_EXECUTE_touches_the_data hs e i :
  reachable e ->
  nth_error (currentInstructions e) (instructionIndex e) = Some i ->
  phaseIndex e = 0 ->
  exists x s sx x' bs e4,
    steps hs 4 e = Some (bs, e4)
    /\ reachable e4
    /\ instructionIndex e4 = S (instructionIndex e)
    /\ phaseIndex e4 = 0
    /\ currentInstructions e4 = currentInstructions e
    /\ cacheInv x
    /\ (forall n, n <> "PC" -> registerValue n x = registerValue n e)
    /\ (forall a, memoryValue a x = memoryValue a e)
    /\ cache (cpuOf x) = cache (cpuOf e)
    /\ executeExecute (hs 2) i s x = Some (sx, x')
    /\ (forall n, registerValue n e4 = registerValue n x')
    /\ (forall a, memoryValue a e4 = memoryValue a x')
    /\ cache (cpuOf e4) = cache (cpuOf x').
Proof.
  exact (instruction_cycle hs e i).
Qed.

Lemma only_EXECUTE_touches_the_data_witness :
  exists x s sx x' bs e4,
    steps stillHost 4 (loadProgram [storeTo 5 "R1"] usedEngine) = Some (bs, e4)
    /\ reachable e4
    /\ instructionIndex e4 = 1
    /\ phaseIndex e4 = 0
    /\ currentInstructions e4 = [storeTo 5 "R1"]
    /\ cacheInv x
    /\ (forall n, n <> "PC" ->
          registerValue n x
          = registerValue n (loadProgram [storeTo 5 "R1"] usedEngine))
    /\ (forall a, memoryValue a x
                  = memoryValue a (loadProgram [storeTo 5 "R1"] usedEngine))
    /\ cache (cpuOf x)
       = cache (cpuOf (loadProgram [storeTo 5 "R1"] usedEngine))
    /\ executeExecute (stillHost 2) (storeTo 5 "R1") s x = Some (sx, x')
    /\ (forall n, registerValue n e4 = registerValue n x')
    /\ (forall a, memoryValue a e4 = memoryValue a x')
    /\ cache (cpuOf e4) = cache (cpuOf x').
Proof.
  apply (only_EXECUTE_touches_the_data stillHost
           (loadProgram [storeTo 5 "R1"] usedEngine) (storeTo 5 "R1")).
  - apply reach_loadProgram, usedEngine_reachable.
  - reflexivity.
  - reflexivity.
Defined.

(** ** Control flow *)

Ltac counter_kept :=
  eexists; eexists; split; [reflexivity|reflexivity].

Lemma executeExecute_programCounter h i s e :
  cacheInv e ->
  exists s' e',
    executeExecute h i s e = Some (s', e')
    /\ programCounter (cpuOf e') = programCounter (cpuOf e).
Proof.
  intros Hinv. unfold executeExecute.
  destruct (opcode i); try (counter_kept; fail).
  - unfold executeLOAD.
    destruct (operand1 i) as [[x|n]|]; try (counter_kept; fail).
    destruct (destination i) as [d|]; try (counter_kept; fail).
    destruct (truthyString (Some d)); try (counter_kept; fail).
    destruct (find (named d) (registers (cpuOf e))) as [reg|];
      try (counter_kept; fail).
    destruct (address i) as [a|]; try (counter_kept; fail).
    destruct (checkCache_inv a e Hinv) as (r & cs & -> & _ & _).
    destruct (cr_isHit r); counter_kept.
  - unfold executeSTORE.
    destruct (destination i) as [d|]; try (counter_kept; fail).
    destruct (truthyString (Some d)); try (counter_kept; fail).
    destruct (find (named d) (registers (cpuOf e))) as [reg|];
      try (counter_kept; fail).
    destruct (address i) as [a|]; try (counter_kept; fail).
    destruct (find (at_address a) (memory (cpuOf e))) as [m|];
      try (counter_kept; fail).
    match goal with
    | |- context [updateCache a ?v ?em] =>
        assert (Hem : cacheInv em)
          by (eapply cacheInv_ext; [|exact Hinv]; reflexivity);
        destruct (updateCache_inv a v em Hem) as (r & cs & -> & _ & _)
    end.
    destruct (cr_isHit r); counter_kept.
  - unfold executeALU.
    destruct (truthyOperand (operand1 i) && truthyOperand (operand2 i)
              && truthyString (destination i)); try (counter_kept; fail).
    split_finds; counter_kept.
  - unfold executeALU.
    destruct (truthyOperand (operand1 i) && truthyOperand (operand2 i)
              && truthyString (destination i)); try (counter_kept; fail).
    split_finds; counter_kept.
  - unfold executeALU.
    destruct (truthyOperand (operand1 i) && truthyOperand (operand2 i)
              && truthyString (destination i)); try (counter_kept; fail).
    split_finds; counter_kept.
  - unfold executeALU.
    destruct (truthyOperand (operand1 i) && truthyOperand (operand2 i)
              && truthyString (destination i)); try (counter_kept; fail).
    split_finds; counter_kept.
  - unfold executeMOV.
    destruct (operand1 i) as [[x|n]|]; try (counter_kept; fail).
    destruct (destination i) as [d|]; try (counter_kept; fail).
    destruct (truthyString (Some d)); try (counter_kept; fail).
    split_finds; counter_kept.
Qed.

Lemma runPhase_programCounter h ph i s e :
  cacheInv e ->
  exists s' e',
    runPhase h ph i s e = Some (s', e')
    /\ programCounter (cpuOf e')
       = match ph with
         | InstructionPhase.FETCH => (programCounter (cpuOf e) + 1)%float
         | _ => programCounter (cpuOf e)
         end.
Proof.
  intros Hinv. destruct ph; simpl.
  - unfold executeFetch. split_finds; counter_kept.
  - counter_kept.
  - apply executeExecute_programCounter. exact Hinv.
  - counter_kept.
  - counter_kept.
Qed.

Lemma step_programCounter h e b e' :
  cacheInv e -> phaseIndex e < 4 ->
  programCounter (cpuOf e) = counted (fetched e) ->
  step h e = Some (b, e') ->
  programCounter (cpuOf e') = counted (fetched e').
Proof.
  intros Hinv Hph Hpc Hs.
  destruct (step_cases h e Hinv)
    as [[_ Hdone]|(i & s & e1 & _ & Hrun & Hfr & _ & _ & _ & _ & Hstep)].
  - rewrite Hs in Hdone. inversion Hdone; subst. exact Hpc.
  - rewrite Hs in Hstep. inversion Hstep; subst. clear Hstep.
    assert (Ht : cacheInv (tick e))
      by (eapply cacheInv_ext; [|exact Hinv]; reflexivity).
    destruct (runPhase_programCounter h
                (nth (phaseIndex e) phases InstructionPhase.IDLE) i
                (freshStep i e) (tick e) Ht) as (s0 & e0 & Hrun0 & Hpc0).
    rewrite Hrun in Hrun0. inversion Hrun0; subst s0 e0. clear Hrun0.
    destruct Hfr as ((Hi1 & Hp1 & _) & _).
    destruct (finish_state s e1) as (Hcpu & _). rewrite Hcpu, Hpc0.
    pose proof (finish_cursor s e1) as Hcur.
    rewrite Hi1, Hp1 in Hcur.
    change (programCounter (cpuOf (tick e))) with (programCounter (cpuOf e)).
    rewrite Hpc. unfold fetched.
    change (instructionIndex (tick e)) with (instructionIndex e) in Hcur.
    change (phaseIndex (tick e)) with (phaseIndex e) in Hcur.
    unfold nextCursor in Hcur.
    destruct (phaseIndex e) as [|[|[|[|p]]]]; simpl in Hcur;
      inversion Hcur as [[Hi Hp]]; rewrite Hi, Hp; simpl;
      rewrite ?Nat.add_0_r, ?Nat.add_1_r; try reflexivity.
    lia.
Qed.

(** X16.  The engine never jumps and never halts.  A JMP, JZ, JNZ or HALT
    instruction takes its four calls of [step] like any other and the
    cursor moves to the next instruction of the list; no register value
    but PC, no memory value and nothing in the cache array changes,
    whatever the operands and the address of the instruction. *)
Theorem jumps_and_HALT_do_nothing hs e i :
  reachable e ->
  nth_error (currentInstructions e) (instructionIndex e) = Some i ->
  phaseIndex e = 0 ->
  In (opcode i) [Opcode.JMP; Opcode.JZ; Opcode.JNZ; Opcode.HALT] ->
  exists bs e4,
    steps hs 4 e = Some (bs, e4)
    /\ reachable e4
    /\ instructionIndex e4 = S (instructionIndex e)
    /\ phaseIndex e4 = 0
    /\ currentInstructions e4 = currentInstructions e
    /\ (forall n, n <> "PC" -> registerValue n e4 = registerValue n e)
    /\ (forall a, memoryValue a e4 = memoryValue a e)
    /\ cache (cpuOf e4) = cache (cpuOf e).
Proof.
  intros Hr Hn Hp Hop.
  destruct (run_instruction hs e i Hr Hn Hp (fun x x' => x' = x))
    as (x & x' & bs & e4 & Hs & Hr4 & Hi4 & Hp4 & Hl4 & Hxr & Hxm & Hxc
        & Hq & H4r & H4m & H4c).
  { intros s x _ _ _ _. exists s, x. split; [|reflexivity].
    unfold executeExecute. simpl in Hop.
    destruct Hop as [<-|[<-|[<-|[<-|[]]]]]; reflexivity. }
  subst x'. exists bs, e4. repeat split; try assumption.
  - intros n Hn'. rewrite H4r. apply Hxr. exact Hn'.
  - intros y. rewrite H4m. apply Hxm.
  - congruence.
Qed.

Lemma jumps_and_HALT_do_nothing_witness :
  exists bs e4,
    steps stillHost 4 (loadProgram [jumpTo 1; jumpTo 0] usedEngine)
    = Some (bs, e4)
    /\ reachable e4
    /\ instructionIndex e4 = 1
    /\ phaseIndex e4 = 0
    /\ currentInstructions e4 = [jumpTo 1; jumpTo 0]
    /\ (forall n, n <> "PC" ->
          registerValue n e4
          = registerValue n (loadProgram [jumpTo 1; jumpTo 0] usedEngine))
    /\ (forall a, memoryValue a e4
                  = memoryValue a (loadProgram [jumpTo 1; jumpTo 0] usedEngine))
    /\ cache (cpuOf e4)
       = cache (cpuOf (loadProgram [jumpTo 1; jumpTo 0] usedEngine)).
Proof.
  apply (jumps_and_HALT_do_nothing stillHost
           (loadProgram [jumpTo 1; jumpTo 0] usedEngine) (jumpTo 1)).
  - apply reach_loadProgram, usedEngine_reachable.
  - reflexivity.
  - reflexivity.
  - simpl. left. reflexivity.
Defined.

(** X17.  The program counter counts fetches.  In every reachable engine
    [programCounter] is 0 incremented once for each FETCH phase run since
    the program was loaded, that is once for each instruction begun: no
    instruction, no cache access and no timer sets it. *)
Theorem program_counter_counts_fetches e :
  reachable e ->
  programCounter (cpuOf e) = counted (fetched e).
Proof.
  induction 1 as [ | e _ _ | a e _ IH | p e _ IH | h e b e' Hr IH Hs
                   | a e r e' Hr IH Hc | a v e r e' Hr IH Hu
                   | e _ IH | id e _ IH ].
  - reflexivity.
  - reflexivity.
  - destruct a as [[d|]|[d|]]; reflexivity.
  - reflexivity.
  - exact (step_programCounter h e b e' (reachable_cacheInv e Hr)
             (reachable_phaseIndex e Hr) IH Hs).
  - destruct (checkCache_inv a e (reachable_cacheInv e Hr))
      as (r0 & cs & Hc0 & _).
    rewrite Hc in Hc0. inversion Hc0; subst. exact IH.
  - destruct (updateCache_inv a v e (reachable_cacheInv e Hr))
      as (r0 & cs & Hu0 & _).
    rewrite Hu in Hu0. inversion Hu0; subst. exact IH.
  - exact IH.
  - exact IH.
Qed.

Lemma program_counter_counts_fetches_witness :
  programCounter (cpuOf usedEngine) = counted (fetched usedEngine).
Proof.
  exact (program_counter_counts_fetches usedEngine usedEngine_reachable).
Defined.

(** X18.  The opcode can be read back from the machine code.  Every
    encoding starts with the two upper-case hex digits of the opcode's
    code, 01 to 0B, so two instructions with the same encoding have the
    same opcode. *)
Theorem machine_code_determines_opcode toString16 i j :
  substring 0 2 (encodeInstruction toString16 i)
  = toUpperCase (padStart 2 (toString16Z (encoding (opcode i))))
  /\ (encodeInstruction toString16 i = encodeInstruction toString16 j ->
      opcode i = opcode j).
Proof.
  assert (Hpre : forall k,
            substring 0 2 (encodeInstruction toString16 k)
            = toUpperCase (padStart 2 (toString16Z (encoding (opcode k))))).
  { intros k. unfold encodeInstruction.
    destruct (address k) as [a|];
      [|destruct (operand1 k) as [o1|]; [destruct (operand2 k) as [o2|]|]];
      destruct (opcode k); reflexivity. }
  split; [apply Hpre|].
  intros Heq.
  pose proof (Hpre i) as Hi. pose proof (Hpre j) as Hj.
  rewrite Heq, Hj in Hi. clear - Hi.
  destruct (opcode i), (opcode j); try reflexivity;
    vm_compute in Hi; discriminate Hi.
Qed.

(** ** The line a write miss overwrites *)

(** X19.  The line a write miss overwrites.  On a write miss on a
    reachable engine [updateCache] returns and overwrites the L1 line of
    least last-accessed stamp among all the lines of L1, valid or not, the
    first such line in array order.  That is the line [checkCache] would
    overwrite whenever every line of L1 is valid. *)
Theorem write_miss_overwrites_least_stamp_of_all_lines :
  (forall e a v,
      reachable e ->
      existsb (holds a) (l1Lines e) = false ->
      exists lru l e',
        updateCache a v e
        = Some ({| cr_level := CacheLevel.L1; cr_isHit := false |}, e')
        /\ l1Lines e' = updateAt lru (fun _ => writtenLine a v e) (l1Lines e)
        /\ writeVictim (l1Lines e) = Some lru
        /\ nth_error (l1Lines e) lru = Some l
        /\ (forall j lj, nth_error (l1Lines e) j = Some lj ->
              lastAccessed l <= lastAccessed lj)
        /\ (forall j lj, j < lru -> nth_error (l1Lines e) j = Some lj ->
              lastAccessed l < lastAccessed lj))
  /\ (forall ls,
         Forall (fun l => valid l = true) ls ->
         readVictim ls = writeVictim ls).
Proof.
  split; [|exact readVictim_all_valid].
  intros e a v Hr Hmiss.
  destruct (reachable_cacheInv e Hr) as (l1 & Hc & Hl & Hlen & Hamo).
  assert (Hl1 : l1Lines e = lines l1).
  { unfold l1Lines. rewrite Hc. simpl. unfold of_level. rewrite Hl. reflexivity. }
  rewrite Hl1 in *.
  destruct (writeVictim_some (lines l1) (nonempty_of_length_8 _ Hlen))
    as [lru Hw].
  destruct (writeVictim_first_least _ _ Hw) as (l & Hn & Hmin & Hfirst).
  rewrite (updateCache_on_shape a v e l1 Hc Hl), Hmiss, Hw.
  exists lru, l. eexists. split; [reflexivity|].
  split.
  - unfold l1Lines. simpl. unfold of_level. simpl. rewrite Hl. reflexivity.
  - auto.
Qed.

Lemma write_miss_overwrites_least_stamp_of_all_lines_witness :
  exists lru l e',
    updateCache 9 1%float oneLineEngine
    = Some ({| cr_level := CacheLevel.L1; cr_isHit := false |}, e')
    /\ l1Lines e'
       = updateAt lru (fun _ => writtenLine 9 1%float oneLineEngine)
           (l1Lines oneLineEngine)
    /\ writeVictim (l1Lines oneLineEngine) = Some lru
    /\ nth_error (l1Lines oneLineEngine) lru = Some l
    /\ (forall j lj, nth_error (l1Lines oneLineEngine) j = Some lj ->
          lastAccessed l <= lastAccessed lj)
    /\ (forall j lj, j < lru -> nth_error (l1Lines oneLineEngine) j = Some lj ->
          lastAccessed l < lastAccessed lj).
Proof.
  apply (proj1 write_miss_overwrites_least_stamp_of_all_lines
           oneLineEngine 9%Z 1%float oneLineEngine_reachable).
  vm_compute. reflexivity.
Defined.
